(** * Mosaic.js: the template composition engine

    A shallow embedding of the resolution and flattening engine of
    Mosaic.js: [Mosaic.compose], [buildTemplateTree] and its helpers,
    [parseMarkdown] and [extractReferencesFromContent],
    [getTemplateContent], [normalizeToRelativeSelector],
    [normalizeOverridesPaths], together with a model of the part of
    mustache.js the engine calls, [Mustache.render].

    Conventions.  JavaScript strings are modelled by [string], sequences
    of 8-bit characters, and the class [\s] of the regular expressions by
    its ASCII part.  JavaScript objects used as dictionaries are
    [gmap string _]; where the enumeration order of an object matters
    ([Object.entries]) the object is given as the list of its entries.
    [Effect] programs are modelled by a writer and exception monad [Eff]:
    the log carries the diagnostics written to the console, the outcome is
    a value, a thrown exception, or the exhaustion of the fuel of the one
    unbounded loop. *)

From Stdlib Require Import String Ascii List ZArith Lia Bool.
From stdpp Require Import base option list gmap strings pretty.

Import ListNotations.
Local Open Scope string_scope.
Local Open Scope list_scope.

Set Default Proof Using "Type".

(** ** JavaScript string primitives *)

Module Js.

(** [\s] on ASCII input: TAB, LF, VT, FF, CR and SPACE. *)
Definition isWhitespace (c : ascii) : bool :=
  let n := nat_of_ascii c in
  (n =? 9)%nat || (n =? 10)%nat || (n =? 11)%nat || (n =? 12)%nat
  || (n =? 13)%nat || (n =? 32)%nat.

(** [[a-zA-Z0-9_\-]] *)
Definition isWordDash (c : ascii) : bool :=
  let n := nat_of_ascii c in
  ((97 <=? n)%nat && (n <=? 122)%nat) || ((65 <=? n)%nat && (n <=? 90)%nat)
  || ((48 <=? n)%nat && (n <=? 57)%nat) || (n =? 95)%nat || (n =? 45)%nat.

Fixpoint startsWith (p s : string) : bool :=
  match p, s with
  | EmptyString, _ => true
  | String a p', String b s' => Ascii.eqb a b && startsWith p' s'
  | String _ _, EmptyString => false
  end.

(** [s.slice(n)] *)
Fixpoint slice (n : nat) (s : string) : string :=
  match n, s with
  | O, _ => s
  | S n', String _ s' => slice n' s'
  | S _, EmptyString => EmptyString
  end.

Fixpoint trimStart (s : string) : string :=
  match s with
  | String c s' => if isWhitespace c then trimStart s' else s
  | EmptyString => EmptyString
  end.

Fixpoint trimEnd (s : string) : string :=
  match s with
  | String c s' =>
      match trimEnd s' with
      | EmptyString => if isWhitespace c then EmptyString else String c EmptyString
      | t => String c t
      end
  | EmptyString => EmptyString
  end.

(** [s.trim()] *)
Definition trim (s : string) : string := trimEnd (trimStart s).

Fixpoint forallb (P : ascii -> bool) (s : string) : bool :=
  match s with
  | EmptyString => true
  | String c s' => P c && forallb P s'
  end.

(** [arr.includes(x)] on an array of strings. *)
Definition includes (l : list string) (x : string) : bool :=
  bool_decide (x ∈ l).

(** [[...new Set(l)]]: first occurrences, in order. *)
Fixpoint dedupe (seen : list string) (l : list string) : list string :=
  match l with
  | [] => []
  | x :: r => if includes seen x then dedupe seen r else x :: dedupe (x :: seen) r
  end.

End Js.

(** ** Backtracking matchers for the regular expressions of the source

  A matcher receives the text at the current position and a
  continuation for the rest of the pattern; [None] is a failed match.
  Greedy quantifiers try the longest repetition first and give
  characters back when the continuation fails, as the JavaScript
  engine does. *)

Module Re.

Section Matchers.
Context {A : Type}.

(** a literal string *)
Definition lit (p : string) (k : string -> option A) (s : string) : option A :=
  if Js.startsWith p s then k (Js.slice (String.length p) s) else None.

(** [C*] for a character class [C] *)
Fixpoint star (C : ascii -> bool) (k : string -> option A) (s : string) : option A :=
  match s with
  | String c s' =>
      if C c then
        match star C k s' with
        | Some r => Some r
        | None => k s
        end
      else k s
  | EmptyString => k s
  end.

(** [(C* )]: as [star], the continuation also receives the text matched *)
Fixpoint starCapture (C : ascii -> bool) (k : string -> string -> option A)
    (s : string) : option A :=
  match s with
  | String c s' =>
      if C c then
        match starCapture C (fun g r => k (String c g) r) s' with
        | Some r => Some r
        | None => k EmptyString s
        end
      else k EmptyString s
  | EmptyString => k EmptyString s
  end.

(** [C+] *)
Definition plus (C : ascii -> bool) (k : string -> option A) (s : string) : option A :=
  match s with
  | String c s' => if C c then star C k s' else None
  | EmptyString => None
  end.

(** [(C+)] *)
Definition plusCapture (C : ascii -> bool) (k : string -> string -> option A)
    (s : string) : option A :=
  match s with
  | String c s' =>
      if C c then starCapture C (fun g r => k (String c g) r) s' else None
  | EmptyString => None
  end.

(** end of input, [$] without the [m] flag *)
Definition eos (v : A) (s : string) : option A :=
  match s with EmptyString => Some v | _ => None end.

End Matchers.

(** [re.exec] in a [while] loop with the [g] flag: all matches, leftmost
    first, the search resuming where the previous match ended.  [m]
    returns the captured value and the text left after the match; every
    pattern used here matches at least one character.  The result lists
    [(start, end, capture)]. *)
Fixpoint execAll {A} (m : string -> option (A * string)) (pos skip : nat)
    (s : string) : list (nat * nat * A) :=
  match s with
  | EmptyString => []
  | String _ s' =>
      match skip with
      | S k => execAll m (S pos) k s'
      | O =>
          match m s with
          | Some (a, rest) =>
              let len := String.length s - String.length rest in
              (pos, pos + len, a) :: execAll m (S pos) (len - 1) s'
          | None => execAll m (S pos) 0 s'
          end
      end
  end.

(** [s.replace(re, '')] with the [g] flag. *)
Fixpoint removeAll (m : string -> option string) (skip : nat) (s : string) : string :=
  match s with
  | EmptyString => EmptyString
  | String c s' =>
      match skip with
      | S k => removeAll m k s'
      | O =>
          match m s with
          | Some rest => removeAll m (String.length s - String.length rest - 1) s'
          | None => String c (removeAll m 0 s')
          end
      end
  end.

End Re.

(** ** Selectors ([isValidTemplateSelector], [normalizeSelector]) *)

Inductive TemplateSelectorType := relative | root | id.

#[global] Instance TemplateSelectorType_eq_dec : EqDecision TemplateSelectorType.
Proof. solve_decision. Defined.

(** [[a-zA-Z0-9_-]+(\/[a-zA-Z0-9_-]+)*$]: [seen] tells whether the current
    segment already has a character. *)
Fixpoint segments (seen : bool) (s : string) : bool :=
  match s with
  | EmptyString => seen
  | String c s' =>
      if Js.isWordDash c then segments true s'
      else if Ascii.eqb c "/" then seen && segments false s'
      else false
  end.

(** [/^[a-zA-Z0-9_-]+(\/[a-zA-Z0-9_-]+)*$/] *)
Definition relativePath (s : string) : bool := segments false s.

(** [/^@[a-zA-Z0-9_-]+(\/[a-zA-Z0-9_-]+)*$/] *)
Definition rootPath (s : string) : bool :=
  match s with
  | String "@" s' => segments false s'
  | _ => false
  end.

(** [/^#[a-zA-Z0-9_-]+$/] *)
Definition idSelector (s : string) : bool :=
  match s with
  | String "#" (String c s') => Js.isWordDash c && Js.forallb Js.isWordDash s'
  | _ => false
  end.

(** [isValidTemplateSelector]: [None] is [{ valid: false }]. *)
Definition isValidTemplateSelector (selector : string) : option TemplateSelectorType :=
  if relativePath selector then Some relative
  else if rootPath selector then Some root
  else if idSelector selector then Some id
  else None.

(** ** mustache.js, as far as [Mustache.render(template, view)] goes

    The tokenizer follows [parseTemplate] (scanner, tag kinds, custom
    delimiters, removal of the white space of stand-alone tag lines,
    section nesting and its errors); the renderer follows
    [Writer.renderTokens] for views whose values are strings or numbers,
    without partials and without lambdas.  Names that JavaScript resolves
    through prototypes or through the properties of primitive values
    (dotted names reaching a value, the members of [Object.prototype]) are
    answered [Unsupported] rather than guessed; numbers are integers. *)

Module Mustache.

Inductive scalar := Str (s : string) | Num (n : Z).

Inductive error :=
| UnclosedTag
| UnopenedSection (name : string)
| UnclosedSection (name : string)
| InvalidTags (tags : string).

Inductive result (A : Type) :=
| Ok (a : A)
| Throw (e : error)
| Unsupported.
Arguments Ok {A} a.
Arguments Throw {A} e.
Arguments Unsupported {A}.

Definition bind {A B} (r : result A) (f : A -> result B) : result B :=
  match r with
  | Ok a => f a
  | Throw e => Throw e
  | Unsupported => Unsupported
  end.

Definition dquote : ascii := ascii_of_nat 34.

(** [entityMap] *)
Definition entityMap (c : ascii) : string :=
  if Ascii.eqb c "&" then "&amp;"
  else if Ascii.eqb c "<" then "&lt;"
  else if Ascii.eqb c ">" then "&gt;"
  else if Ascii.eqb c dquote then "&quot;"
  else if Ascii.eqb c "'" then "&#39;"
  else if Ascii.eqb c "/" then "&#x2F;"
  else if Ascii.eqb c "`" then "&#x60;"
  else if Ascii.eqb c "=" then "&#x3D;"
  else String c EmptyString.

(** [escapeHtml]: every character of the class of [entityMap] is replaced
    by its entity, [String(string).replace(re, s => entityMap[s])]. *)
Fixpoint escapeHtml (s : string) : string :=
  match s with
  | EmptyString => EmptyString
  | String c s' => entityMap c +:+ escapeHtml s'
  end.

(** Tokens: [['text', chr]], [['name', v]], [['&', v]] (also for the
    triple mustache), [['#', v]], [['^', v]], [['/', v]], [['>', v]],
    [['!', v]], [['=', v]]. *)
Inductive token :=
| Text (c : ascii)
| Name (v : string)
| Unescaped (v : string)
| Section (v : string)
| Inverted (v : string)
| Close (v : string)
| Partial (v : string)
| Comment (v : string)
| SetDelimiters (v : string).

(** *** Scanner *)

(** [tail.search(re)] and the split it induces in [scanUntil]: the text
    before the leftmost match and the text from the match on; all of the
    text and nothing when there is no match. *)
Fixpoint scanUntil (re : string -> bool) (tail : string) : string * string :=
  if re tail then (EmptyString, tail)
  else match tail with
       | EmptyString => (EmptyString, EmptyString)
       | String c tail' =>
           let '(value, rest) := scanUntil re tail' in (String c value, rest)
       end.

(** [openingTagRe = escapeRegExp(tags[0]) + '\\s*'] *)
Definition openingTagRe (otag : string) : string -> option string :=
  Re.lit otag (Re.star Js.isWhitespace Some).

(** [closingTagRe = '\\s*' + escapeRegExp(tags[1])] *)
Definition closingTagRe (ctag : string) : string -> option string :=
  Re.star Js.isWhitespace (Re.lit ctag Some).

(** [closingCurlyRe = '\\s*' + escapeRegExp('}' + tags[1])] *)
Definition closingCurlyRe (ctag : string) : string -> option string :=
  Re.star Js.isWhitespace (Re.lit (String "}" ctag) Some).

(** [equalsRe = /\s*=/] *)
Definition equalsRe : string -> option string :=
  Re.star Js.isWhitespace (Re.lit "=" Some).

(** [curlyRe = /\s*\}/] *)
Definition curlyRe : string -> option string :=
  Re.star Js.isWhitespace (Re.lit "}" Some).

(** [whiteRe = /\s*/] *)
Definition whiteRe : string -> option string :=
  Re.star Js.isWhitespace Some.

(** [scanner.scan(re)] when the result is only used to advance: the tail
    after the match, or the tail unchanged. *)
Definition scan (re : string -> option string) (tail : string) : string :=
  default tail (re tail).

Definition matches (re : string -> option string) (tail : string) : bool :=
  bool_decide (is_Some (re tail)).

(** [tagRe = /#|\^|\/|>|\{|&|=|!/] *)
Definition tagRe (c : ascii) : bool :=
  Ascii.eqb c "#" || Ascii.eqb c "^" || Ascii.eqb c "/" || Ascii.eqb c ">"
  || Ascii.eqb c "{" || Ascii.eqb c "&" || Ascii.eqb c "=" || Ascii.eqb c "!".

(** [type = scanner.scan(tagRe) || 'name']; [None] is ['name']. *)
Definition scanType (tail : string) : option ascii * string :=
  match tail with
  | String c tail' => if tagRe c then (Some c, tail') else (None, tail)
  | EmptyString => (None, tail)
  end.

(** [value.split(spaceRe, 2)] with the test [length !== 2] of
    [compileTags]: the first two pieces when there are at least two. *)
Fixpoint untilSpace (s : string) : string * string :=
  match s with
  | String c s' =>
      if Js.isWhitespace c then (EmptyString, s)
      else let '(a, b) := untilSpace s' in (String c a, b)
  | EmptyString => (EmptyString, EmptyString)
  end.

Definition compileTags (tagsToCompile : string) : option (string * string) :=
  let '(first, rest) := untilSpace tagsToCompile in
  match rest with
  | EmptyString => None
  | _ => Some (first, fst (untilSpace (Js.trimStart rest)))
  end.

(** *** [parseTemplate] *)

(** The state of the tokenizer.  [line] holds the tokens pushed since the
    last [stripSpace], [tokens] the earlier ones, both most recent first;
    the array [spaces] of the source is the white-space text tokens of
    [line]. *)
Record lexer := Lexer {
  tokens : list token;
  line : list token;
  hasTag : bool;
  nonSpace : bool;
  sections : list string;
  otag : string;
  ctag : string
}.

Definition isSpaceToken (t : token) : bool :=
  match t with
  | Text c => Js.isWhitespace c
  | _ => false
  end.

(** [stripSpace]: on a line with a tag and nothing but white space, the
    white space goes. *)
Definition stripSpace (st : lexer) : lexer :=
  let kept :=
    if hasTag st && negb (nonSpace st)
    then List.filter (fun t => negb (isSpaceToken t)) (line st)
    else line st in
  Lexer (kept ++ tokens st) [] false false (sections st) (otag st) (ctag st).

Definition newline : ascii := ascii_of_nat 10.

(** One character of the text between two tags. *)
Definition pushChar (st : lexer) (chr : ascii) : lexer :=
  let st1 :=
    Lexer (tokens st) (Text chr :: line st) (hasTag st)
          (if Js.isWhitespace chr then nonSpace st else true)
          (sections st) (otag st) (ctag st) in
  if Ascii.eqb chr newline then stripSpace st1 else st1.

Fixpoint pushText (st : lexer) (value : string) : lexer :=
  match value with
  | EmptyString => st
  | String chr value' => pushText (pushChar st chr) value'
  end.

(** The value of a tag, by its type: up to [=] for a change of delimiters,
    up to the closing curly for a triple mustache, up to the closing tag
    otherwise; the scanner is left in front of the closing tag. *)
Definition scanValue (ctag : string) (type : option ascii) (tail : string)
    : string * string :=
  match type with
  | Some "="%char =>
      let '(value, t1) := scanUntil (matches equalsRe) tail in
      let t2 := scan equalsRe t1 in
      (value, snd (scanUntil (matches (closingTagRe ctag)) t2))
  | Some "{"%char =>
      let '(value, t1) := scanUntil (matches (closingCurlyRe ctag)) tail in
      let t2 := scan curlyRe t1 in
      (value, snd (scanUntil (matches (closingTagRe ctag)) t2))
  | _ => scanUntil (matches (closingTagRe ctag)) tail
  end.

Definition mkToken (type : option ascii) (value : string) : token :=
  match type with
  | None => Name value
  | Some "#"%char => Section value
  | Some "^"%char => Inverted value
  | Some "/"%char => Close value
  | Some ">"%char => Partial value
  | Some "!"%char => Comment value
  | Some "="%char => SetDelimiters value
  | Some _ => Unescaped value
  end.

(** What follows [tokens.push(token)]: the section stack and its errors,
    [nonSpace] for the tags that print, the new delimiters. *)
Definition pushTag (st : lexer) (type : option ascii) (value : string)
    : result lexer :=
  let ln := mkToken type value :: line st in
  match mkToken type value with
  | Section _ | Inverted _ =>
      Ok (Lexer (tokens st) ln true (nonSpace st) (value :: sections st)
                (otag st) (ctag st))
  | Close _ =>
      match sections st with
      | [] => Throw (UnopenedSection value)
      | openSection :: rest =>
          if String.eqb openSection value
          then Ok (Lexer (tokens st) ln true (nonSpace st) rest (otag st) (ctag st))
          else Throw (UnclosedSection openSection)
      end
  | Name _ | Unescaped _ =>
      Ok (Lexer (tokens st) ln true true (sections st) (otag st) (ctag st))
  | SetDelimiters _ =>
      match compileTags value with
      | Some (o, c) => Ok (Lexer (tokens st) ln true (nonSpace st) (sections st) o c)
      | None => Throw (InvalidTags value)
      end
  | _ =>
      Ok (Lexer (tokens st) ln true (nonSpace st) (sections st) (otag st) (ctag st))
  end.

(** After the loop: [stripSpace()], then no section may be open. *)
Definition finish (st : lexer) : result (list token) :=
  let st' := stripSpace st in
  match sections st' with
  | openSection :: _ => Throw (UnclosedSection openSection)
  | [] => Ok (rev (tokens st'))
  end.

(** The [while (!scanner.eos())] loop.  Every round that does not leave
    the loop consumes an opening tag, so the length of the template is
    fuel enough ([parseTemplate_fuel] below). *)
Fixpoint parseLoop (fuel : nat) (st : lexer) (tail : string) : result (list token) :=
  match tail, fuel with
  | EmptyString, _ => finish st
  | _, O => Unsupported
  | _, S fuel' =>
      let '(value, tail1) := scanUntil (matches (openingTagRe (otag st))) tail in
      let st1 := pushText st value in
      match openingTagRe (otag st) tail1 with
      | None => finish st1
      | Some tail2 =>
          if (String.length tail1 =? String.length tail2)%nat then finish st1
          else
            let '(type, tail3) := scanType tail2 in
            let tail4 := scan whiteRe tail3 in
            let '(value, tail5) := scanValue (ctag st1) type tail4 in
            match closingTagRe (ctag st1) tail5 with
            | None => Throw UnclosedTag
            | Some tail6 =>
                if (String.length tail5 =? String.length tail6)%nat
                then Throw UnclosedTag
                else bind (pushTag st1 type value)
                          (fun st2 => parseLoop fuel' st2 tail6)
            end
      end
  end.

Definition parseTemplate (template : string) : result (list token) :=
  parseLoop (String.length template)
            (Lexer [] [] false false [] "{{" "}}") template.

(** *** [nestTokens] *)

#[warnings="-register-all"]
Inductive node :=
| NText (c : ascii)
| NName (v : string)
| NUnescaped (v : string)
| NSection (v : string) (body : list node)
| NInverted (v : string) (body : list node)
| NPartial (v : string)
| NSilent.

(** [collector] is the list being filled, most recent first; [stack]
    holds, for every open section, whether it is inverted, its name and
    the collector it interrupted. *)
Fixpoint nestTokens (ts : list token) (collector : list node)
    (stack : list (bool * string * list node)) : list node :=
  match ts with
  | [] =>
      rev (fold_left
             (fun inner '(inv, v, outer) =>
                (if inv : bool then NInverted v (rev inner)
                 else NSection v (rev inner)) :: outer)
             stack collector)
  | Section v :: ts' => nestTokens ts' [] ((false, v, collector) :: stack)
  | Inverted v :: ts' => nestTokens ts' [] ((true, v, collector) :: stack)
  | Close _ :: ts' =>
      match stack with
      | (inv, v, outer) :: stack' =>
          nestTokens ts'
            ((if inv : bool then NInverted v (rev collector)
              else NSection v (rev collector)) :: outer) stack'
      | [] => nestTokens ts' collector []
      end
  | Text c :: ts' => nestTokens ts' (NText c :: collector) stack
  | Name v :: ts' => nestTokens ts' (NName v :: collector) stack
  | Unescaped v :: ts' => nestTokens ts' (NUnescaped v :: collector) stack
  | Partial v :: ts' => nestTokens ts' (NPartial v :: collector) stack
  | (Comment _ | SetDelimiters _) :: ts' => nestTokens ts' (NSilent :: collector) stack
  end.

(** *** [Context.lookup] *)

Inductive view := Obj (m : gmap string scalar) | Prim (v : scalar).

Inductive found :=
| Hit (v : scalar)
| HitObj
| Miss
| Beyond.

(** The members of [Object.prototype], which [name in obj] finds in every
    plain object. *)
Definition protoNames : list string :=
  [ "constructor"; "hasOwnProperty"; "isPrototypeOf"; "propertyIsEnumerable";
    "toLocaleString"; "toString"; "valueOf"; "__defineGetter__";
    "__defineSetter__"; "__lookupGetter__"; "__lookupSetter__"; "__proto__" ].

(** [name.indexOf('.') > 0], with the first of [name.split('.')]. *)
Fixpoint firstName (name : string) : string * bool :=
  match name with
  | EmptyString => (EmptyString, false)
  | String c name' =>
      if Ascii.eqb c "." then (EmptyString, true)
      else let '(a, dotted) := firstName name' in (String c a, dotted)
  end.

Definition isDotted (name : string) : bool :=
  match name with
  | String "." _ => false
  | _ => snd (firstName name)
  end.

(** The walk [while (context) { ... context = context.parent }] for a
    name without dots: the own properties of the object views; a
    primitive view has no property in the sense of [hasProperty]. *)
Fixpoint lookupPlain (name : string) (context : list view) : found :=
  match context with
  | [] => Miss
  | Obj m :: parent =>
      match m !! name with
      | Some v => Hit v
      | None => lookupPlain name parent
      end
  | Prim _ :: parent => lookupPlain name parent
  end.

(** The same walk for a dotted name: a view without the first name is
    passed over; once the first name reaches a value, the rest of the
    path asks for the properties of a primitive. *)
Fixpoint lookupDotted (first : string) (context : list view) : found :=
  match context with
  | [] => Miss
  | Obj m :: parent =>
      match m !! first with
      | Some _ => Beyond
      | None => lookupDotted first parent
      end
  | Prim _ :: _ => Beyond
  end.

(** [context.lookup(name)]; the cache starts as [{ '.': this.view }]. *)
Definition lookup (name : string) (context : list view) : found :=
  if String.eqb name "." then
    match context with
    | Prim v :: _ => Hit v
    | _ => HitObj
    end
  else if bool_decide (fst (firstName name) ∈ protoNames) then Beyond
  else if isDotted name then lookupDotted (fst (firstName name)) context
  else lookupPlain name context.

(** *** [Writer.renderTokens] *)

(** [String(value)] *)
Definition toString (v : scalar) : string :=
  match v with
  | Str s => s
  | Num n => pretty n
  end.

(** [!value] *)
Definition falsy (v : scalar) : bool :=
  match v with
  | Str s => String.eqb s EmptyString
  | Num n => (n =? 0)%Z
  end.

Definition objectString : string := "[object Object]".

(** [escapedValue]: a number is printed, anything else escaped. *)
Definition escapedValue (name : string) (context : list view) : result string :=
  match lookup name context with
  | Hit (Num n) => Ok (pretty n)
  | Hit (Str s) => Ok (escapeHtml s)
  | HitObj => Ok (escapeHtml objectString)
  | Miss => Ok EmptyString
  | Beyond => Unsupported
  end.

(** [unescapedValue] *)
Definition unescapedValue (name : string) (context : list view) : result string :=
  match lookup name context with
  | Hit v => Ok (toString v)
  | HitObj => Ok objectString
  | Miss => Ok EmptyString
  | Beyond => Unsupported
  end.

(** The context in which the body of a section is rendered, if it is. *)
Definition sectionContext (name : string) (context : list view)
    : result (option (list view)) :=
  match lookup name context with
  | Hit v => Ok (if falsy v then None else Some (Prim v :: context))
  | HitObj => Ok (Some (match context with c :: _ => c :: context | [] => context end))
  | Miss => Ok None
  | Beyond => Unsupported
  end.

(** The context in which the body of an inverted section is rendered. *)
Definition invertedContext (name : string) (context : list view)
    : result (option (list view)) :=
  match lookup name context with
  | Hit v => Ok (if falsy v then Some context else None)
  | HitObj => Ok None
  | Miss => Ok (Some context)
  | Beyond => Unsupported
  end.

Fixpoint renderToken (context : list view) (t : node) {struct t} : result string :=
  let renderTokens :=
    fix renderTokens (context : list view) (ts : list node) {struct ts} : result string :=
      match ts with
      | [] => Ok EmptyString
      | t :: ts' =>
          bind (renderToken context t) (fun a =>
          bind (renderTokens context ts') (fun b => Ok (a +:+ b)))
      end in
  match t with
  | NText c => Ok (String c EmptyString)
  | NName v => escapedValue v context
  | NUnescaped v => unescapedValue v context
  | NSection v body =>
      bind (sectionContext v context) (fun c =>
        match c with
        | Some context' => renderTokens context' body
        | None => Ok EmptyString
        end)
  | NInverted v body =>
      bind (invertedContext v context) (fun c =>
        match c with
        | Some context' => renderTokens context' body
        | None => Ok EmptyString
        end)
  | NPartial _ => Ok EmptyString
  | NSilent => Ok EmptyString
  end.

Fixpoint renderTokens (context : list view) (ts : list node) : result string :=
  match ts with
  | [] => Ok EmptyString
  | t :: ts' =>
      bind (renderToken context t) (fun a =>
      bind (renderTokens context ts') (fun b => Ok (a +:+ b)))
  end.

(** [Mustache.render(template, view)], no partials. *)
Definition render (template : string) (v : gmap string scalar) : result string :=
  bind (parseTemplate template) (fun ts =>
    renderTokens [Obj v] (nestTokens ts [] [])).

End Mustache.

(** ** Effects: diagnostics, exceptions, fuel *)

(** What the engine reports on the console about a recoverable anomaly.
    A warning and the [Removing ...] line that follows it are one entry;
    the informational [Console.log] lines are not recorded. *)
Inductive Diag :=
| DoesNotExist (templateSelector : string)
| MultipleFilesWithId (id : string) (first : string)
| SelfReferenceInReferences (currentPath : string)
| LoopInReferences (currentPath : string) (loopedReferences : list string)
| SelfReferenceInContent (currentPath : string) (ref : string)
| AncestorLoopInContent (currentPath : string) (normalizedRef : string) (ref : string)
| NotAValidSelector (templateSelector : string).

(** What [Effect.runSync] throws: the one declared failure of [compose],
    or the defect of a [Mustache.render] that threw inside
    [Effect.sync]. *)
Inductive Exception :=
| InvalidTemplateSelectorError
| MustacheThrew (e : Mustache.error).

Inductive outcome (A : Type) :=
| Returns (a : A)
| Throws (e : Exception)
| OutOfFuel
| OutsideModel.
Arguments Returns {A} a.
Arguments Throws {A} e.
Arguments OutOfFuel {A}.
Arguments OutsideModel {A}.

Definition Eff (A : Type) : Type := outcome A * list Diag.

#[global] Instance Eff_ret : MRet Eff := fun A a => (Returns a, []).

#[global] Instance Eff_bind : MBind Eff := fun A B f m =>
  match m with
  | (Returns a, log) => let '(o, log') := f a in (o, log ++ log')
  | (Throws e, log) => (Throws e, log)
  | (OutOfFuel, log) => (OutOfFuel, log)
  | (OutsideModel, log) => (OutsideModel, log)
  end.

Definition warn (d : Diag) : Eff unit := (Returns tt, [d]).

Definition fail {A} (e : Exception) : Eff A := (Throws e, []).

(** [Effect.sync(() => Mustache.render(...))] *)
Definition sync (r : Mustache.result string) : Eff string :=
  match r with
  | Mustache.Ok s => (Returns s, [])
  | Mustache.Throw e => (Throws (MustacheThrew e), [])
  | Mustache.Unsupported => (OutsideModel, [])
  end.

(** ** The template directory *)

(** What the engine asks of the file system and of gray-matter.
    - [readTemplate p]: the text of [path.join(templateDir, p + ".md")]
      when [fs.existsSync] finds it.
    - [matchesById i]: the array [matches] of [findMarkdownFileById], the
      files whose front matter has [id: i] in the order of the search.
      Each file is given by its path as [normalizeSelector] returns it
      (relative to the template directory, a final [.md] removed) and by
      its text, what [fs.readFileSync(foundPath)] reads.
    - [matter raw]: the [data] of gray-matter, [None] when it has no key,
      and its [content]. *)
Record World (FM : Type) := {
  readTemplate : string -> option string;
  matchesById : string -> list (string * string);
  matter : string -> option FM * string
}.
Arguments readTemplate {FM}.
Arguments matchesById {FM}.
Arguments matter {FM}.

(** [TemplateVariables] and the state of a [Mosaic] instance; the
    overrides are listed as [Object.entries] enumerates them. *)
Abbreviation TemplateVariables := (gmap string Mustache.scalar).

Record MosaicVariables := {
  templateVariables : TemplateVariables;
  templateOverrides : list (string * TemplateVariables)
}.

(** [Mosaic.provideVariables] *)
Definition provideVariables (decoded : TemplateVariables) (m : MosaicVariables)
    : MosaicVariables :=
  {| templateVariables := decoded ∪ templateVariables m;
     templateOverrides := templateOverrides m |}.

(** [obj[key] = value] on a plain object: the setter of [__proto__]
    ignores a primitive. *)
Definition assign {V} (key : string) (value : V) (obj : gmap string V) : gmap string V :=
  if String.eqb key "__proto__" then obj else <[key := value]> obj.

(** [Object.fromEntries] *)
Definition fromEntries {V} (entries : list (string * V)) : gmap string V :=
  fold_left (fun obj '(key, value) => <[key := value]> obj) entries ∅.

#[global] Instance dollar_inj : Inj (=) (=) (String "$").
Proof. intros x y H. by injection H. Qed.

(** ** The engine *)

Section Engine.

Context {FM : Type}.
Variable W : World FM.
Variable session : MosaicVariables.

(** [Mustache.render]; the engine is written over any renderer,
    [mosaicCompose] plugs in the model above. *)
Variable render : string -> TemplateVariables -> Mustache.result string.

Record ParsedMarkdownTemplate := {
  path : string;
  frontmatter : option FM;
  content : string;
  variables : list string;
  references : list string
}.

(** [interface TemplateTreeNode extends ParsedMarkdownTemplate] *)
#[warnings="-register-all"]
Inductive TemplateTreeNode := TreeNode {
  parsed :> ParsedMarkdownTemplate;
  ancestors : list string;
  children : option (list TemplateTreeNode)
}.

(** *** [findMarkdownFileById], [normalizeSelector] *)

(** The first match, with a warning when there are several. *)
Definition findMarkdownFileById (i : string) : Eff (option (string * string)) :=
  match matchesById W i with
  | [] => mret None
  | [first] => mret (Some first)
  | first :: _ => warn (MultipleFilesWithId i first.1);; mret (Some first)
  end.

Definition normalizeSelector (selector : string) (type : TemplateSelectorType)
    : Eff (option string) :=
  match type with
  | id =>
      foundPath ← findMarkdownFileById (Js.slice 1 selector);
      mret (match foundPath with
            | Some found => Some found.1
            | None => None
            end)
  | root => mret (Some (Js.slice 1 selector))
  | relative => mret (Some selector)
  end.

Definition normalizeToRelativeSelector (selector : string) : Eff (option string) :=
  match isValidTemplateSelector selector with
  | Some type => normalizeSelector selector type
  | None => mret None
  end.

(** *** [getTemplateContent] *)

Definition getTemplateContent (templateSelector : string) (type : TemplateSelectorType)
    : Eff (option string) :=
  match type with
  | id =>
      foundPath ← findMarkdownFileById (Js.slice 1 templateSelector);
      match foundPath with
      | None => warn (DoesNotExist templateSelector);; mret None
      | Some found => mret (Some found.2)
      end
  | _ =>
      let selectorPath :=
        match type with
        | root => Js.slice 1 templateSelector
        | _ => templateSelector
        end in
      match readTemplate W selectorPath with
      | None => warn (DoesNotExist templateSelector);; mret None
      | Some text => mret (Some text)
      end
  end.

(** [getContentRelative]: always with the type ["relative"]. *)
Definition getContentRelative (templateSelector : string) : Eff (option string) :=
  getTemplateContent templateSelector relative.

(** *** [parseFrontmatter], [extractVariables] *)

Definition parseFrontmatter (templateContent : string) : option FM * string :=
  matter W templateContent.

(** [/\{\{\s*\$([a-zA-Z0-9_\-]+)\s*\}\}/g] *)
Definition variableRegex : string -> option (string * string) :=
  Re.lit "{{" (Re.star Js.isWhitespace (Re.lit "$"
    (Re.plusCapture Js.isWordDash (fun name =>
       Re.star Js.isWhitespace (Re.lit "}}" (fun rest => Some (name, rest))))))).

Definition extractVariables (content : string) : list string :=
  map snd (Re.execAll variableRegex 0 0 content).

(** *** [extractReferencesFromContent] *)

Definition notClosingBrace (c : ascii) : bool := negb (Ascii.eqb c "}").

(** [/\{\{\s*([^\}]+)\s*\}\}/g] *)
Definition referenceRegex : string -> option (string * string) :=
  Re.lit "{{" (Re.star Js.isWhitespace
    (Re.plusCapture notClosingBrace (fun ref =>
       Re.star Js.isWhitespace (Re.lit "}}" (fun rest => Some (ref, rest)))))).

(** [/^\$[a-zA-Z0-9_\-]+$/.test(ref)] *)
Definition isVariableReference (ref : string) : bool :=
  bool_decide (is_Some (Re.lit "$" (Re.plus Js.isWordDash (Re.eos tt)) ref)).

(** [new RegExp(`\\{\\{\\s*${escapeRegExp(ref)}\\s*\\}\\}`, 'g')] *)
Definition tokenRegex (ref : string) : string -> option string :=
  Re.lit "{{" (Re.star Js.isWhitespace (Re.lit ref
    (Re.star Js.isWhitespace (Re.lit "}}" Some)))).

(** [for (const ref of refs) content = content.replace(regex(ref), '')] *)
Definition removeTokens (refs : list string) (content : string) : string :=
  fold_left (fun c ref => Re.removeAll (tokenRegex ref) 0 c) refs content.

Record ExtractOptions := {
  currentPath : option string;
  optAncestors : list string;
  removeLoopedReferences : bool;
  normalizeInContent : bool
}.

(** The three arrays filled by the [while] loop over the matches. *)
Record Extracted := {
  replacements : list (nat * nat * string);
  normalizedReferences : list string;
  referencesToRemove : list string
}.

(** [removeLoopedReferences && currentPath]: the path against which loops
    are checked, if they are. *)
Definition loopCheck (options : ExtractOptions) : option string :=
  if removeLoopedReferences options then
    match currentPath options with
    | Some (String _ _ as p) => Some p
    | _ => None
    end
  else None.

Definition keepReference (options : ExtractOptions) (acc : Extracted)
    (start stop : nat) (normalizedRef : string) : Extracted :=
  {| replacements :=
       if normalizeInContent options
       then replacements acc ++ [(start, stop, "{{ " +:+ normalizedRef +:+ " }}")]
       else replacements acc;
     normalizedReferences := normalizedReferences acc ++ [normalizedRef];
     referencesToRemove := referencesToRemove acc |}.

Definition dropReference (acc : Extracted) (ref : string) : Extracted :=
  {| replacements := replacements acc;
     normalizedReferences := normalizedReferences acc;
     referencesToRemove := referencesToRemove acc ++ [ref] |}.

Fixpoint collectReferences (options : ExtractOptions)
    (found : list (nat * nat * string)) (acc : Extracted) : Eff Extracted :=
  match found with
  | [] => mret acc
  | (start, stop, group) :: found' =>
      let ref := Js.trim group in
      if isVariableReference ref then collectReferences options found' acc
      else
        normalized ← normalizeToRelativeSelector ref;
        let normalizedRef := default ref normalized in
        match loopCheck options with
        | Some p =>
            if String.eqb normalizedRef p then
              warn (SelfReferenceInContent p ref);;
              collectReferences options found' (dropReference acc ref)
            else if Js.includes (optAncestors options) normalizedRef then
              warn (AncestorLoopInContent p normalizedRef ref);;
              collectReferences options found' (dropReference acc ref)
            else
              collectReferences options found'
                (keepReference options acc start stop normalizedRef)
        | None =>
            collectReferences options found'
              (keepReference options acc start stop normalizedRef)
        end
  end.

(** [content.split("")] *)
Fixpoint splitChars (s : string) : list string :=
  match s with
  | EmptyString => []
  | String c s' => String c EmptyString :: splitChars s'
  end.

(** [arr.join("")] *)
Definition join (arr : list string) : string :=
  fold_right String.append EmptyString arr.

(** [contentArr.splice(start, end - start, replacement)] for each
    replacement, from the last to the first. *)
Definition applyReplacements (rs : list (nat * nat * string)) (contentArr : list string)
    : list string :=
  fold_right
    (fun '(start, stop, replacement) arr =>
       take start arr ++ replacement :: drop (start + (stop - start)) arr)
    contentArr rs.

Definition extractReferencesFromContent (text : string) (options : ExtractOptions)
    : Eff (list string * string) :=
  acc ← collectReferences options (Re.execAll referenceRegex 0 0 text)
        {| replacements := []; normalizedReferences := []; referencesToRemove := [] |};
  let removed :=
    if removeLoopedReferences options
    then removeTokens (referencesToRemove acc) text
    else text in
  let updatedContent :=
    match normalizeInContent options, replacements acc with
    | true, _ :: _ => join (applyReplacements (replacements acc) (splitChars removed))
    | _, _ => removed
    end in
  mret (Js.dedupe [] (normalizedReferences acc), updatedContent).

(** *** [parseMarkdown] *)

(** [extractAndNormalizeReferences]: the references of the body, every
    token rewritten to its normalized reference. *)
Definition extractAndNormalizeReferences (text : string) : Eff (list string * string) :=
  extractReferencesFromContent text
    {| currentPath := None; optAncestors := []; removeLoopedReferences := false;
       normalizeInContent := true |}.

Definition parseMarkdown (templateSelector : string) : Eff ParsedMarkdownTemplate :=
  raw ← getContentRelative templateSelector;
  match raw with
  | Some text =>
      let '(fm, body) := parseFrontmatter text in
      let vars := extractVariables body in
      '(refs, newContent) ← extractAndNormalizeReferences body;
      mret {| path := templateSelector; frontmatter := fm; content := newContent;
              variables := vars; references := refs |}
  | None =>
      mret {| path := templateSelector; frontmatter := None; content := EmptyString;
              variables := []; references := [] |}
  end.

(** *** Loop filtering *)

Definition removeReferenceFromNode (templateNode : TemplateTreeNode)
    (toRemove : list string) : TemplateTreeNode :=
  let newReferences :=
    List.filter (fun ref => negb (Js.includes toRemove ref)) (references templateNode) in
  let newContent := removeTokens toRemove (content templateNode) in
  TreeNode
    {| path := path templateNode; frontmatter := frontmatter templateNode;
       content := newContent; variables := variables templateNode;
       references := newReferences |}
    (ancestors templateNode) (children templateNode).

(** The first half of [filterLoopedReferences]: the self-reference. *)
Definition removeSelfReference (templateNode : TemplateTreeNode) : Eff TemplateTreeNode :=
  let here := path templateNode in
  if Js.includes (references templateNode) here then
    warn (SelfReferenceInReferences here);;
    mret (removeReferenceFromNode templateNode [here])
  else mret templateNode.

(** The second half: the references that are ancestors. *)
Definition removeAncestorLoops (anc : list string) (here : string)
    (filteredNode : TemplateTreeNode) : Eff TemplateTreeNode :=
  let loopedReferences :=
    List.filter (fun ref => Js.includes anc ref) (references filteredNode) in
  match loopedReferences with
  | [] => mret filteredNode
  | _ =>
      warn (LoopInReferences here loopedReferences);;
      mret (removeReferenceFromNode filteredNode loopedReferences)
  end.

Definition filterLoopedReferences (templateNode : TemplateTreeNode) : Eff TemplateTreeNode :=
  removeSelfReference templateNode
  ≫= removeAncestorLoops (ancestors templateNode) (path templateNode).

Definition getNodeFromSelector (rootSelector : string) (anc : list string)
    : Eff TemplateTreeNode :=
  templateNode ← parseMarkdown rootSelector;
  filterLoopedReferences (TreeNode templateNode anc None).

(** *** [extractTemplateVariables] *)

(** [normalizeOverridesPaths]: the entries whose key normalizes to a
    non-empty path, under that path. *)
Definition normalizeOverridesPaths (overrides : list (string * TemplateVariables))
    : Eff (gmap string TemplateVariables) :=
  results ← mapM (fun '(key, value) =>
               normalizedKey ← normalizeToRelativeSelector key;
               mret (match normalizedKey with
                     | Some (String _ _ as k) => Some (k, value)
                     | _ => None
                     end)) overrides;
  mret (fromEntries (omap (fun entry => entry) results)).

Definition extractTemplateVariables (here : string) : Eff TemplateVariables :=
  normalizedOverrides ← normalizeOverridesPaths (templateOverrides session);
  let pathOverrides := default ∅ (normalizedOverrides !! here) in
  let mergedVariables := pathOverrides ∪ templateVariables session in
  mret (kmap (String "$") mergedVariables).

(** *** [attachChildren], [flattenChildrenAndExpandContent] *)

Definition withContent (n : TemplateTreeNode) (newContent : string) : TemplateTreeNode :=
  TreeNode
    {| path := path n; frontmatter := frontmatter n; content := newContent;
       variables := variables n; references := references n |}
    (ancestors n) (children n).

(** The body of the [Effect.forEach] of [attachChildren]: the node of one
    reference, its body rendered with the variables of its own path. *)
Definition expandChild (rootNode : TemplateTreeNode) (ref : string) : Eff TemplateTreeNode :=
  childNode ← getNodeFromSelector ref (ancestors rootNode ++ [path rootNode]);
  childTemplateVariables ← extractTemplateVariables (path childNode);
  expandedContent ← sync (render (content childNode) childTemplateVariables);
  mret (withContent childNode expandedContent).

Definition attachChildren (rootNode : TemplateTreeNode) : Eff TemplateTreeNode :=
  kids ← mapM (expandChild rootNode) (references rootNode);
  mret (TreeNode rootNode (ancestors rootNode) (Some kids)).

(** [{ "path": "content" }] over the children. *)
Definition mustacheContext (kids : list TemplateTreeNode) : TemplateVariables :=
  fold_left (fun ctx (child : TemplateTreeNode) => assign (path child) (Mustache.Str (content child)) ctx)
            kids ∅.

Definition flattenChildrenAndExpandContent (rootNode : TemplateTreeNode)
    : Eff TemplateTreeNode :=
  match default [] (children rootNode) with
  | [] => mret rootNode
  | kids =>
      expandedContent ← sync (render (content rootNode) (mustacheContext kids));
      '(newReferences, finalContent) ←
        extractReferencesFromContent expandedContent
          {| currentPath := Some (path rootNode); optAncestors := ancestors rootNode;
             removeLoopedReferences := true; normalizeInContent := false |};
      mret (TreeNode
              {| path := path rootNode; frontmatter := frontmatter rootNode;
                 content := finalContent; variables := variables rootNode;
                 references := newReferences |}
              (ancestors rootNode) (Some []))
  end.

(** *** [expandAndFlattenRecursively], [buildTemplateTree], [compose] *)

(** The [while] loop; [fuel] bounds the number of rounds, and running out
    of it is the outcome [OutOfFuel]. *)
Fixpoint expandAndFlattenRecursively (fuel : nat) (node : TemplateTreeNode)
    : Eff TemplateTreeNode :=
  match references node, fuel with
  | [], _ => mret node
  | _, O => (OutOfFuel, [])
  | _, S fuel' =>
      nodeWithChildren ← attachChildren node;
      currentNode ← flattenChildrenAndExpandContent nodeWithChildren;
      expandAndFlattenRecursively fuel' currentNode
  end.

Definition buildTemplateTree (fuel : nat) (rootSelector : string) : Eff TemplateTreeNode :=
  node ← getNodeFromSelector rootSelector [];
  expandAndFlattenRecursively fuel node.

(** [Mosaic.compose] *)
Definition compose (fuel : nat) (templateSelector : string) : Eff string :=
  match isValidTemplateSelector templateSelector with
  | None =>
      warn (NotAValidSelector templateSelector);;
      fail InvalidTemplateSelectorError
  | Some _ =>
      buildTemplateTree fuel templateSelector
      ≫= fun finalNode : TemplateTreeNode => mret (content finalNode)
  end.

End Engine.

(** ** Template directories given by their files *)

(** The data of a front matter block, as its key/value pairs; a value
    is a string or a number. *)
Definition FrontMatter : Type := list (string * Mustache.scalar).

(** A directory given by its [.md] files [(path, text)], the path
    without the extension, in the order in which the search by id meets
    them.  [frontMatters] lists, for the texts that open with a front
    matter block, what gray-matter returns for them; for any other text
    gray-matter returns no data and the text unchanged. *)
Definition grayMatter (frontMatters : list (string * (FrontMatter * string)))
    (raw : string) : option FrontMatter * string :=
  match (list_to_map frontMatters : gmap string (FrontMatter * string)) !! raw with
  | Some (data, body) => (match data with [] => None | _ => Some data end, body)
  | None => (None, raw)
  end.

(** The lines of a text: what stands between two line feeds. *)
Fixpoint textLines (current : string -> string) (s : string) : list string :=
  match s with
  | EmptyString => [current EmptyString]
  | String c s' =>
      if Ascii.eqb c Mustache.newline
      then current EmptyString :: textLines (fun rest => rest) s'
      else textLines (fun rest => current (String c rest)) s'
  end.

(** [rg -U -e "^id: ?${id}$"], for an id of word characters and dashes
    (what a valid id selector carries): some line of the text is [id:],
    at most one space, and the id. *)
Definition ripgrepFindsId (i : string) (text : string) : bool :=
  existsb (fun l => String.eqb l ("id: " +:+ i) || String.eqb l ("id:" +:+ i))
          (textLines (fun rest => rest) text).

(** The files that [findMarkdownFileById] keeps: those that ripgrep
    lists and whose data has the id, as a string, under [id]. *)
Definition hasId (frontMatters : list (string * (FrontMatter * string)))
    (i : string) (file : string * string) : bool :=
  ripgrepFindsId i file.2
  && match fst (grayMatter frontMatters file.2) with
     | Some data =>
         match (list_to_map data : gmap string Mustache.scalar) !! "id" with
         | Some (Mustache.Str value) => String.eqb value i
         | _ => false
         end
     | None => false
     end.

Definition directory (files : list (string * string))
    (frontMatters : list (string * (FrontMatter * string))) : World FrontMatter :=
  {| readTemplate p := (list_to_map files : gmap string string) !! p;
     matchesById i := List.filter (hasId frontMatters i) files;
     matter := grayMatter frontMatters |}.

Definition noVariables : MosaicVariables :=
  {| templateVariables := ∅; templateOverrides := [] |}.

(** [Mosaic.fromDirectory(...).compose(selector)] with mustache.js. *)
Definition mosaicCompose {FM} (W : World FM) (session : MosaicVariables)
    (fuel : nat) (templateSelector : string) : Eff string :=
  compose W session Mustache.render fuel templateSelector.

(** ** The nodes of a composition *)

Section Nodes.

Context {FM : Type}.
Variable W : World FM.
Variable session : MosaicVariables.
Variable render : string -> TemplateVariables -> Mustache.result string.

Abbreviation Node := (@TemplateTreeNode FM).

(** The degraded fragment of a selector whose text is absent. *)
Definition emptyTemplate (templateSelector : string) : @ParsedMarkdownTemplate FM :=
  {| path := templateSelector; frontmatter := None; content := EmptyString;
     variables := []; references := [] |}.

(** The invariant of the nodes: the path is no ancestor, no reference is
    an ancestor, the path is no reference. *)
Definition loopFree (n : Node) : Prop :=
  (path n ∉ ancestors n)
  /\ (forall r, r ∈ references n -> r ∉ ancestors n)
  /\ (path n ∉ references n).

(** The values taken by [currentNode] and [nodeWithChildren] in
    [buildTemplateTree rootSelector]. *)
Inductive RootLine (rootSelector : string) : Node -> Prop :=
| RootBuilt n log :
    getNodeFromSelector W rootSelector [] = (Returns n, log) ->
    RootLine rootSelector n
| RootAttached n n' log :
    RootLine rootSelector n ->
    attachChildren W session render n = (Returns n', log) ->
    RootLine rootSelector n'
| RootFlattened n n' log :
    RootLine rootSelector n ->
    flattenChildrenAndExpandContent W render n = (Returns n', log) ->
    RootLine rootSelector n'.

(** The nodes produced: those of the root, and the children built for
    its references. *)
Definition Produced (rootSelector : string) (n : Node) : Prop :=
  RootLine rootSelector n
  \/ exists parent ref log,
       RootLine rootSelector parent /\ ref ∈ references parent
       /\ expandChild W session render parent ref = (Returns n, log).

End Nodes.

(** ** Scenarios *)

Definition nl : string := String Mustache.newline EmptyString.

(** A root with a variable and a reference to a sibling. *)
Definition greetingDir : World FrontMatter :=
  directory [ ("root", "Hi {{ $name }}" +:+ nl +:+ "{{ other }}");
              ("other", "nested");
              ("plain", "Hi {{ $name }}") ] [].

Definition greetingSession : MosaicVariables :=
  provideVariables {[ "name" := Mustache.Str "World" ]} noVariables.

(** A chain of three fragments: [root] refers to [a], [a] to [b]. *)
Definition chainDir : World FrontMatter :=
  directory [ ("root", "{{ a }}"); ("a", "A{{ b }}"); ("b", "B") ] [].

(** A child whose rendered body still shows a reference, to a fragment in
    a subdirectory: the child switches the delimiters of mustache in
    front of the token. *)
Definition survivorDir : World FrontMatter :=
  directory [ ("r", "{{ a }}"); ("a", "{{=<% %>=}}{{ d/gc }}"); ("d/gc", "G") ] [].

Definition survivorRoot : @TemplateTreeNode FrontMatter :=
  TreeNode {| path := "r"; frontmatter := None; content := "{{ a }}";
              variables := []; references := ["a"] |} [] None.

Definition survivorChild : @TemplateTreeNode FrontMatter :=
  TreeNode {| path := "a"; frontmatter := None; content := "{{ d/gc }}";
              variables := []; references := ["=<% %>="; "d/gc"] |} ["r"] None.

(** Two fragments that switch the delimiters of mustache and name each
    other, under a root that names the first. *)
Definition delimiterDir : World FrontMatter :=
  directory [ ("r", "{{ a }}");
              ("a", "{{=<% %>=}}{{ b }}");
              ("b", "{{=<% %>=}}{{ a }}") ] [].

(** A fragment whose variable holds a reference to the fragment. *)
Definition echoDir : World FrontMatter :=
  directory [ ("r", "{{ a }}"); ("a", "{{ $v }}") ] [].

Definition echoSession : MosaicVariables :=
  provideVariables {[ "v" := Mustache.Str "{{ a }}" ]} noVariables.

(** The directories of the README: a footer next to the referencing
    fragment and one under the root. *)
Definition policiesDir : World FrontMatter :=
  directory [ ("company/policies/main", "{{ shared/footer }}");
              ("company/policies/shared/footer", "LOCAL");
              ("shared/footer", "ROOT") ] [].

(** One fragment [p] whose front matter carries the id [i]. *)
Definition helloWithId : string :=
  "---" +:+ nl +:+ "id: i" +:+ nl +:+ "---" +:+ nl +:+ "hello".

Definition singleDir : World FrontMatter :=
  directory [ ("p", helloWithId) ] [ (helloWithId, ([("id", Mustache.Str "i")], "hello")) ].

(** A root that refers to an id no fragment has, and one that refers to
    a path no fragment has. *)
Definition danglingDir : World FrontMatter :=
  directory [ ("root", "A {{ #nope }} B"); ("plain", "A {{ nope }} B") ] [].

(** A root that refers to itself and to a child that refers back. *)
Definition cycleDir : World FrontMatter :=
  directory [ ("r", "x{{ r }}y {{ c }}"); ("c", "a/b & <c> {{ r }}") ] [].

Definition cycleRoot : @TemplateTreeNode FrontMatter :=
  TreeNode {| path := "r"; frontmatter := None; content := "xy {{ c }}";
              variables := []; references := ["c"] |} [] None.

Definition cycleChild : @TemplateTreeNode FrontMatter :=
  TreeNode {| path := "c"; frontmatter := None; content := "a/b & <c> ";
              variables := []; references := [] |} ["r"] None.

(** A child with a global variable and an override. *)
Definition overrideDir : World FrontMatter :=
  directory [ ("r", "x{{ c }}"); ("c", "{{ $x }}|{{ $y }}") ] [].

Definition overrideSession : MosaicVariables :=
  {| templateVariables := {[ "x" := Mustache.Str "g"; "y" := Mustache.Num 3 ]};
     templateOverrides := [ ("c", {[ "x" := Mustache.Str "o" ]}) ] |}.

Definition overrideRoot : @TemplateTreeNode FrontMatter :=
  TreeNode {| path := "r"; frontmatter := None; content := "x{{ c }}";
              variables := []; references := ["c"] |} [] None.

Definition overrideChild : @TemplateTreeNode FrontMatter :=
  TreeNode {| path := "c"; frontmatter := None; content := "o|3";
              variables := ["x"; "y"]; references := [] |} ["r"] None.

(** Nodes of the root that come back round after round. *)
Definition delimiterNode (target : string) : @TemplateTreeNode FrontMatter :=
  TreeNode {| path := "r"; frontmatter := None;
              content := "{{ " +:+ target +:+ " }}";
              variables := []; references := [target] |} [] (Some []).

Definition echoNode : @TemplateTreeNode FrontMatter :=
  TreeNode {| path := "r"; frontmatter := None; content := "{{ a }}";
              variables := []; references := ["a"] |} [] (Some []).

(** Fragments in the manner of the scenarios of [Mosaic.test.ts]: a
    fragment that names itself by its path, by its root selector and by
    its id, and a fragment that names a file that does not exist. *)
Definition selfText (token : string) : string :=
  "This item self-references itself." +:+ nl +:+ token.

Definition selfById : string :=
  "---" +:+ nl +:+ "id: myself" +:+ nl +:+ "---" +:+ nl +:+ selfText "{{ #myself }}".

Definition testDir : World FrontMatter :=
  directory
    [ ("3-1-self-reference-relative", selfText "{{ 3-1-self-reference-relative }}");
      ("3-2-self-reference-by-id", selfById);
      ("3-3-self-reference-by-root", selfText "{{ @3-3-self-reference-by-root }}");
      ("1-2-inexistent", "Should just show a blank line." +:+ nl +:+ "{{ inexistent-reference }}") ]
    [ (selfById, ([("id", Mustache.Str "myself")], selfText "{{ #myself }}")) ].

(** ** Texts with one double-brace token *)

Definition notOpeningBrace (c : ascii) : bool := negb (Ascii.eqb c "{").

(** The characters of a path or of a variable name: no white space, no
    brace, no dot. *)
Definition nameChar (c : ascii) : bool :=
  negb (Js.isWhitespace c) && negb (Ascii.eqb c "}") && negb (Ascii.eqb c "{")
  && negb (Ascii.eqb c ".").

Fixpoint textTokens (s : string) : list Mustache.token :=
  match s with
  | EmptyString => []
  | String c s' => Mustache.Text c :: textTokens s'
  end.

Fixpoint textNodes (s : string) : list Mustache.node :=
  match s with
  | EmptyString => []
  | String c s' => Mustache.NText c :: textNodes s'
  end.

(** A matcher is [shortening] when what it leaves is no longer than what
    it was given. *)
Definition shortening (re : string -> option string) : Prop :=
  forall s r, re s = Some r -> String.length r <= String.length s.

(** A tokenizer state in which [stripSpace] removes nothing. *)
Definition keepsSpace (st : Mustache.lexer) : Prop :=
  Mustache.hasTag st = false \/ Mustache.nonSpace st = true.

(** ** Characters of a path *)

(** [[a-zA-Z0-9_\-\/]]: what follows the first character of a selector. *)
Definition pathChar (c : ascii) : bool := Js.isWordDash c || Ascii.eqb c "/".

(** ** Further scenarios *)

(** A node that names itself, its ancestor and a third fragment, and
    what loop filtering leaves of it. *)
Definition loopedNode : @TemplateTreeNode FrontMatter :=
  TreeNode {| path := "c"; frontmatter := None; content := "{{ c }}-{{ r }}-{{ d }}";
              variables := []; references := ["c"; "r"; "d"] |} ["r"] None.

Definition filteredNode : @TemplateTreeNode FrontMatter :=
  TreeNode {| path := "c"; frontmatter := None; content := "--{{ d }}";
              variables := []; references := ["d"] |} ["r"] None.

(** A root that names one fragment three times, once by a root
    selector. *)
Definition twiceDir : World FrontMatter :=
  directory [ ("r", "{{ a }} and {{ a }} and {{ @a }}"); ("a", "A") ] [].

Definition twiceRoot : @TemplateTreeNode FrontMatter :=
  TreeNode {| path := "r"; frontmatter := None;
              content := "{{ a }} and {{ a }} and {{ a }}";
              variables := []; references := ["a"] |} [] None.

(** The root of [overrideDir] with its child attached, and flattened. *)
Definition overrideAttached : @TemplateTreeNode FrontMatter :=
  TreeNode (parsed overrideRoot) [] (Some [overrideChild]).

Definition overrideFlattened : @TemplateTreeNode FrontMatter :=
  TreeNode {| path := "r"; frontmatter := None; content := "xo|3";
              variables := []; references := [] |} [] (Some []).

(** Overrides given by id, after an override by path and an entry whose
    key is no selector. *)
Definition idOverrides : list (string * TemplateVariables) :=
  [ ("p", {[ "x" := Mustache.Str "early" ]});
    ("not a selector", {[ "x" := Mustache.Str "lost" ]}) ]
  ++ [ ("#i", {[ "x" := Mustache.Str "late" ]}) ].


(** A fragment that names a footer by a root selector; the footer has
    characters that HTML escapes. *)
Definition footerDir : World FrontMatter :=
  directory [ ("main", "Terms: {{ @shared/footer }}."); ("shared/footer", "a/b & c") ] [].

(** ** [getTemplateContentLEGACY] *)

Section Legacy.

Context {FM : Type}.
Variable W : World FM.

(** The lookup of [getTemplateContent] as a plain function: its answer,
    and the lines it writes ([findMarkdownFileById] writes its own
    warning). *)
Definition getTemplateContentLEGACY (templateSelector : string)
    (type : TemplateSelectorType) : option string * list Diag :=
  match type with
  | id =>
      let '(found, written) := findMarkdownFileById W (Js.slice 1 templateSelector) in
      match found with
      | Returns (Some foundFile) => (Some foundFile.2, written)
      | _ => (None, written ++ [DoesNotExist templateSelector])
      end
  | _ =>
      let selectorPath :=
        match type with
        | root => Js.slice 1 templateSelector
        | _ => templateSelector
        end in
      match readTemplate W selectorPath with
      | None => (None, [DoesNotExist templateSelector])
      | Some text => (Some text, [])
      end
  end.

End Legacy.

(** ** Plain objects and the order of their properties

    An object that is enumerated ([Object.entries], the spread syntax)
    is given by its own properties in the order of their creation. *)

Module JsObject.

Definition digit (c : ascii) : option N :=
  let n := N_of_ascii c in
  if ((48 <=? n) && (n <=? 57))%N then Some (n - 48)%N else None.

Fixpoint digits (acc : N) (s : string) : option N :=
  match s with
  | EmptyString => Some acc
  | String c s' =>
      match digit c with
      | Some d => digits (acc * 10 + d)%N s'
      | None => None
      end
  end.

(** An array index: the canonical decimal form of an integer below
    [2^32 - 1]. *)
Definition arrayIndex (key : string) : option N :=
  match key with
  | EmptyString => None
  | String "0" EmptyString => Some 0%N
  | String "0" _ => None
  | _ =>
      match digits 0 key with
      | Some n => if (n <? 4294967295)%N then Some n else None
      | None => None
      end
  end.

Section Properties.

Context {V : Type}.

(** [CreateDataProperty(obj, key, value)]: an own property keeps its
    place, a new property comes last. *)
Fixpoint define (key : string) (value : V) (obj : list (string * V)) : list (string * V) :=
  match obj with
  | [] => [(key, value)]
  | (key', value') :: obj' =>
      if String.eqb key key' then (key, value) :: obj'
      else (key', value') :: define key value obj'
  end.

Fixpoint insertIndex (n : N) (entry : string * V) (sorted : list (N * (string * V)))
    : list (N * (string * V)) :=
  match sorted with
  | [] => [(n, entry)]
  | (m, entry') :: sorted' =>
      if (n <? m)%N then (n, entry) :: sorted
      else (m, entry') :: insertIndex n entry sorted'
  end.

(** [Object.entries(obj)]: the array indices in ascending order, then
    the other keys in the order of their creation. *)
Definition entries (obj : list (string * V)) : list (string * V) :=
  map snd
      (fold_left (fun sorted entry =>
                    match arrayIndex entry.1 with
                    | Some n => insertIndex n entry sorted
                    | None => sorted
                    end) obj [])
  ++ List.filter (fun entry => match arrayIndex entry.1 with Some _ => false | None => true end)
                 obj.

(** [Object.fromEntries(entries)] *)
Definition fromEntries (l : list (string * V)) : list (string * V) :=
  fold_left (fun obj entry => define entry.1 entry.2 obj) l [].

(** [{ ...a, ...b }] *)
Definition spread (a b : list (string * V)) : list (string * V) :=
  fold_left (fun obj entry => define entry.1 entry.2 obj) (entries a ++ entries b) [].

End Properties.

End JsObject.

(** ** [Mosaic.provideOverrides] *)

Section Overrides.

Context {FM : Type}.
Variable W : World FM.

(** The array that [normalizeOverridesPaths] hands to
    [Object.fromEntries]: the entries whose key normalizes to a non-empty
    path, under that path, in their order. *)
Definition normalizedEntries (overrides : list (string * TemplateVariables))
    : Eff (list (string * TemplateVariables)) :=
  results ← mapM (fun '(key, value) =>
               normalizedKey ← normalizeToRelativeSelector W key;
               mret (match normalizedKey with
                     | Some (String _ _ as k) => Some (k, value)
                     | _ => None
                     end)) overrides;
  mret (omap (fun entry => entry) results).

(** [decodeTemplateOverrides]: overrides of the declared type, strings
    and numbers under names under selectors, pass the schema; what is
    left is [normalizeOverridesPaths], whose object is given here with
    the order of its properties. *)
Definition decodeTemplateOverrides (overrides : list (string * TemplateVariables))
    : Eff (list (string * TemplateVariables)) :=
  normalized ← normalizedEntries overrides;
  mret (JsObject.fromEntries normalized).

(** [provideOverrides]: the decoded overrides spread over those of the
    instance.  [overrides] lists the argument as [Object.entries]
    enumerates it. *)
Definition provideOverrides (overrides : list (string * TemplateVariables))
    (m : MosaicVariables) : Eff MosaicVariables :=
  decoded ← decodeTemplateOverrides overrides;
  mret {| templateVariables := templateVariables m;
          templateOverrides :=
            JsObject.entries (JsObject.spread (templateOverrides m) decoded) |}.

End Overrides.

(** A fragment whose file name has a space, and one whose name is a
    path; each has an id and shows the variable [x].  Two roots name
    them by their ids. *)
Definition notesText (i : string) : string :=
  "---" +:+ nl +:+ "id: " +:+ i +:+ nl +:+ "---" +:+ nl +:+ "{{ $x }}".

Definition notesDir : World FrontMatter :=
  directory
    [ ("r", "{{ #special }}"); ("s", "{{ #plain }}");
      ("my notes", notesText "special"); ("notes", notesText "plain") ]
    [ (notesText "special", ([("id", Mustache.Str "special")], "{{ $x }}"));
      (notesText "plain", ([("id", Mustache.Str "plain")], "{{ $x }}")) ].

(** [provideVariables({ x: "g" })] and
    [provideOverrides({ "#special": { x: "o" }, "#plain": { x: "o" } })]. *)
Definition notesGlobals : MosaicVariables :=
  provideVariables {[ "x" := Mustache.Str "g" ]} noVariables.

Definition notesOverrides : list (string * TemplateVariables) :=
  [ ("#special", {[ "x" := Mustache.Str "o" ]}); ("#plain", {[ "x" := Mustache.Str "o" ]}) ].

Definition notesSession : MosaicVariables :=
  {| templateVariables := {[ "x" := Mustache.Str "g" ]};
     templateOverrides :=
       [ ("my notes", {[ "x" := Mustache.Str "o" ]}); ("notes", {[ "x" := Mustache.Str "o" ]}) ] |}.

(** ** Bodies of text and double-brace tokens *)














(** Text is appended and characters are compared by computation when the
    arguments are known. *)
#[local] Arguments String.append !_ _ / : simpl nomatch.
#[local] Arguments Ascii.eqb !_ !_ / : simpl nomatch.

(** * Properties *)

(** ** mustache.js on small templates *)

Example mustache_name :
  Mustache.render "Hi {{ $name }}!" {[ "$name" := Mustache.Str "A&B" ]}
  = Mustache.Ok "Hi A&amp;B!".
Proof. vm_compute. reflexivity. Qed.

Example mustache_missing :
  Mustache.render "Hi {{ $name }}{{other}}!" ∅ = Mustache.Ok "Hi !".
Proof. vm_compute. reflexivity. Qed.

Example mustache_unclosed_section :
  Mustache.render "A {{ #nope }} B" {[ "#nope" := Mustache.Str "" ]}
  = Mustache.Throw (Mustache.UnclosedSection "nope").
Proof. vm_compute. reflexivity. Qed.

Example mustache_delimiters :
  Mustache.render "{{ =<% %>= }}{{ b }}<% x %>" {[ "x" := Mustache.Num 42 ]}
  = Mustache.Ok "{{ b }}42".
Proof. vm_compute. reflexivity. Qed.

Example mustache_standalone :
  Mustache.render (" {{! note }} " +:+ String Mustache.newline "x{{#a}}{{.}}{{/a}}{{^b}}n{{/b}}")
                  {[ "a" := Mustache.Str "<v>" ]}
  = Mustache.Ok "x&lt;v&gt;n".
Proof. vm_compute. reflexivity. Qed.


(** ** Selectors and tokens on small inputs *)

Example selectors_classified :
  map isValidTemplateSelector
      ["some-dir/core-instructions"; "@root-block"; "@namespace/path"; "#some-id";
       "#a/b"; "a//b"; "a/"; "/a"; "a b"; ""; "@"; "#"]
  = [Some relative; Some root; Some root; Some id;
     None; None; None; None; None; None; None; None].
Proof. reflexivity. Qed.

Example variables_extracted :
  extractVariables "{{ $name }}{{$description}} {{   $description }} {{ $ x }} {{ other }}"
  = ["name"; "description"; "description"].
Proof. reflexivity. Qed.

Example references_extracted :
  extractReferencesFromContent (directory [] []) "{{ a }} {{ $v }} {{@b/c}} {{  a  }} {{ #x }} {{ a b }}"
    {| currentPath := None; optAncestors := []; removeLoopedReferences := false;
       normalizeInContent := true |}
  = (Returns (["a"; "b/c"; "#x"; "a b"],
              "{{ a }} {{ $v }} {{ b/c }} {{ a }} {{ #x }} {{ a b }}"), []).
Proof. vm_compute. reflexivity. Qed.

Example looped_references_removed :
  extractReferencesFromContent (directory [] []) "x{{ me }}y{{@up}}z{{ other }}"
    {| currentPath := Some "me"; optAncestors := ["up"]; removeLoopedReferences := true;
       normalizeInContent := false |}
  = (Returns (["other"], "xyz{{ other }}"),
     [SelfReferenceInContent "me" "me"; AncestorLoopInContent "me" "up" "@up"]).
Proof. vm_compute. reflexivity. Qed.

(** ** The fuel of the tokenizer *)

Lemma scanUntil_shorter (re : string -> bool) (tail : string) :
  String.length (Mustache.scanUntil re tail).2 <= String.length tail.
Proof.
  induction tail as [|c tail IH]; cbn [Mustache.scanUntil].
  - by destruct (re EmptyString).
  - destruct (re (String c tail)); [done|].
    destruct (Mustache.scanUntil re tail). cbn in *. lia.
Qed.

Lemma slice_shorter (n : nat) (s : string) :
  String.length (Js.slice n s) <= String.length s.
Proof.
  revert s. induction n as [|n IH]; intros [|c s]; cbn; try done.
  specialize (IH s). lia.
Qed.

Lemma Some_shortening : shortening Some.
Proof. by intros s r [= ->]. Qed.

Lemma lit_shortening (p : string) (k : string -> option string) :
  shortening k -> shortening (Re.lit p k).
Proof.
  intros Hk s r. unfold Re.lit. destruct (Js.startsWith p s); [|done].
  intros H%Hk. pose proof (slice_shorter (String.length p) s). lia.
Qed.

Lemma star_shortening (C : ascii -> bool) (k : string -> option string) :
  shortening k -> shortening (Re.star C k).
Proof.
  intros Hk s. induction s as [|c s IH]; intros r; cbn [Re.star].
  - apply Hk.
  - destruct (C c); [|apply Hk].
    destruct (Re.star C k s) as [r'|] eqn:E; [|apply Hk].
    intros [= <-]. specialize (IH _ eq_refl). cbn. lia.
Qed.

Lemma scan_shorter (re : string -> option string) (tail : string) :
  shortening re -> String.length (Mustache.scan re tail) <= String.length tail.
Proof.
  intros Hre. unfold Mustache.scan. destruct (re tail) as [r|] eqn:E; cbn; [|done].
  by apply Hre.
Qed.

Lemma scanType_shorter (tail : string) :
  String.length (Mustache.scanType tail).2 <= String.length tail.
Proof.
  destruct tail as [|c tail]; cbn; [done|]. destruct (Mustache.tagRe c); cbn; lia.
Qed.

Lemma scanValue_shorter (ctag : string) (type : option ascii) (tail : string) :
  String.length (Mustache.scanValue ctag type tail).2 <= String.length tail.
Proof.
  assert (forall re1 re2, shortening re2 ->
            String.length
              (Mustache.scanUntil (Mustache.matches (Mustache.closingTagRe ctag))
                 (Mustache.scan re2 (Mustache.scanUntil re1 tail).2)).2
            <= String.length tail) as Htwo.
  { intros re1 re2 Hre2.
    pose proof (scanUntil_shorter re1 tail).
    pose proof (scan_shorter re2 (Mustache.scanUntil re1 tail).2 Hre2).
    pose proof (scanUntil_shorter (Mustache.matches (Mustache.closingTagRe ctag))
                  (Mustache.scan re2 (Mustache.scanUntil re1 tail).2)).
    lia. }
  unfold Mustache.scanValue.
  destruct type as [c|]; [|apply scanUntil_shorter].
  destruct (Ascii.eqb_spec c "=") as [->|];
    [|destruct (Ascii.eqb_spec c "{") as [->|]].
  - specialize (Htwo (Mustache.matches Mustache.equalsRe) Mustache.equalsRe).
    destruct (Mustache.scanUntil (Mustache.matches Mustache.equalsRe) tail).
    apply Htwo, star_shortening, lit_shortening, Some_shortening.
  - specialize (Htwo (Mustache.matches (Mustache.closingCurlyRe ctag)) Mustache.curlyRe).
    destruct (Mustache.scanUntil (Mustache.matches (Mustache.closingCurlyRe ctag)) tail).
    apply Htwo, star_shortening, lit_shortening, Some_shortening.
  - destruct c as [[] [] [] [] [] [] [] []]; try done; apply scanUntil_shorter.
Qed.

Lemma pushTag_supported (st : Mustache.lexer) (type : option ascii) (value : string) :
  Mustache.pushTag st type value <> Mustache.Unsupported.
Proof.
  unfold Mustache.pushTag.
  destruct (Mustache.mkToken type value); try done.
  - destruct (Mustache.sections st); [done|]. by destruct (String.eqb _ _).
  - by destruct (Mustache.compileTags value) as [[]|].
Qed.

Lemma finish_supported (st : Mustache.lexer) : Mustache.finish st <> Mustache.Unsupported.
Proof. unfold Mustache.finish. by destruct (Mustache.sections _). Qed.

(** The tokenizer never runs out of the fuel [parseTemplate] gives it. *)
Lemma parseLoop_fuel (fuel : nat) (st : Mustache.lexer) (tail : string) :
  String.length tail <= fuel ->
  Mustache.parseLoop fuel st tail <> Mustache.Unsupported.
Proof.
  revert st tail. induction fuel as [|fuel IH]; intros st tail Hlen.
  - destruct tail; [apply finish_supported|cbn in Hlen; lia].
  - destruct tail as [|c tail]; [apply finish_supported|].
    cbn [Mustache.parseLoop].
    pose proof (scanUntil_shorter (Mustache.matches (Mustache.openingTagRe (Mustache.otag st)))
                  (String c tail)) as H1.
    destruct (Mustache.scanUntil _ (String c tail)) as [value tail1]. cbn [snd] in H1.
    destruct (Mustache.openingTagRe (Mustache.otag st) tail1) as [tail2|] eqn:E2;
      [|apply finish_supported].
    apply (lit_shortening _ _ (star_shortening _ _ Some_shortening)) in E2.
    destruct (Nat.eqb_spec (String.length tail1) (String.length tail2));
      [apply finish_supported|].
    pose proof (scanType_shorter tail2) as H3.
    destruct (Mustache.scanType tail2) as [type tail3]. cbn [snd] in H3.
    pose proof (scan_shorter Mustache.whiteRe tail3 (star_shortening _ _ Some_shortening)) as H4.
    pose proof (scanValue_shorter (Mustache.ctag (Mustache.pushText st value)) type
                  (Mustache.scan Mustache.whiteRe tail3)) as H5.
    destruct (Mustache.scanValue _ type _) as [value' tail5]. cbn [snd] in H5.
    destruct (Mustache.closingTagRe _ tail5) as [tail6|] eqn:E6; [|done].
    apply (star_shortening _ _ (lit_shortening _ _ Some_shortening)) in E6.
    destruct (Nat.eqb_spec (String.length tail5) (String.length tail6)); [done|].
    pose proof (pushTag_supported (Mustache.pushText st value) type value') as Hpush.
    destruct (Mustache.pushTag _ type value') as [st2| |]; cbn; [|done|done].
    apply IH. cbn [String.length] in *. lia.
Qed.

Lemma parseTemplate_fuel (template : string) :
  Mustache.parseTemplate template <> Mustache.Unsupported.
Proof. by apply parseLoop_fuel. Qed.

(** ** The monad *)

Lemma bind_Returns {A B} (m : Eff A) (f : A -> Eff B) (b : B) (log : list Diag) :
  m ≫= f = (Returns b, log) ->
  exists a l1 l2, m = (Returns a, l1) /\ f a = (Returns b, l2) /\ log = l1 ++ l2.
Proof.
  destruct m as [[a| | |] l1]; cbn; try discriminate.
  destruct (f a) as [o l2] eqn:E. intros [= -> <-].
  exists a, l1, l2. by rewrite E.
Qed.

Lemma bind_ret_l {A B} (a : A) (f : A -> Eff B) : (Returns a, []) ≫= f = f a.
Proof. cbn. by destruct (f a). Qed.

Lemma bind_assoc {A B C} (m : Eff A) (f : A -> Eff B) (g : B -> Eff C) :
  (m ≫= f) ≫= g = m ≫= (fun a => f a ≫= g).
Proof.
  destruct m as [[a| | |] l1]; cbn; try done.
  destruct (f a) as [[b| | |] l2]; cbn; try done.
  destruct (g b) as [o l3]. by rewrite app_assoc.
Qed.

Lemma ret_Returns {A} (a b : A) (log : list Diag) :
  (mret a : Eff A) = (Returns b, log) -> a = b /\ log = [].
Proof. by intros [= -> <-]. Qed.

Lemma warn_bind_Returns {B} (d : Diag) (m : Eff B) (b : B) (log : list Diag) :
  (warn d;; m) = (Returns b, log) -> exists l, m = (Returns b, l) /\ log = d :: l.
Proof.
  cbn. destruct m as [o l]. intros [= -> <-]. by exists l.
Qed.

Lemma mapM_Returns {A B} (f : A -> Eff B) (l : list A) (bs : list B) (log : list Diag) :
  mapM f l = (Returns bs, log) ->
  Forall2 (fun a b => exists lg, f a = (Returns b, lg)) l bs.
Proof.
  revert bs log. induction l as [|a l IH]; intros bs log; cbn [mapM].
  - intros [<- _]%ret_Returns. constructor.
  - intros (b & l1 & l2 & Hb & H & _)%bind_Returns.
    apply bind_Returns in H as (k & l3 & l4 & Hk & [<- _]%ret_Returns & _).
    constructor; eauto.
Qed.

(** ** Node construction *)

Section EngineFacts.

Context {FM : Type}.
Variable W : World FM.
Variable session : MosaicVariables.
Variable render : string -> TemplateVariables -> Mustache.result string.

Lemma parseMarkdown_absent (templateSelector : string) :
  readTemplate W templateSelector = None ->
  parseMarkdown W templateSelector
  = (Returns (emptyTemplate templateSelector), [DoesNotExist templateSelector]).
Proof.
  intros Habsent. unfold parseMarkdown, getContentRelative, getTemplateContent.
  cbn. by rewrite Habsent.
Qed.

Lemma getNodeFromSelector_absent (templateSelector : string) (anc : list string) :
  readTemplate W templateSelector = None ->
  getNodeFromSelector W templateSelector anc
  = (Returns (TreeNode (emptyTemplate templateSelector) anc None),
     [DoesNotExist templateSelector]).
Proof.
  intros Habsent. unfold getNodeFromSelector.
  rewrite (parseMarkdown_absent _ Habsent). reflexivity.
Qed.

Lemma parseMarkdown_path (templateSelector : string) p log :
  parseMarkdown W templateSelector = (Returns p, log) -> path p = templateSelector.
Proof.
  unfold parseMarkdown.
  intros (raw & l1 & l2 & _ & H & _)%bind_Returns.
  destruct raw as [text|].
  - destruct (parseFrontmatter W text) as [fm body].
    apply bind_Returns in H as ([refs newContent] & l3 & l4 & _ & H & _).
    by apply ret_Returns in H as [<- _].
  - by apply ret_Returns in H as [<- _].
Qed.

(** ** Loop filtering *)

Lemma includes_true (l : list string) (x : string) : (Js.includes l x = true) <-> (x ∈ l).
Proof. unfold Js.includes. apply bool_decide_eq_true. Qed.

Lemma includes_false (l : list string) (x : string) : (Js.includes l x = false) <-> (x ∉ l).
Proof. unfold Js.includes. apply bool_decide_eq_false. Qed.

Lemma dedupe_subset (seen l : list string) (x : string) : x ∈ Js.dedupe seen l -> x ∈ l.
Proof.
  revert seen. induction l as [|y l IH]; intros seen; cbn; [done|].
  destruct (Js.includes seen y).
  - intros H%IH. by right.
  - intros [->|H%IH]%elem_of_cons; [left|by right].
Qed.

Lemma filter_includes (anc l : list string) (r : string) :
  r ∈ l -> r ∈ anc -> In r (List.filter (fun ref => Js.includes anc ref) l).
Proof.
  intros Hl Hanc. apply filter_In. split.
  - by apply (proj1 (list_elem_of_In _ _)).
  - by apply includes_true.
Qed.

Lemma removeReferenceFromNode_references (n : @TemplateTreeNode FM) (toRemove : list string) (r : string) :
  (r ∈ references (removeReferenceFromNode n toRemove))
  <-> (r ∈ references n /\ r ∉ toRemove).
Proof.
  cbn. rewrite list_elem_of_In, filter_In, <- list_elem_of_In.
  by rewrite negb_true_iff, includes_false.
Qed.

(** What [filterLoopedReferences] leaves of a node. *)
Lemma filterLoopedReferences_spec (n n' : @TemplateTreeNode FM) (log : list Diag) :
  filterLoopedReferences n = (Returns n', log) ->
  path n' = path n /\ ancestors n' = ancestors n
  /\ (path n ∉ references n')
  /\ (forall r, r ∈ references n' -> r ∉ ancestors n)
  /\ (forall r, r ∈ references n' -> r ∈ references n).
Proof.
  unfold filterLoopedReferences.
  intros (m & l1 & l2 & Hself & Hloops & _)%bind_Returns.
  assert (path m = path n /\ ancestors m = ancestors n
          /\ (path n ∉ references m)
          /\ (forall r, r ∈ references m -> r ∈ references n)) as (Hp & Ha & Hs & Hsub).
  { unfold removeSelfReference in Hself.
    destruct (Js.includes (references n) (path n)) eqn:E.
    - apply warn_bind_Returns in Hself as (l & [<- _]%ret_Returns & _).
      repeat split; try done.
      + rewrite removeReferenceFromNode_references. intros [_ []]. by left.
      + by intros r [? _]%removeReferenceFromNode_references.
    - apply ret_Returns in Hself as [<- _]. by apply includes_false in E. }
  unfold removeAncestorLoops in Hloops.
  destruct (List.filter _ (references m)) as [|x looped] eqn:E.
  - apply ret_Returns in Hloops as [<- _]. repeat split; try done.
    intros r Hr Hanc.
    pose proof (filter_includes _ _ _ Hr Hanc) as Hin. by rewrite E in Hin.
  - apply warn_bind_Returns in Hloops as (l & [<- _]%ret_Returns & _).
    rewrite <- E. repeat split; try done.
    + by intros [? _]%removeReferenceFromNode_references.
    + intros r [Hr Hnot]%removeReferenceFromNode_references Hanc.
      by apply Hnot, list_elem_of_In, filter_includes.
    + intros r [Hr _]%removeReferenceFromNode_references. by apply Hsub.
Qed.

Lemma getNodeFromSelector_spec (rootSelector : string) (anc : list string)
    (n : @TemplateTreeNode FM) (log : list Diag) :
  getNodeFromSelector W rootSelector anc = (Returns n, log) ->
  path n = rootSelector /\ ancestors n = anc
  /\ (rootSelector ∉ references n)
  /\ (forall r, r ∈ references n -> r ∉ anc).
Proof.
  unfold getNodeFromSelector.
  intros (p & l1 & l2 & Hp%parseMarkdown_path & Hf & _)%bind_Returns.
  apply filterLoopedReferences_spec in Hf as (H1 & H2 & H3 & H4 & _).
  cbn in *. rewrite Hp in *. done.
Qed.

(** The references kept by the scan of [extractReferencesFromContent] when
    loops are checked against a path. *)
Lemma collectReferences_kept (options : ExtractOptions) (p : string)
    (found : list (nat * nat * string)) (acc acc' : Extracted) (log : list Diag) :
  loopCheck options = Some p ->
  collectReferences W options found acc = (Returns acc', log) ->
  (forall r, r ∈ normalizedReferences acc -> r <> p /\ r ∉ optAncestors options) ->
  forall r, r ∈ normalizedReferences acc' -> r <> p /\ r ∉ optAncestors options.
Proof.
  intros Hcheck. revert acc log.
  induction found as [|[[start stop] group] found IH]; intros acc log; cbn [collectReferences].
  - by intros [<- _]%ret_Returns.
  - destruct (isVariableReference (Js.trim group)); [by apply IH|].
    intros (normalized & l1 & l2 & _ & H & _)%bind_Returns. rewrite Hcheck in H.
    destruct (String.eqb _ p) eqn:Eself.
    { apply warn_bind_Returns in H as (l & H & _).
      intros Hacc. eapply IH; [exact H|exact Hacc]. }
    destruct (Js.includes _ _) eqn:Eanc.
    { apply warn_bind_Returns in H as (l & H & _).
      intros Hacc. eapply IH; [exact H|exact Hacc]. }
    intros Hacc. eapply IH; [exact H|]. cbn.
    intros r [Hr| ->%list_elem_of_singleton]%elem_of_app; [by apply Hacc|].
    split; [by apply String.eqb_neq | by apply includes_false].
Qed.

Lemma extractReferences_loopFree (text : string) (options : ExtractOptions) (p : string)
    (refs : list string) (newContent : string) (log : list Diag) :
  loopCheck options = Some p ->
  extractReferencesFromContent W text options = (Returns (refs, newContent), log) ->
  forall r, r ∈ refs -> r <> p /\ r ∉ optAncestors options.
Proof.
  intros Hcheck. unfold extractReferencesFromContent.
  intros (acc & l1 & l2 & Hacc & [[= <- _] _]%ret_Returns & _)%bind_Returns.
  intros r Hr%dedupe_subset.
  eapply collectReferences_kept; [done..| |done].
  cbn. by intros ? ?%elem_of_nil.
Qed.

(** ** The nodes of a composition *)

Lemma valid_selector_nonempty (templateSelector : string) (t : TemplateSelectorType) :
  isValidTemplateSelector templateSelector = Some t -> templateSelector <> EmptyString.
Proof. by intros H ->. Qed.

Lemma attachChildren_spec (n n' : @TemplateTreeNode FM) (log : list Diag) :
  attachChildren W session render n = (Returns n', log) ->
  parsed n' = parsed n /\ ancestors n' = ancestors n.
Proof.
  unfold attachChildren.
  intros (kids & l1 & l2 & _ & [<- _]%ret_Returns & _)%bind_Returns. done.
Qed.

Lemma flatten_spec (n n' : @TemplateTreeNode FM) (log : list Diag) :
  path n <> EmptyString ->
  flattenChildrenAndExpandContent W render n = (Returns n', log) ->
  n' = n
  \/ (path n' = path n /\ ancestors n' = ancestors n
      /\ forall r, r ∈ references n' -> r <> path n /\ r ∉ ancestors n).
Proof.
  intros Hpath. unfold flattenChildrenAndExpandContent.
  destruct (default [] (children n)) as [|kid kids].
  - intros [<- _]%ret_Returns. by left.
  - intros (expanded & l1 & l2 & _ & H & _)%bind_Returns.
    apply bind_Returns in H as ([refs final] & l3 & l4 & Hrefs & [<- _]%ret_Returns & _).
    right. repeat split; intros; cbn in *;
      eapply (extractReferences_loopFree _ _ (path n)) in Hrefs; try done;
      try (by apply Hrefs).
    all: cbv [loopCheck removeLoopedReferences currentPath]; by destruct (path n).
Qed.

(** The children attached to a node are the nodes built for its
    references, in order. *)
Lemma attachChildren_children (n n' : @TemplateTreeNode FM) (log : list Diag) :
  attachChildren W session render n = (Returns n', log) ->
  exists kids, children n' = Some kids
    /\ Forall2 (fun ref kid => exists lg, expandChild W session render n ref = (Returns kid, lg))
               (references n) kids.
Proof.
  unfold attachChildren.
  intros (kids & l1 & l2 & Hkids%mapM_Returns & [<- _]%ret_Returns & _)%bind_Returns.
  by exists kids.
Qed.

Lemma expandChild_spec (parent child : @TemplateTreeNode FM) (ref : string) (log : list Diag) :
  expandChild W session render parent ref = (Returns child, log) ->
  path child = ref /\ ancestors child = ancestors parent ++ [path parent]
  /\ (ref ∉ references child)
  /\ (forall r, r ∈ references child -> r ∉ ancestors parent ++ [path parent]).
Proof.
  unfold expandChild.
  intros (c & l1 & l2 & Hc%getNodeFromSelector_spec & H & _)%bind_Returns.
  apply bind_Returns in H as (vars & l3 & l4 & _ & H & _).
  apply bind_Returns in H as (text & l5 & l6 & _ & [<- _]%ret_Returns & _).
  exact Hc.
Qed.

Lemma RootLine_loopFree (rootSelector : string) (t : TemplateSelectorType) (n : @TemplateTreeNode FM) :
  isValidTemplateSelector rootSelector = Some t ->
  RootLine W session render rootSelector n ->
  path n = rootSelector /\ ancestors n = [] /\ loopFree n.
Proof.
  intros Hvalid%valid_selector_nonempty. induction 1 as [n log H|n n' log _ IH H|n n' log _ IH H].
  - apply getNodeFromSelector_spec in H as (Hp & Ha & Hs & Hr).
    unfold loopFree. rewrite Hp, Ha. repeat split; try done.
    apply not_elem_of_nil.
  - apply attachChildren_spec in H as [Hp Ha].
    unfold loopFree in *. by rewrite Hp, Ha.
  - destruct IH as (Hp & Ha & Hfree).
    apply flatten_spec in H; [|by rewrite Hp].
    destruct H as [->|(Hp' & Ha' & Hr)]; [done|].
    split; [congruence|]. split; [congruence|].
    unfold loopFree. rewrite Hp', Ha', Hp, Ha.
    split; [apply not_elem_of_nil|]. split; [intros r _; apply not_elem_of_nil|].
    intros Hin. apply Hr in Hin as [Hne _]. by rewrite Hp in Hne.
Qed.

(** C8. Every node produced by node construction and by the rounds of
    expansion and flattening of [compose rootSelector] satisfies, after
    loop filtering: its path is not among its ancestors, none of its
    references is among its ancestors, and its path is not among its
    references. *)
Theorem produced_nodes_loop_free (rootSelector : string) (t : TemplateSelectorType)
    (n : @TemplateTreeNode FM) :
  isValidTemplateSelector rootSelector = Some t ->
  Produced W session render rootSelector n ->
  (path n ∉ ancestors n)
  /\ (forall r, r ∈ references n -> r ∉ ancestors n)
  /\ (path n ∉ references n).
Proof.
  intros Hvalid [Hroot|(parent & ref & log & Hparent & Hin & Hchild)].
  - by eapply RootLine_loopFree.
  - eapply RootLine_loopFree in Hparent as (_ & _ & _ & Hanc & Hself); [|done].
    apply expandChild_spec in Hchild as (-> & -> & Hs & Hr).
    split; [|done].
    intros [H| ->%list_elem_of_singleton]%elem_of_app; [by eapply Hanc|done].
Qed.

(** ** An absent root *)

(** C10. For every syntactically valid root selector for which the lookup
    of the content, [getContentRelative], answers null, [compose] returns
    the empty string: the root degrades to the empty fragment (no front
    matter, empty body, no variables, no references), one diagnostic is
    written, nothing is thrown. *)
Theorem compose_absent_root (templateSelector : string) (t : TemplateSelectorType)
    (fuel : nat) :
  isValidTemplateSelector templateSelector = Some t ->
  fst (getContentRelative W templateSelector) = Returns None ->
  buildTemplateTree W session render fuel templateSelector
  = (Returns (TreeNode (emptyTemplate templateSelector) [] None),
     [DoesNotExist templateSelector])
  /\ compose W session render fuel templateSelector
     = (Returns EmptyString, [DoesNotExist templateSelector]).
Proof.
  intros Hvalid Hnull.
  assert (readTemplate W templateSelector = None) as Habsent.
  { unfold getContentRelative, getTemplateContent in Hnull.
    by destruct (readTemplate W templateSelector). }
  assert (buildTemplateTree W session render fuel templateSelector
          = (Returns (TreeNode (emptyTemplate templateSelector) [] None),
             [DoesNotExist templateSelector])) as Hbuild.
  { unfold buildTemplateTree. rewrite (getNodeFromSelector_absent _ _ Habsent).
    by destruct fuel. }
  split; [done|]. unfold compose. by rewrite Hvalid, Hbuild.
Qed.

(** ** The variables of a child *)

Lemma normalizeToRelativeSelector_relative (k : string) :
  relativePath k = true -> normalizeToRelativeSelector W k = mret (Some k).
Proof.
  intros Hk. unfold normalizeToRelativeSelector, isValidTemplateSelector.
  by rewrite Hk.
Qed.

Lemma relativePath_nonempty (k : string) : relativePath k = true -> k <> EmptyString.
Proof. by intros H ->. Qed.

(** On keys that are canonical paths already, [normalizeOverridesPaths]
    only turns the entries into an object. *)
Lemma normalizeOverridesPaths_canonical (overrides : list (string * TemplateVariables)) :
  Forall (fun entry => relativePath entry.1 = true) overrides ->
  normalizeOverridesPaths W overrides = (Returns (fromEntries overrides), []).
Proof.
  intros Hcanonical. unfold normalizeOverridesPaths.
  assert (mapM (fun '(key, value) =>
                  normalizedKey ← normalizeToRelativeSelector W key;
                  mret (match normalizedKey with
                        | Some (String _ _ as k) => Some (k, value)
                        | _ => None
                        end)) overrides
          = (Returns (map Some overrides), [])) as ->.
  { induction Hcanonical as [|[key value] l Hkey _ IH]; [done|].
    cbn [mapM]. rewrite IH. cbn in Hkey.
    rewrite (normalizeToRelativeSelector_relative _ Hkey).
    apply relativePath_nonempty in Hkey. by destruct key. }
  assert (forall l : list (string * TemplateVariables),
            omap (fun entry => entry) (map Some l) = l) as Homap.
  { induction l as [|e l IH]; [done|]. cbn. by rewrite IH. }
  cbn. by rewrite Homap.
Qed.

(** X29. For every child node expanded during composition, the context
    with which its body is rendered is the global variables merged with
    the entry, for the path of the child, of the map that
    [normalizeOverridesPaths] computes at that moment from the overrides
    of the session: on a key present in both the value of the override
    wins, and every key of the context starts with the sigil [$].  When
    the keys of the overrides of the session are valid relative
    selectors, the computed map is that of the session. *)
Theorem child_substitution_context (parent child : @TemplateTreeNode FM) (ref : string)
    (log : list Diag) :
  expandChild W session render parent ref = (Returns child, log) ->
  exists (childNode : @TemplateTreeNode FM) (normalizedOverrides : gmap string TemplateVariables)
         (context : TemplateVariables) (l1 l2 : list Diag),
    getNodeFromSelector W ref (ancestors parent ++ [path parent]) = (Returns childNode, l1)
    /\ path childNode = ref
    /\ normalizeOverridesPaths W (templateOverrides session)
       = (Returns normalizedOverrides, l2)
    /\ render (content childNode) context = Mustache.Ok (content child)
    /\ (forall key,
          context !! String "$" key
          = match default ∅ (normalizedOverrides !! ref) !! key with
            | Some overriding => Some overriding
            | None => templateVariables session !! key
            end)
    /\ (forall key' value, context !! key' = Some value ->
          exists key, key' = String "$" key)
    /\ (Forall (fun entry => relativePath entry.1 = true) (templateOverrides session) ->
        normalizedOverrides = fromEntries (templateOverrides session)).
Proof.
  unfold expandChild.
  intros (childNode & l1 & l2 & Hnode & H & _)%bind_Returns.
  apply bind_Returns in H as (context & l3 & l4 & Hcontext & H & _).
  apply bind_Returns in H as (text & l5 & l6 & Hrender & [<- _]%ret_Returns & _).
  unfold extractTemplateVariables in Hcontext.
  apply bind_Returns in Hcontext as (normalized & l7 & l8 & Hnorm & [<- _]%ret_Returns & _).
  pose proof (getNodeFromSelector_spec _ _ _ _ Hnode) as (Hpath & _).
  exists childNode, normalized, (kmap (String "$")
    (default ∅ (normalized !! path childNode) ∪ templateVariables session)), l1, l7.
  split; [done|]. split; [done|]. split; [done|]. split.
  { cbn. unfold sync in Hrender. destruct (render _ _); try done.
    by apply ret_Returns in Hrender as [-> _]. }
  split; [|split].
  - intros key. rewrite lookup_kmap by apply _. rewrite lookup_union, Hpath.
    by destruct (default ∅ (normalized !! ref) !! key),
                (templateVariables session !! key).
  - intros key' value Hkey. apply lookup_kmap_Some in Hkey as (key & -> & _); [|apply _].
    by exists key.
  - intros Hcanonical. rewrite (normalizeOverridesPaths_canonical _ Hcanonical) in Hnorm.
    by injection Hnorm.
Qed.

End EngineFacts.

(** ** Fuel *)

Section Fuel.

Context {FM : Type}.
Variable W : World FM.
Variable session : MosaicVariables.
Variable render : string -> TemplateVariables -> Mustache.result string.

Lemma expandAndFlatten_done (fuel : nat) (n : @TemplateTreeNode FM) :
  references n = [] ->
  expandAndFlattenRecursively W session render fuel n = (Returns n, []).
Proof. intros H. destruct fuel; cbn; by rewrite H. Qed.

Lemma expandAndFlatten_step (fuel : nat) (n : @TemplateTreeNode FM) :
  references n <> [] ->
  expandAndFlattenRecursively W session render (S fuel) n
  = (attachChildren W session render n ≫= flattenChildrenAndExpandContent W render)
    ≫= expandAndFlattenRecursively W session render fuel.
Proof.
  intros Hrefs. rewrite bind_assoc. cbn [expandAndFlattenRecursively].
  by destruct (references n).
Qed.

(** More fuel does not change an outcome other than [OutOfFuel]. *)
Lemma expandAndFlatten_more_fuel (fuel extra : nat) (n : @TemplateTreeNode FM)
    (o : outcome TemplateTreeNode) (log : list Diag) :
  expandAndFlattenRecursively W session render fuel n = (o, log) ->
  o <> OutOfFuel ->
  expandAndFlattenRecursively W session render (fuel + extra) n = (o, log).
Proof.
  revert n o log. induction fuel as [|fuel IH]; intros n o log.
  - destruct (references n) as [|r refs] eqn:E.
    + rewrite !expandAndFlatten_done by done. done.
    + cbn. rewrite E. by intros [= <- _].
  - destruct (references n) as [|r refs] eqn:E.
    + rewrite !expandAndFlatten_done by done. done.
    + change (S fuel + extra) with (S (fuel + extra)).
      rewrite !expandAndFlatten_step by by rewrite E.
      destruct (attachChildren W session render n
                ≫= flattenChildrenAndExpandContent W render) as [[n'| | |] l1];
        cbn; try done.
      destruct (expandAndFlattenRecursively W session render fuel n') as [o' l2] eqn:E'.
      intros [= <- <-] Ho. by rewrite (IH _ _ _ E' Ho).
Qed.

Lemma compose_more_fuel (fuel extra : nat) (templateSelector : string)
    (o : outcome string) (log : list Diag) :
  compose W session render fuel templateSelector = (o, log) ->
  o <> OutOfFuel ->
  compose W session render (fuel + extra) templateSelector = (o, log).
Proof.
  unfold compose, buildTemplateTree.
  destruct (isValidTemplateSelector templateSelector); [|done].
  destruct (getNodeFromSelector W templateSelector []) as [[n| | |] l1]; cbn; try done.
  destruct (expandAndFlattenRecursively W session render fuel n) as [o' l2] eqn:E.
  intros H Ho.
  assert (o' <> OutOfFuel) as Ho' by (destruct o'; cbn in H; congruence).
  by rewrite (expandAndFlatten_more_fuel _ extra _ _ _ E Ho').
Qed.

End Fuel.

(** [compose] with one round of fuel decides it for every larger fuel. *)
Lemma mosaicCompose_from_one {FM} (W : World FM) (session : MosaicVariables)
    (fuel : nat) (templateSelector : string) (o : outcome string) (log : list Diag) :
  mosaicCompose W session 1 templateSelector = (o, log) ->
  o <> OutOfFuel ->
  mosaicCompose W session (S fuel) templateSelector = (o, log).
Proof. intros H Ho. by apply (compose_more_fuel _ _ _ 1 fuel). Qed.

Lemma mosaicCompose_from_zero {FM} (W : World FM) (session : MosaicVariables)
    (fuel : nat) (templateSelector : string) (o : outcome string) (log : list Diag) :
  mosaicCompose W session 0 templateSelector = (o, log) ->
  o <> OutOfFuel ->
  mosaicCompose W session fuel templateSelector = (o, log).
Proof. intros H Ho. by apply (compose_more_fuel _ _ _ 0 fuel). Qed.

(** ** The scenarios of the tests that need no variable *)

Example self_reference_relative (fuel : nat) :
  mosaicCompose testDir noVariables fuel "3-1-self-reference-relative"
  = (Returns (selfText ""), [SelfReferenceInReferences "3-1-self-reference-relative"]).
Proof. apply mosaicCompose_from_zero; [vm_compute; reflexivity|discriminate]. Qed.

Example self_reference_by_id (fuel : nat) :
  mosaicCompose testDir noVariables fuel "3-2-self-reference-by-id"
  = (Returns (selfText ""), [SelfReferenceInReferences "3-2-self-reference-by-id"]).
Proof. apply mosaicCompose_from_zero; [vm_compute; reflexivity|discriminate]. Qed.

Example self_reference_by_root (fuel : nat) :
  mosaicCompose testDir noVariables fuel "3-3-self-reference-by-root"
  = (Returns (selfText ""), [SelfReferenceInReferences "3-3-self-reference-by-root"]).
Proof. apply mosaicCompose_from_zero; [vm_compute; reflexivity|discriminate]. Qed.

Example inexistent_reference (fuel : nat) :
  mosaicCompose testDir noVariables (S fuel) "1-2-inexistent"
  = (Returns ("Should just show a blank line." +:+ nl),
     [DoesNotExist "inexistent-reference"]).
Proof. apply mosaicCompose_from_one; [vm_compute; reflexivity|discriminate]. Qed.

(** ** Where the code departs from its specification *)

(** C1 (the code departs from it).  In the chain [root -> a -> b] the
    reference of [a] to [b] never reaches the body of the root: the body
    of [a] is rendered with its variables only, which erases the token,
    and the composition ends after one round without the body of [b].
    Where the rendered body of the child does still show the token of a
    grandchild [d/gc], the token is HTML-escaped on its way into the
    root, the escaped text names no fragment, and the body of the
    grandchild does not appear either. *)
Theorem compose_chain_stops_at_child (fuel : nat) :
  mosaicCompose chainDir noVariables (S fuel) "root" = (Returns "A", [])
  /\ mosaicCompose chainDir noVariables (S fuel) "root" <> (Returns "AB", [])
  /\ expandChild survivorDir noVariables Mustache.render survivorRoot "a"
     = (Returns survivorChild, [])
  /\ mosaicCompose survivorDir noVariables (S (S fuel)) "r"
     = (Returns "", [DoesNotExist "d&#x2F;gc"]).
Proof.
  assert (mosaicCompose chainDir noVariables (S fuel) "root" = (Returns "A", [])) as ->.
  { apply mosaicCompose_from_one; [vm_compute; reflexivity|discriminate]. }
  split; [reflexivity|]. split; [discriminate|]. split; [vm_compute; reflexivity|].
  apply (compose_more_fuel _ _ _ 2 fuel); [vm_compute; reflexivity|discriminate].
Qed.

(** C2 (the code departs from it).  With [name = World], the root
    ["Hi {{ $name }}\n{{ other }}"] and the sibling ["nested"], [compose]
    returns ["Hi \nnested"]: the variable of the root is rendered against
    the bodies of the children only.  A root without references keeps its
    variable token as literal text. *)
Theorem compose_root_variables_not_substituted (fuel : nat) :
  mosaicCompose greetingDir greetingSession (S fuel) "root"
  = (Returns ("Hi " +:+ nl +:+ "nested"), [])
  /\ mosaicCompose greetingDir greetingSession (S fuel) "root"
     <> (Returns ("Hi World" +:+ nl +:+ "nested"), [])
  /\ mosaicCompose greetingDir greetingSession fuel "plain"
     = (Returns "Hi {{ $name }}", []).
Proof.
  assert (mosaicCompose greetingDir greetingSession (S fuel) "root"
          = (Returns ("Hi " +:+ nl +:+ "nested"), [])) as ->.
  { apply mosaicCompose_from_one; [vm_compute; reflexivity|discriminate]. }
  split; [reflexivity|]. split; [discriminate|].
  apply mosaicCompose_from_zero; [vm_compute; reflexivity|discriminate].
Qed.

(** *** Rounds that come back *)

Lemma delimiter_round_a :
  attachChildren delimiterDir noVariables Mustache.render (delimiterNode "a")
  ≫= flattenChildrenAndExpandContent delimiterDir Mustache.render
  = (Returns (delimiterNode "b"), []).
Proof. vm_compute. reflexivity. Qed.

Lemma delimiter_round_b :
  attachChildren delimiterDir noVariables Mustache.render (delimiterNode "b")
  ≫= flattenChildrenAndExpandContent delimiterDir Mustache.render
  = (Returns (delimiterNode "a"), []).
Proof. vm_compute. reflexivity. Qed.

Lemma delimiter_rounds (fuel : nat) :
  expandAndFlattenRecursively delimiterDir noVariables Mustache.render fuel
    (delimiterNode "a") = (OutOfFuel, [])
  /\ expandAndFlattenRecursively delimiterDir noVariables Mustache.render fuel
       (delimiterNode "b") = (OutOfFuel, []).
Proof.
  induction fuel as [|fuel [IHa IHb]]; [done|]. split.
  - rewrite expandAndFlatten_step by done. by rewrite delimiter_round_a, bind_ret_l.
  - rewrite expandAndFlatten_step by done. by rewrite delimiter_round_b, bind_ret_l.
Qed.

Lemma echo_round :
  attachChildren echoDir echoSession Mustache.render echoNode
  ≫= flattenChildrenAndExpandContent echoDir Mustache.render
  = (Returns echoNode, []).
Proof. vm_compute. reflexivity. Qed.

Lemma echo_rounds (fuel : nat) :
  expandAndFlattenRecursively echoDir echoSession Mustache.render fuel echoNode
  = (OutOfFuel, []).
Proof.
  induction fuel as [|fuel IH]; [done|].
  rewrite expandAndFlatten_step by done. by rewrite echo_round, bind_ret_l.
Qed.

(** C3 (the code departs from it).  [compose] does not terminate on
    every input: when the rendered body of a child still shows a
    reference token (two fragments that switch the mustache delimiters
    and name each other; a variable whose value is a token), every round
    puts a reference back into the root, whose ancestor chain is empty,
    and the loop never reaches an empty list of references: whatever the
    fuel, it runs out. *)
Theorem compose_runs_forever (fuel : nat) :
  mosaicCompose delimiterDir noVariables fuel "r" = (OutOfFuel, [])
  /\ mosaicCompose echoDir echoSession fuel "r" = (OutOfFuel, []).
Proof.
  split.
  - unfold mosaicCompose, compose, buildTemplateTree.
    change (isValidTemplateSelector "r") with (Some relative). cbv iota.
    assert (getNodeFromSelector delimiterDir "r" []
            = (Returns (TreeNode (parsed (delimiterNode "a")) [] None), [])) as ->
        by (vm_compute; reflexivity).
    rewrite bind_ret_l. destruct fuel as [|fuel]; [done|].
    rewrite expandAndFlatten_step by done.
    assert (attachChildren delimiterDir noVariables Mustache.render
              (TreeNode (parsed (delimiterNode "a")) [] None)
            ≫= flattenChildrenAndExpandContent delimiterDir Mustache.render
            = (Returns (delimiterNode "b"), [])) as -> by (vm_compute; reflexivity).
    rewrite bind_ret_l. by destruct (delimiter_rounds fuel) as [_ ->].
  - unfold mosaicCompose, compose, buildTemplateTree.
    change (isValidTemplateSelector "r") with (Some relative). cbv iota.
    assert (getNodeFromSelector echoDir "r" []
            = (Returns (TreeNode (parsed echoNode) [] None), [])) as ->
        by (vm_compute; reflexivity).
    rewrite bind_ret_l. destruct fuel as [|fuel]; [done|].
    rewrite expandAndFlatten_step by done.
    assert (attachChildren echoDir echoSession Mustache.render
              (TreeNode (parsed echoNode) [] None)
            ≫= flattenChildrenAndExpandContent echoDir Mustache.render
            = (Returns echoNode, [])) as -> by (vm_compute; reflexivity).
    rewrite bind_ret_l. by rewrite echo_rounds.
Qed.

(** C4 (the code departs from it).  A relative reference is kept as it
    is written and read under the root of the template directory: in
    [company/policies/main] the reference [shared/footer] becomes the
    path [shared/footer], not [company/policies/shared/footer], and the
    footer under the root is what [compose] inserts. *)
Theorem relative_reference_resolved_from_root (fuel : nat) :
  getNodeFromSelector policiesDir "company/policies/main" []
  = (Returns (TreeNode {| path := "company/policies/main"; frontmatter := None;
                          content := "{{ shared/footer }}"; variables := [];
                          references := ["shared/footer"] |} [] None), [])
  /\ mosaicCompose policiesDir noVariables (S fuel) "company/policies/main"
     = (Returns "ROOT", []).
Proof.
  split; [vm_compute; reflexivity|].
  apply mosaicCompose_from_one; [vm_compute; reflexivity|discriminate].
Qed.

(** C5 (the code departs from it).  The root selector is read with the
    type [relative] whatever its form: with one fragment at [p] whose id
    is [i], [compose "@p"] and [compose "#i"] look for the files [@p.md]
    and [#i.md], find none and return the empty string, while
    [compose "p"] returns the body of the fragment. *)
Theorem root_and_id_selectors_not_normalized (fuel : nat) :
  mosaicCompose singleDir noVariables fuel "p" = (Returns "hello", [])
  /\ mosaicCompose singleDir noVariables fuel "@p" = (Returns "", [DoesNotExist "@p"])
  /\ mosaicCompose singleDir noVariables fuel "#i" = (Returns "", [DoesNotExist "#i"])
  /\ normalizeToRelativeSelector singleDir "@p" = (Returns (Some "p"), [])
  /\ normalizeToRelativeSelector singleDir "#i" = (Returns (Some "p"), []).
Proof.
  split; [|split; [|split; [|split]]].
  - apply mosaicCompose_from_zero; [vm_compute; reflexivity|discriminate].
  - apply mosaicCompose_from_zero; [vm_compute; reflexivity|discriminate].
  - apply mosaicCompose_from_zero; [vm_compute; reflexivity|discriminate].
  - vm_compute. reflexivity.
  - vm_compute. reflexivity.
Qed.

(** C6 (the code departs from it).  A reference by an id that no
    fragment has keeps its literal text [#nope] as key and as token; the
    next rendering of the root reads the token as the opening of a
    mustache section that is never closed, and the exception leaves
    [compose].  A relative reference without target is replaced by the
    empty string, with a diagnostic. *)
Theorem unresolved_id_reference_throws (fuel : nat) :
  mosaicCompose danglingDir noVariables (S fuel) "root"
  = (Throws (MustacheThrew (Mustache.UnclosedSection "nope")), [DoesNotExist "#nope"])
  /\ mosaicCompose danglingDir noVariables (S fuel) "plain"
     = (Returns "A  B", [DoesNotExist "nope"]).
Proof.
  split; (apply mosaicCompose_from_one; [vm_compute; reflexivity|discriminate]).
Qed.

(** [normalizeOverridesPaths] is [Object.fromEntries] of the normalized
    entries, and the object of [decodeTemplateOverrides] has the
    properties of the map of [normalizeOverridesPaths]. *)
Lemma normalizeOverridesPaths_entries {FM} (W : World FM)
    (overrides : list (string * TemplateVariables)) :
  normalizeOverridesPaths W overrides
  = (normalized ← normalizedEntries W overrides; mret (fromEntries normalized)).
Proof.
  unfold normalizeOverridesPaths, normalizedEntries. rewrite bind_assoc.
  by destruct (mapM _ overrides) as [[results| | |] log].
Qed.

Lemma define_lookup {V} (key k : string) (value : V) (obj : list (string * V)) :
  (list_to_map (JsObject.define key value obj) : gmap string V) !! k
  = (<[key := value]> (list_to_map obj : gmap string V)) !! k.
Proof.
  induction obj as [|[key' value'] obj IH]; cbn; [done|].
  destruct (String.eqb_spec key key') as [<-|Hne]; cbn.
  - destruct (decide (key = k)) as [->|Hk].
    + by rewrite !lookup_insert_eq.
    + by rewrite !lookup_insert_ne by done.
  - destruct (decide (key' = k)) as [->|Hk'].
    + rewrite lookup_insert_eq, lookup_insert_ne by done. by rewrite lookup_insert_eq.
    + rewrite lookup_insert_ne, IH by done.
      destruct (decide (key = k)) as [->|Hk].
      * by rewrite !lookup_insert_eq.
      * by rewrite !lookup_insert_ne by done.
Qed.

Lemma fromEntries_object {V} (entries : list (string * V)) (k : string) :
  (list_to_map (JsObject.fromEntries entries) : gmap string V) !! k
  = fromEntries entries !! k.
Proof.
  induction entries as [|[key value] entries IH] using rev_ind; [done|].
  unfold JsObject.fromEntries, fromEntries in *. rewrite !fold_left_app. cbn.
  rewrite define_lookup.
  destruct (decide (key = k)) as [->|Hk].
  - by rewrite !lookup_insert_eq.
  - by rewrite !lookup_insert_ne, IH by done.
Qed.

(** C7 (the code departs from it).  The override that [provideOverrides]
    stores for a fragment is not always in the context of that fragment.
    [provideOverrides] files the variables under the canonical path of
    the fragment; when the child is expanded, [extractTemplateVariables]
    normalizes the keys of the stored map once more, and a canonical
    path that is no valid selector (here the path [my notes] of a file
    found by its id) does not pass: the entry is dropped and the child is
    rendered with the global value, [g], while the override map of the
    session has [x = o] under the path of the child.  For a fragment
    whose path is a valid selector, [notes], the override wins. *)
Theorem override_lost_by_second_normalization :
  provideOverrides notesDir notesOverrides notesGlobals = (Returns notesSession, [])
  /\ (("my notes", {[ "x" := Mustache.Str "o" ]}) ∈ templateOverrides notesSession)
  /\ templateVariables notesSession = {[ "x" := Mustache.Str "g" ]}
  /\ getNodeFromSelector notesDir "r" []
     = (Returns (TreeNode {| path := "r"; frontmatter := None; content := "{{ my notes }}";
                             variables := []; references := ["my notes"] |} [] None), [])
  /\ extractTemplateVariables notesDir notesSession "my notes"
     = (Returns {[ "$x" := Mustache.Str "g" ]}, [])
  /\ (forall fuel, mosaicCompose notesDir notesSession (S fuel) "r" = (Returns "g", []))
  /\ extractTemplateVariables notesDir notesSession "notes"
     = (Returns {[ "$x" := Mustache.Str "o" ]}, [])
  /\ (forall fuel, mosaicCompose notesDir notesSession (S fuel) "s" = (Returns "o", [])).
Proof.
  split; [vm_compute; reflexivity|].
  split; [left|].
  split; [reflexivity|].
  split; [vm_compute; reflexivity|].
  split; [vm_compute; reflexivity|].
  split; [intros fuel; apply mosaicCompose_from_one; [vm_compute; reflexivity|discriminate]|].
  split; [vm_compute; reflexivity|].
  intros fuel. apply mosaicCompose_from_one; [vm_compute; reflexivity|discriminate].
Qed.

(** ** Double-brace tokens *)

Lemma append_assoc (a b c : string) : (a +:+ b) +:+ c = a +:+ (b +:+ c).
Proof. induction a as [|x a IH]; simpl; [done|by f_equal]. Qed.

Lemma append_empty_r (a : string) : a +:+ EmptyString = a.
Proof. induction a as [|x a IH]; simpl; [done|by f_equal]. Qed.

Lemma wordDash_nameChar (c : ascii) :
  Js.isWordDash c = true -> nameChar c = true /\ Mustache.tagRe c = false.
Proof. destruct c as [[] [] [] [] [] [] [] []]; vm_compute; intuition congruence. Qed.

Lemma segments_nameChars (seen : bool) (s : string) :
  segments seen s = true -> Js.forallb nameChar s = true.
Proof.
  revert seen. induction s as [|c s IH]; intros seen; cbn; [done|].
  destruct (Js.isWordDash c) eqn:E.
  - apply wordDash_nameChar in E as [-> _]. apply IH.
  - destruct (Ascii.eqb_spec c "/") as [->|]; [|done].
    destruct seen; [|done]. apply IH.
Qed.

Lemma star_eos_forallb (C : ascii -> bool) (s : string) :
  Re.star C (Re.eos tt) s = Some tt -> Js.forallb C s = true.
Proof.
  induction s as [|c s IH]; cbn; [done|].
  destruct (C c); [|done].
  destruct (Re.star C (Re.eos tt) s) as [[]|]; [|done]. intros _. by apply IH.
Qed.

Lemma forallb_impl (P Q : ascii -> bool) (s : string) :
  (forall c, P c = true -> Q c = true) -> Js.forallb P s = true -> Js.forallb Q s = true.
Proof.
  intros HPQ. induction s as [|c s IH]; cbn; [done|].
  intros [Hc Hs]%andb_true_iff. by rewrite (HPQ _ Hc), IH.
Qed.

(** The names of the tokens written by the engine: canonical paths and
    [$]-prefixed variable names.  Both start a tag of the type [name],
    hold no white space, brace or dot. *)
Lemma token_name_shape (key : string) :
  relativePath key = true \/ isVariableReference key = true ->
  exists c key', key = String c key' /\ Mustache.tagRe c = false
                 /\ Js.forallb nameChar key = true.
Proof.
  intros [Hrel|Hvar].
  - destruct key as [|c key']; [done|]. exists c, key'. split; [done|].
    split; [|by eapply segments_nameChars].
    unfold relativePath in Hrel. cbn in Hrel.
    destruct (Js.isWordDash c) eqn:E; [by apply wordDash_nameChar in E as [_ ?]|].
    by destruct (Ascii.eqb c "/").
  - unfold isVariableReference in Hvar. apply bool_decide_eq_true in Hvar as [[] Hvar].
    destruct key as [|c key']; [done|]. unfold Re.lit in Hvar. cbn in Hvar.
    destruct (Ascii.eqb_spec "$" c) as [<-|]; [|done].
    exists "$"%char, key'. split; [done|]. split; [done|].
    destruct key' as [|d key'']; [done|]. cbn in Hvar.
    destruct (Js.isWordDash d) eqn:E; [|done].
    apply star_eos_forallb in Hvar.
    change (Js.forallb nameChar (String d key'') = true).
    apply forallb_impl with Js.isWordDash; [intros ? H; by apply wordDash_nameChar in H as [? _]|].
    cbn. by rewrite E.
Qed.

Lemma scanUntil_cons (re : string -> bool) (c : ascii) (tail : string) :
  re (String c tail) = false ->
  Mustache.scanUntil re (String c tail)
  = (String c (Mustache.scanUntil re tail).1, (Mustache.scanUntil re tail).2).
Proof.
  intros H. cbn [Mustache.scanUntil]. rewrite H.
  by destruct (Mustache.scanUntil re tail).
Qed.

Lemma scanUntil_here (re : string -> bool) (tail : string) :
  re tail = true -> Mustache.scanUntil re tail = (EmptyString, tail).
Proof. intros H. destruct tail; cbn [Mustache.scanUntil]; by rewrite H. Qed.

Lemma opening_mismatch (c : ascii) (tail : string) :
  notOpeningBrace c = true ->
  Mustache.matches (Mustache.openingTagRe "{{") (String c tail) = false.
Proof.
  unfold notOpeningBrace. intros H%negb_true_iff.
  unfold Mustache.matches, Mustache.openingTagRe, Re.lit. cbn.
  by rewrite Ascii.eqb_sym, H.
Qed.

Lemma closing_mismatch (c : ascii) (tail : string) :
  nameChar c = true ->
  Mustache.matches (Mustache.closingTagRe "}}") (String c tail) = false.
Proof.
  unfold nameChar. intros [[[Hw Hc]%andb_true_iff _]%andb_true_iff _]%andb_true_iff.
  apply negb_true_iff in Hw, Hc.
  unfold Mustache.matches, Mustache.closingTagRe, Re.lit. cbn. rewrite Hw. cbn.
  by rewrite Ascii.eqb_sym, Hc.
Qed.

(** The text in front of the first tag. *)
Lemma scanUntil_text (pre rest : string) :
  Js.forallb notOpeningBrace pre = true ->
  Mustache.scanUntil (Mustache.matches (Mustache.openingTagRe "{{")) (pre +:+ rest)
  = (pre +:+ (Mustache.scanUntil (Mustache.matches (Mustache.openingTagRe "{{")) rest).1,
     (Mustache.scanUntil (Mustache.matches (Mustache.openingTagRe "{{")) rest).2).
Proof.
  induction pre as [|c pre IH]; cbn [Js.forallb String.append].
  - intros _. by destruct (Mustache.scanUntil _ rest).
  - intros [Hc Hpre]%andb_true_iff.
    rewrite scanUntil_cons by by apply opening_mismatch. by rewrite IH.
Qed.

Lemma scanUntil_text_only (post : string) :
  Js.forallb notOpeningBrace post = true ->
  Mustache.scanUntil (Mustache.matches (Mustache.openingTagRe "{{")) post
  = (post, EmptyString).
Proof.
  intros H. rewrite <- (append_empty_r post) at 1.
  rewrite scanUntil_text by done. cbn. by rewrite append_empty_r.
Qed.

(** The name of a tag, up to its closing braces. *)
Lemma scanUntil_name (key rest : string) :
  Js.forallb nameChar key = true ->
  Mustache.scanUntil (Mustache.matches (Mustache.closingTagRe "}}"))
                     (key +:+ String " " (String "}" (String "}" rest)))
  = (key, String " " (String "}" (String "}" rest))).
Proof.
  induction key as [|c key IH]; cbn [Js.forallb String.append].
  - intros _. by apply scanUntil_here.
  - intros [Hc Hkey]%andb_true_iff.
    rewrite scanUntil_cons by by apply closing_mismatch. by rewrite IH.
Qed.

(** Text pushed in a state that keeps its white space. *)
Lemma pushChar_keeps (st : Mustache.lexer) (c : ascii) :
  keepsSpace st ->
  keepsSpace (Mustache.pushChar st c)
  /\ Mustache.line (Mustache.pushChar st c) ++ Mustache.tokens (Mustache.pushChar st c)
     = Mustache.Text c :: Mustache.line st ++ Mustache.tokens st
  /\ Mustache.sections (Mustache.pushChar st c) = Mustache.sections st
  /\ Mustache.otag (Mustache.pushChar st c) = Mustache.otag st
  /\ Mustache.ctag (Mustache.pushChar st c) = Mustache.ctag st.
Proof.
  intros Hkeep. unfold Mustache.pushChar.
  destruct (Ascii.eqb c Mustache.newline) eqn:Enl.
  - unfold Mustache.stripSpace, keepsSpace. cbn.
    split; [by left|]. split; [|done].
    destruct Hkeep as [-> | ->]; cbn; [done|].
    destruct (Js.isWhitespace c); by rewrite ?andb_false_r.
  - unfold keepsSpace in *. cbn. split; [|done].
    destruct Hkeep as [-> | ->]; [by left|right]. by destruct (Js.isWhitespace c).
Qed.

Lemma pushText_keeps (st : Mustache.lexer) (text : string) :
  keepsSpace st ->
  keepsSpace (Mustache.pushText st text)
  /\ Mustache.line (Mustache.pushText st text) ++ Mustache.tokens (Mustache.pushText st text)
     = rev (textTokens text) ++ Mustache.line st ++ Mustache.tokens st
  /\ Mustache.sections (Mustache.pushText st text) = Mustache.sections st
  /\ Mustache.otag (Mustache.pushText st text) = Mustache.otag st
  /\ Mustache.ctag (Mustache.pushText st text) = Mustache.ctag st.
Proof.
  revert st. induction text as [|c text IH]; intros st Hkeep; cbn [Mustache.pushText textTokens].
  - done.
  - destruct (pushChar_keeps st c Hkeep) as (Hk & Hl & Hs & Ho & Hc).
    destruct (IH _ Hk) as (Hk' & Hl' & Hs' & Ho' & Hc').
    split; [done|]. rewrite Hl', Hl, Hs', Hs, Ho', Ho, Hc', Hc. split; [|done].
    cbn [rev]. by rewrite <- app_assoc.
Qed.

Lemma finish_keeps (st : Mustache.lexer) :
  keepsSpace st -> Mustache.sections st = [] ->
  Mustache.finish st = Mustache.Ok (rev (Mustache.line st ++ Mustache.tokens st)).
Proof.
  intros Hkeep Hsec. unfold Mustache.finish, Mustache.stripSpace. cbn. rewrite Hsec.
  destruct Hkeep as [-> | ->]; cbn; [done|]. by rewrite andb_false_r.
Qed.

(** The tokenizer on text without braces. *)
Lemma parseLoop_text (fuel : nat) (st : Mustache.lexer) (post : string) :
  keepsSpace st -> Mustache.sections st = [] -> Mustache.otag st = "{{" ->
  Js.forallb notOpeningBrace post = true ->
  Mustache.parseLoop (S fuel) st post
  = Mustache.Ok (rev (Mustache.line st ++ Mustache.tokens st) ++ textTokens post).
Proof.
  intros Hkeep Hsec Hotag Hpost. destruct post as [|c post].
  - cbn. rewrite finish_keeps by done. by rewrite app_nil_r.
  - cbn [Mustache.parseLoop]. rewrite Hotag, scanUntil_text_only by done.
    change (Mustache.openingTagRe "{{" EmptyString) with (@None string).
    destruct (pushText_keeps st (String c post) Hkeep) as (Hk & Hl & Hs & _).
    rewrite finish_keeps, Hl by congruence.
    by rewrite rev_app_distr, rev_involutive.
Qed.

Lemma length_append (a b : string) :
  String.length (a +:+ b) = String.length a + String.length b.
Proof. induction a as [|x a IH]; simpl; [done|by f_equal]. Qed.

(** The tokens of a text with one double-brace token. *)
Lemma parseTemplate_one_name (pre key post : string) (c : ascii) (key' : string) :
  Js.forallb notOpeningBrace pre = true ->
  Js.forallb notOpeningBrace post = true ->
  key = String c key' -> Mustache.tagRe c = false ->
  Js.forallb nameChar key = true ->
  Mustache.parseTemplate (pre +:+ "{{ " +:+ key +:+ " }}" +:+ post)
  = Mustache.Ok (textTokens pre ++ Mustache.Name key :: textTokens post).
Proof.
  intros Hpre Hpost Hkey Htag Hname. unfold Mustache.parseTemplate.
  set (st := Mustache.Lexer [] [] false false [] "{{" "}}").
  set (template := pre +:+ "{{ " +:+ key +:+ " }}" +:+ post).
  assert (exists fuel, String.length template = S (S fuel)) as [fuel ->].
  { unfold template. rewrite length_append. cbn.
    set (n := String.length (key +:+ _)). exists (String.length pre + S n). lia. }
  assert (template <> EmptyString) as Hne.
  { unfold template. destruct pre; done. }
  assert (Mustache.parseLoop (S (S fuel)) st template
          = let '(value, tail1) :=
              Mustache.scanUntil (Mustache.matches (Mustache.openingTagRe "{{")) template in
            let st1 := Mustache.pushText st value in
            match Mustache.openingTagRe "{{" tail1 with
            | None => Mustache.finish st1
            | Some tail2 =>
                if (String.length tail1 =? String.length tail2)%nat then Mustache.finish st1
                else
                  let '(type, tail3) := Mustache.scanType tail2 in
                  let tail4 := Mustache.scan Mustache.whiteRe tail3 in
                  let '(value, tail5) := Mustache.scanValue (Mustache.ctag st1) type tail4 in
                  match Mustache.closingTagRe (Mustache.ctag st1) tail5 with
                  | None => Mustache.Throw Mustache.UnclosedTag
                  | Some tail6 =>
                      if (String.length tail5 =? String.length tail6)%nat
                      then Mustache.Throw Mustache.UnclosedTag
                      else Mustache.bind (Mustache.pushTag st1 type value)
                             (fun st2 => Mustache.parseLoop (S fuel) st2 tail6)
                  end
            end) as ->.
  { by destruct template. }
  assert (Js.isWhitespace c = false) as Hws.
  { subst key. cbn in Hname. unfold nameChar in Hname.
    by destruct (Js.isWhitespace c). }
  assert (Mustache.openingTagRe "{{" ("{{ " +:+ key +:+ " }}" +:+ post)
          = Some (key +:+ " }}" +:+ post)) as Hopen.
  { subst key. unfold Mustache.openingTagRe, Re.lit. cbn. by rewrite Hws. }
  unfold template. rewrite scanUntil_text by done.
  rewrite (scanUntil_here _ ("{{ " +:+ key +:+ " }}" +:+ post)).
  2:{ unfold Mustache.matches. by rewrite Hopen. }
  cbn [fst snd]. rewrite append_empty_r, Hopen.
  assert (keepsSpace st) as Hst by by left.
  destruct (pushText_keeps st pre Hst) as (Hk & Hl & Hs & Ho & Hc).
  set (st1 := Mustache.pushText st pre) in *.
  assert ((String.length ("{{ " +:+ key +:+ " }}" +:+ post)
           =? String.length (key +:+ " }}" +:+ post))%nat = false) as ->.
  { apply Nat.eqb_neq. cbn. lia. }
  assert (Mustache.scanType (key +:+ " }}" +:+ post) = (None, key +:+ " }}" +:+ post)) as ->.
  { subst key. cbn. by rewrite Htag. }
  assert (Mustache.scan Mustache.whiteRe (key +:+ " }}" +:+ post) = key +:+ " }}" +:+ post) as ->.
  { subst key. unfold Mustache.scan, Mustache.whiteRe. cbn. by rewrite Hws. }
  rewrite Hc. cbn [Mustache.ctag st Mustache.scanValue].
  change (" }}" +:+ post) with (String " " (String "}" (String "}" post))).
  rewrite scanUntil_name by done.
  change (Mustache.closingTagRe "}}" (String " " (String "}" (String "}" post))))
    with (Some post).
  cbv iota beta.
  assert ((String.length (String " " (String "}" (String "}" post))) =? String.length post)%nat
          = false) as -> by (apply Nat.eqb_neq; cbn; lia).
  cbn [Mustache.pushTag Mustache.mkToken Mustache.bind].
  rewrite parseLoop_text; cbn; try done; [|by right].
  rewrite Hl. cbn. rewrite app_nil_r, rev_involutive. by rewrite <- app_assoc.
Qed.

Lemma nestTokens_text (text : string) (ts : list Mustache.token)
    (collector : list Mustache.node) (stack : list (bool * string * list Mustache.node)) :
  Mustache.nestTokens (textTokens text ++ ts) collector stack
  = Mustache.nestTokens ts (rev (textNodes text) ++ collector) stack.
Proof.
  revert collector. induction text as [|c text IH]; intros collector; [done|].
  cbn. rewrite IH. by rewrite <- app_assoc.
Qed.

Lemma nestTokens_one_name (pre key post : string) :
  Mustache.nestTokens (textTokens pre ++ Mustache.Name key :: textTokens post) [] []
  = textNodes pre ++ Mustache.NName key :: textNodes post.
Proof.
  rewrite nestTokens_text. cbn.
  rewrite <- (app_nil_r (textTokens post)), nestTokens_text. cbn.
  rewrite app_nil_r, List.rev_app_distr, List.rev_involutive. cbn [rev].
  by rewrite List.rev_involutive, <- app_assoc.
Qed.

Lemma renderTokens_text (context : list Mustache.view) (text : string)
    (ts : list Mustache.node) (r : string) :
  Mustache.renderTokens context ts = Mustache.Ok r ->
  Mustache.renderTokens context (textNodes text ++ ts) = Mustache.Ok (text +:+ r).
Proof.
  intros Hts. induction text as [|c text IH]; [done|].
  cbn. cbn in IH. by rewrite IH.
Qed.

Lemma nameChar_inv (c : ascii) :
  nameChar c = true ->
  Js.isWhitespace c = false /\ Ascii.eqb c "}" = false
  /\ Ascii.eqb c "{" = false /\ Ascii.eqb c "." = false.
Proof.
  unfold nameChar.
  by destruct (Js.isWhitespace c), (Ascii.eqb c "}"), (Ascii.eqb c "{"), (Ascii.eqb c ".").
Qed.

Lemma firstName_plain (key : string) :
  Js.forallb nameChar key = true -> Mustache.firstName key = (key, false).
Proof.
  induction key as [|c key IH]; [done|]. cbn.
  intros [(_ & _ & _ & ->)%nameChar_inv Hkey]%andb_true_iff. by rewrite (IH Hkey).
Qed.

Lemma lookup_own (key : string) (value : Mustache.scalar) (v : TemplateVariables) :
  Js.forallb nameChar key = true ->
  key ∉ Mustache.protoNames ->
  v !! key = Some value ->
  Mustache.lookup key [Mustache.Obj v] = Mustache.Hit value.
Proof.
  intros Hname Hproto Hown.
  assert (Mustache.isDotted key = false) as Hplain.
  { unfold Mustache.isDotted. rewrite (firstName_plain _ Hname).
    destruct key as [|c key]; [done|]. by destruct c as [[] [] [] [] [] [] [] []]. }
  assert (String.eqb key "." = false) as Hdot.
  { destruct key as [|c key]; [done|]. cbn in Hname.
    apply andb_true_iff in Hname as [(_ & _ & _ & Hdot)%nameChar_inv _].
    cbn. by rewrite Hdot. }
  unfold Mustache.lookup. rewrite Hdot, Hplain, (firstName_plain _ Hname). cbn [fst].
  rewrite bool_decide_eq_false_2 by done. cbn. by rewrite Hown.
Qed.


(** ** Instances *)

(** C8 at the child [c] of the root [r], where [r] names itself and [c]
    names [r] back. *)
Lemma produced_nodes_loop_free_witness :
  (path cycleChild ∉ ancestors cycleChild)
  /\ (forall r, r ∈ references cycleChild -> r ∉ ancestors cycleChild)
  /\ (path cycleChild ∉ references cycleChild).
Proof.
  apply (produced_nodes_loop_free cycleDir noVariables Mustache.render "r" relative).
  - reflexivity.
  - right. exists cycleRoot, "c", [LoopInReferences "c" ["r"]].
    split; [|split].
    + apply RootBuilt with [SelfReferenceInReferences "r"]. vm_compute. reflexivity.
    + vm_compute. left.
    + vm_compute. reflexivity.
Defined.

(** C10 at a selector of an empty directory. *)
Lemma compose_absent_root_witness :
  buildTemplateTree (directory [] []) noVariables Mustache.render 3 "missing"
  = (Returns (TreeNode (emptyTemplate "missing") [] None), [DoesNotExist "missing"])
  /\ compose (directory [] []) noVariables Mustache.render 3 "missing"
     = (Returns EmptyString, [DoesNotExist "missing"]).
Proof.
  apply (compose_absent_root (directory [] []) noVariables Mustache.render
           "missing" relative 3).
  - reflexivity.
  - reflexivity.
Defined.

(** X29 at a child with a global [x = g], [y = 3] and the override
    [x = o]. *)
Lemma child_substitution_context_witness :
  exists (childNode : @TemplateTreeNode FrontMatter)
         (normalizedOverrides : gmap string TemplateVariables)
         (context : TemplateVariables) (l1 l2 : list Diag),
    getNodeFromSelector overrideDir "c" (ancestors overrideRoot ++ [path overrideRoot])
    = (Returns childNode, l1)
    /\ path childNode = "c"
    /\ normalizeOverridesPaths overrideDir (templateOverrides overrideSession)
       = (Returns normalizedOverrides, l2)
    /\ Mustache.render (content childNode) context = Mustache.Ok (content overrideChild)
    /\ (forall key,
          context !! String "$" key
          = match default ∅ (normalizedOverrides !! "c") !! key with
            | Some overriding => Some overriding
            | None => templateVariables overrideSession !! key
            end)
    /\ (forall key' value, context !! key' = Some value ->
          exists key, key' = String "$" key)
    /\ (Forall (fun entry => relativePath entry.1 = true)
               (templateOverrides overrideSession) ->
        normalizedOverrides = fromEntries (templateOverrides overrideSession)).
Proof.
  apply (child_substitution_context overrideDir overrideSession Mustache.render
           overrideRoot overrideChild "c" []).
  vm_compute. reflexivity.
Defined.

(** * Further properties of the engine *)

(** ** Selectors *)

Lemma relativePath_head (s : string) :
  relativePath s = true ->
  exists c s', s = String c s' /\ Js.isWordDash c = true.
Proof.
  destruct s as [|c s']; [done|]. unfold relativePath. cbn.
  destruct (Js.isWordDash c) eqn:E; [by eauto|].
  by destruct (Ascii.eqb c "/").
Qed.

Lemma relativePath_not_root (s : string) :
  relativePath s = true -> rootPath s = false /\ idSelector s = false.
Proof.
  intros (c & s' & -> & Hc)%relativePath_head.
  destruct (Ascii.eqb_spec c "@") as [->|]; [done|].
  destruct (Ascii.eqb_spec c "#") as [->|]; [done|].
  split.
  - unfold rootPath. destruct c as [[] [] [] [] [] [] [] []]; done.
  - unfold idSelector. destruct c as [[] [] [] [] [] [] [] []]; done.
Qed.

Lemma rootPath_not_id (s : string) : rootPath s = true -> idSelector s = false.
Proof.
  destruct s as [|c s']; [done|]. unfold rootPath, idSelector.
  destruct c as [[] [] [] [] [] [] [] []]; done.
Qed.

Lemma valid_selector_form (selector : string) (t : TemplateSelectorType) :
  isValidTemplateSelector selector = Some t ->
  match t with
  | relative => relativePath selector
  | root => rootPath selector
  | id => idSelector selector
  end = true.
Proof.
  unfold isValidTemplateSelector.
  destruct (relativePath selector) eqn:Erel; [by intros [= <-]|].
  destruct (rootPath selector) eqn:Eroot; [by intros [= <-]|].
  destruct (idSelector selector) eqn:Eid; [by intros [= <-]|done].
Qed.

(** X1. The three forms of a selector exclude each other, so that the
    type [isValidTemplateSelector] answers is the one form the selector
    has, whatever the order of the three tests; the selector is refused
    exactly when it has none of the forms. *)
Theorem selector_forms_exclusive (selector : string) :
  (isValidTemplateSelector selector = Some relative <-> relativePath selector = true)
  /\ (isValidTemplateSelector selector = Some root <-> rootPath selector = true)
  /\ (isValidTemplateSelector selector = Some id <-> idSelector selector = true)
  /\ (isValidTemplateSelector selector = None
      <-> relativePath selector = false /\ rootPath selector = false
          /\ idSelector selector = false).
Proof.
  unfold isValidTemplateSelector.
  destruct (relativePath selector) eqn:Erel.
  { apply relativePath_not_root in Erel as [-> ->]. intuition congruence. }
  destruct (rootPath selector) eqn:Eroot.
  { apply rootPath_not_id in Eroot as ->. intuition congruence. }
  destruct (idSelector selector); intuition congruence.
Qed.

Lemma segments_pathChars (seen : bool) (s : string) :
  segments seen s = true -> Js.forallb pathChar s = true.
Proof.
  revert seen. induction s as [|c s IH]; intros seen; cbn; [done|].
  unfold pathChar at 1. destruct (Js.isWordDash c); [apply IH|].
  destruct (Ascii.eqb_spec c "/") as [->|]; [|done].
  destruct seen; [apply IH|done].
Qed.

(** X2. A valid selector is one leading character, a word character or
    one of the sigils [@] and [#], followed by word characters and
    slashes only: no dot, no white space, no brace and no backslash, so
    that no selector names a file outside of the template directory. *)
Theorem valid_selector_characters (selector : string) (t : TemplateSelectorType) :
  isValidTemplateSelector selector = Some t ->
  exists c rest,
    selector = String c rest
    /\ match t with
       | relative => Js.isWordDash c = true
       | root => c = "@"%char
       | id => c = "#"%char
       end
    /\ Js.forallb pathChar rest = true.
Proof.
  intros Hvalid%valid_selector_form.
  destruct t.
  - pose proof Hvalid as (c & rest & -> & Hc)%relativePath_head.
    exists c, rest. split; [done|]. split; [done|].
    apply segments_pathChars in Hvalid. cbn in Hvalid.
    by apply andb_true_iff in Hvalid as [_ ?].
  - destruct selector as [|c rest]; [done|].
    unfold rootPath in Hvalid.
    destruct (Ascii.eqb_spec c "@") as [->|Hne].
    + exists "@"%char, rest. split; [done|]. split; [done|]. by eapply segments_pathChars.
    + exfalso. destruct c as [[] [] [] [] [] [] [] []]; done.
  - destruct selector as [|c rest]; [done|].
    unfold idSelector in Hvalid.
    destruct (Ascii.eqb_spec c "#") as [->|Hne].
    + exists "#"%char, rest. split; [done|]. split; [done|].
      destruct rest as [|d rest]; [done|].
      apply andb_true_iff in Hvalid as [Hd Hrest]. cbn. unfold pathChar at 1. rewrite Hd. cbn.
      eapply forallb_impl; [|exact Hrest]. intros x Hx. unfold pathChar. by rewrite Hx.
    + exfalso. destruct c as [[] [] [] [] [] [] [] []]; done.
Qed.

Lemma valid_selector_characters_witness :
  exists c rest,
    "@shared/footer" = String c rest /\ c = "@"%char /\ Js.forallb pathChar rest = true.
Proof.
  apply (valid_selector_characters "@shared/footer" root). reflexivity.
Defined.

(** ** Normalization and the lookup of a fragment *)

Section Lookup.

Context {FM : Type}.
Variable W : World FM.

Lemma normalizeToRelativeSelector_valid (selector : string) (t : TemplateSelectorType) :
  isValidTemplateSelector selector = Some t ->
  normalizeToRelativeSelector W selector = normalizeSelector W selector t.
Proof. intros H. unfold normalizeToRelativeSelector. by rewrite H. Qed.

(** X3. A relative or a root selector normalizes, without a diagnostic,
    to a path that is a valid relative selector, and normalizing that
    path again returns it: normalization reaches a canonical form in one
    step. *)
Theorem normalization_is_canonical (selector : string) (t : TemplateSelectorType) :
  isValidTemplateSelector selector = Some t ->
  t <> id ->
  exists p,
    normalizeToRelativeSelector W selector = (Returns (Some p), [])
    /\ isValidTemplateSelector p = Some relative
    /\ normalizeToRelativeSelector W p = (Returns (Some p), []).
Proof.
  intros Hvalid Ht. rewrite (normalizeToRelativeSelector_valid _ _ Hvalid).
  apply valid_selector_form in Hvalid. destruct t; [| |done].
  - exists selector. split; [done|].
    rewrite (normalizeToRelativeSelector_relative W _ Hvalid).
    unfold isValidTemplateSelector. by rewrite Hvalid.
  - destruct selector as [|c p]; [done|]. unfold rootPath in Hvalid.
    assert (relativePath p = true) as Hp.
    { destruct c as [[] [] [] [] [] [] [] []]; done. }
    exists p. split; [done|].
    rewrite (normalizeToRelativeSelector_relative W _ Hp).
    unfold isValidTemplateSelector. by rewrite Hp.
Qed.


End Lookup.

Lemma normalization_is_canonical_witness :
  exists p,
    normalizeToRelativeSelector policiesDir "@shared/footer" = (Returns (Some p), [])
    /\ isValidTemplateSelector p = Some relative
    /\ normalizeToRelativeSelector policiesDir p = (Returns (Some p), []).
Proof.
  apply (normalization_is_canonical policiesDir "@shared/footer" root);
    [reflexivity|discriminate].
Defined.


(** ** What the matchers capture *)

Section Captures.

Context {A : Type}.

Lemma lit_Some (p : string) (k : string -> option A) (s : string) (r : A) :
  Re.lit p k s = Some r ->
  Js.startsWith p s = true /\ k (Js.slice (String.length p) s) = Some r.
Proof. unfold Re.lit. by destruct (Js.startsWith p s). Qed.

Lemma star_Some (C : ascii -> bool) (k : string -> option A) (s : string) (r : A) :
  Re.star C k s = Some r -> exists s', k s' = Some r.
Proof.
  induction s as [|c s IH]; cbn; [by eauto|].
  destruct (C c); [|by eauto].
  destruct (Re.star C k s) as [r'|]; [|by eauto].
  intros [= <-]. by apply IH.
Qed.

Lemma starCapture_Some (C : ascii -> bool) (k : string -> string -> option A)
    (s : string) (r : A) :
  Re.starCapture C k s = Some r ->
  exists g s', k g s' = Some r /\ Js.forallb C g = true.
Proof.
  revert k. induction s as [|c s IH]; intros k; cbn; [by eauto|].
  destruct (C c) eqn:Ec; [|by eauto].
  destruct (Re.starCapture C _ s) as [r'|] eqn:E; [|by eauto].
  intros [= <-]. apply IH in E as (g & s' & Hk & Hg).
  exists (String c g), s'. split; [done|]. cbn. by rewrite Ec.
Qed.

Lemma plusCapture_Some (C : ascii -> bool) (k : string -> string -> option A)
    (s : string) (r : A) :
  Re.plusCapture C k s = Some r ->
  exists g s', k g s' = Some r /\ Js.forallb C g = true /\ g <> EmptyString.
Proof.
  destruct s as [|c s]; cbn; [done|].
  destruct (C c) eqn:Ec; [|done].
  intros (g & s' & Hk & Hg)%starCapture_Some.
  exists (String c g), s'. split; [done|]. split; [|done]. cbn. by rewrite Ec.
Qed.

(** Every capture listed by [execAll] is one the pattern returned. *)
Lemma execAll_captures (P : A -> Prop) (m : string -> option (A * string)) :
  (forall s a rest, m s = Some (a, rest) -> P a) ->
  forall (s : string) (pos skip : nat), Forall (fun found => P found.2) (Re.execAll m pos skip s).
Proof.
  intros Hm. induction s as [|c s IH]; intros pos skip; cbn; [constructor|].
  destruct skip as [|skip]; [|apply IH].
  destruct (m (String c s)) as [[a rest]|] eqn:E; [|apply IH].
  constructor; [by eapply Hm|apply IH].
Qed.

(** A pattern that opens with a brace finds nothing in a text without
    opening brace. *)
Lemma execAll_no_match (m : string -> option (A * string)) :
  (forall c s, notOpeningBrace c = true -> m (String c s) = None) ->
  forall (s : string) (pos : nat),
    Js.forallb notOpeningBrace s = true -> Re.execAll m pos 0 s = [].
Proof.
  intros Hm. induction s as [|c s IH]; intros pos; cbn; [done|].
  intros [Hc Hs]%andb_true_iff. rewrite (Hm _ _ Hc). by apply IH.
Qed.

End Captures.

Lemma variableRegex_name (s name rest : string) :
  variableRegex s = Some (name, rest) ->
  name <> EmptyString /\ Js.forallb Js.isWordDash name = true.
Proof.
  unfold variableRegex.
  intros [_ (s1 & H)%star_Some]%lit_Some.
  apply lit_Some in H as [_ (g & s2 & H & Hg & Hne)%plusCapture_Some].
  apply star_Some in H as (s3 & [_ [= <- _]]%lit_Some). done.
Qed.

(** X6. Every variable name that [extractVariables] lists is a
    non-empty word of letters, digits, underscores and dashes: the sigil
    and the white space inside the braces are not part of the name. *)
Theorem extractVariables_names (text name : string) :
  name ∈ extractVariables text ->
  name <> EmptyString /\ Js.forallb Js.isWordDash name = true.
Proof.
  unfold extractVariables.
  intros (found & -> & Hfound)%list_elem_of_fmap.
  pose proof (execAll_captures
                (fun name => name <> EmptyString /\ Js.forallb Js.isWordDash name = true)
                variableRegex variableRegex_name text 0 0) as Hall.
  rewrite Forall_forall in Hall. by apply Hall.
Qed.

Lemma extractVariables_names_witness :
  "user-name" <> EmptyString /\ Js.forallb Js.isWordDash "user-name" = true.
Proof.
  apply (extractVariables_names "Hi {{  $user-name }} and {{ $x }}" "user-name").
  vm_compute. left.
Defined.

(** ** The steps of node construction return *)

Lemma bind_intro {A B} (m : Eff A) (f : A -> Eff B) (a : A) (b : B) (l1 l2 : list Diag) :
  m = (Returns a, l1) -> f a = (Returns b, l2) -> m ≫= f = (Returns b, l1 ++ l2).
Proof. intros -> H. cbn. by rewrite H. Qed.

Lemma bind_returns {A B} (m : Eff A) (f : A -> Eff B) :
  (exists a l, m = (Returns a, l)) ->
  (forall a, exists b l, f a = (Returns b, l)) ->
  exists b l, m ≫= f = (Returns b, l).
Proof.
  intros (a & l1 & ->) Hf. destruct (Hf a) as (b & l2 & H).
  exists b, (l1 ++ l2). cbn. by rewrite H.
Qed.

Lemma dedupe_NoDup (seen l : list string) :
  NoDup (Js.dedupe seen l) /\ (forall x, x ∈ Js.dedupe seen l -> x ∉ seen).
Proof.
  revert seen. induction l as [|y l IH]; intros seen; cbn.
  - split; [constructor|]. by intros x ?%elem_of_nil.
  - destruct (Js.includes seen y) eqn:E; [apply IH|].
    destruct (IH (y :: seen)) as [Hnodup Hfresh]. split.
    + constructor; [|done]. intros Hy%Hfresh. apply Hy. left.
    + intros x [->|Hx%Hfresh]%elem_of_cons.
      * by apply includes_false.
      * intros Hseen. apply Hx. by right.
Qed.

Lemma dedupe_complete (seen l : list string) (x : string) :
  x ∈ l -> x ∉ seen -> x ∈ Js.dedupe seen l.
Proof.
  revert seen. induction l as [|y l IH]; intros seen; cbn; [by intros ?%elem_of_nil|].
  intros [->|Hx]%elem_of_cons Hseen.
  - apply includes_false in Hseen. rewrite Hseen. left.
  - destruct (Js.includes seen y) eqn:E; [by apply IH|].
    destruct (decide (x = y)) as [->|Hne]; [left|].
    right. apply IH; [done|]. by intros [?|?]%elem_of_cons.
Qed.

Section Construction.

Context {FM : Type}.
Variable W : World FM.
Variable session : MosaicVariables.
Variable render : string -> TemplateVariables -> Mustache.result string.

Lemma normalizeToRelativeSelector_returns (selector : string) :
  exists normalized log, normalizeToRelativeSelector W selector = (Returns normalized, log).
Proof.
  unfold normalizeToRelativeSelector.
  destruct (isValidTemplateSelector selector) as [[]|]; try by eexists _, _.
  unfold normalizeSelector, findMarkdownFileById.
  destruct (matchesById W (Js.slice 1 selector)) as [|first [|second others]];
    by eexists _, _.
Qed.

Lemma collectReferences_returns (options : ExtractOptions)
    (found : list (nat * nat * string)) (acc : Extracted) :
  exists acc' log, collectReferences W options found acc = (Returns acc', log).
Proof.
  revert acc. induction found as [|[[start stop] group] found IH]; intros acc;
    cbn [collectReferences]; [by eauto|].
  destruct (isVariableReference (Js.trim group)); [apply IH|].
  apply bind_returns; [apply normalizeToRelativeSelector_returns|].
  intros normalized. destruct (loopCheck options) as [p|]; [|apply IH].
  destruct (String.eqb _ p).
  { apply bind_returns; [by eexists _, _|]. intros _. apply IH. }
  destruct (Js.includes _ _); [|apply IH].
  apply bind_returns; [by eexists _, _|]. intros _. apply IH.
Qed.

Lemma extractReferences_returns (text : string) (options : ExtractOptions) :
  exists result log, extractReferencesFromContent W text options = (Returns result, log).
Proof.
  unfold extractReferencesFromContent.
  apply bind_returns; [apply collectReferences_returns|].
  intros acc. by eexists _, _.
Qed.

Lemma parseMarkdown_returns (templateSelector : string) :
  exists p log, parseMarkdown W templateSelector = (Returns p, log).
Proof.
  unfold parseMarkdown. apply bind_returns.
  { unfold getContentRelative, getTemplateContent.
    destruct (readTemplate W templateSelector); by eexists _, _. }
  intros [text|]; [|by eexists _, _].
  destruct (parseFrontmatter W text) as [fm body].
  apply bind_returns; [apply extractReferences_returns|].
  intros [refs newContent]. by eexists _, _.
Qed.

Lemma filterLoopedReferences_returns (n : @TemplateTreeNode FM) :
  exists n' log, filterLoopedReferences n = (Returns n', log).
Proof.
  unfold filterLoopedReferences. apply bind_returns.
  - unfold removeSelfReference. destruct (Js.includes _ _); by eexists _, _.
  - intros m. unfold removeAncestorLoops. destruct (List.filter _ _); by eexists _, _.
Qed.

Lemma filterLoopedReferences_children (n n' : @TemplateTreeNode FM) (log : list Diag) :
  filterLoopedReferences n = (Returns n', log) ->
  children n' = children n /\ frontmatter n' = frontmatter n
  /\ variables n' = variables n.
Proof.
  unfold filterLoopedReferences.
  intros (m & l1 & l2 & Hself & Hloops & _)%bind_Returns.
  assert (children m = children n /\ frontmatter m = frontmatter n
          /\ variables m = variables n) as (<- & <- & <-).
  { unfold removeSelfReference in Hself. destruct (Js.includes _ _).
    - by apply warn_bind_Returns in Hself as (l & [<- _]%ret_Returns & _).
    - by apply ret_Returns in Hself as [<- _]. }
  unfold removeAncestorLoops in Hloops. destruct (List.filter _ _) as [|x looped].
  - by apply ret_Returns in Hloops as [<- _].
  - by apply warn_bind_Returns in Hloops as (l3 & [<- _]%ret_Returns & _).
Qed.

(** ** Fragments without tokens *)

Lemma referenceRegex_needs_brace (c : ascii) (s : string) :
  notOpeningBrace c = true -> referenceRegex (String c s) = None.
Proof.
  unfold notOpeningBrace, referenceRegex, Re.lit. cbn.
  rewrite Ascii.eqb_sym. by intros ->%negb_true_iff.
Qed.

Lemma variableRegex_needs_brace (c : ascii) (s : string) :
  notOpeningBrace c = true -> variableRegex (String c s) = None.
Proof.
  unfold notOpeningBrace, variableRegex, Re.lit. cbn.
  rewrite Ascii.eqb_sym. by intros ->%negb_true_iff.
Qed.

Lemma extractReferences_plain (text : string) (options : ExtractOptions) :
  Js.forallb notOpeningBrace text = true ->
  extractReferencesFromContent W text options = (Returns ([], text), []).
Proof.
  intros Hplain. unfold extractReferencesFromContent.
  rewrite (execAll_no_match _ referenceRegex_needs_brace _ _ Hplain).
  cbn. by destruct (removeLoopedReferences options), (normalizeInContent options).
Qed.

(** X8. A fragment whose body has no opening brace is composed to that
    body, unchanged: it has no variables and no references, the loop does
    not run, the renderer is not called and nothing is written, whatever
    the variables and overrides of the session and whatever the fuel. *)
Theorem compose_plain_fragment (templateSelector raw body : string)
    (t : TemplateSelectorType) (fm : option FM) (fuel : nat) :
  isValidTemplateSelector templateSelector = Some t ->
  readTemplate W templateSelector = Some raw ->
  parseFrontmatter W raw = (fm, body) ->
  Js.forallb notOpeningBrace body = true ->
  parseMarkdown W templateSelector
  = (Returns {| path := templateSelector; frontmatter := fm; content := body;
                variables := []; references := [] |}, [])
  /\ compose W session render fuel templateSelector = (Returns body, []).
Proof.
  intros Hvalid Hread Hmatter Hplain.
  assert (parseMarkdown W templateSelector
          = (Returns {| path := templateSelector; frontmatter := fm; content := body;
                        variables := []; references := [] |}, [])) as Hparse.
  { unfold parseMarkdown, getContentRelative, getTemplateContent.
    rewrite Hread. change (mret (Some raw) : Eff (option string)) with (Returns (Some raw), @nil Diag).
    rewrite bind_ret_l, Hmatter.
    unfold extractAndNormalizeReferences, extractVariables.
    rewrite (extractReferences_plain _ _ Hplain).
    by rewrite (execAll_no_match _ variableRegex_needs_brace _ _ Hplain). }
  split; [done|].
  unfold compose, buildTemplateTree, getNodeFromSelector.
  rewrite Hvalid, Hparse. cbn. by destruct fuel.
Qed.

(** ** Loop filtering, exactly *)

Lemma includes_singleton (x r : string) : Js.includes [x] r = String.eqb r x.
Proof.
  unfold Js.includes. destruct (String.eqb_spec r x) as [->|Hne].
  - apply bool_decide_eq_true. left.
  - apply bool_decide_eq_false. by intros ->%list_elem_of_singleton.
Qed.

Lemma filter_all (f : string -> bool) (l : list string) :
  (forall x, x ∈ l -> f x = true) -> List.filter f l = l.
Proof.
  induction l as [|y l IH]; intros Hall; cbn; [done|].
  rewrite (Hall y) by left. f_equal. apply IH. intros x Hx. apply Hall. by right.
Qed.

Lemma filter_twice (f g : string -> bool) (l : list string) :
  List.filter g (List.filter f l) = List.filter (fun x => f x && g x) l.
Proof.
  induction l as [|y l IH]; cbn; [done|].
  destruct (f y); cbn; [|done]. destruct (g y); by rewrite IH.
Qed.

Lemma removeSelfReference_references (n m : @TemplateTreeNode FM) (log : list Diag) :
  removeSelfReference n = (Returns m, log) ->
  references m
  = List.filter (fun r => negb (String.eqb r (path n))) (references n).
Proof.
  unfold removeSelfReference. destruct (Js.includes _ _) eqn:E.
  - intros (l & [<- _]%ret_Returns & _)%warn_bind_Returns. cbn.
    apply filter_ext. intros r. by rewrite includes_singleton.
  - intros [<- _]%ret_Returns. symmetry. apply filter_all.
    intros x Hx. apply negb_true_iff, String.eqb_neq. intros ->.
    by apply includes_false in E.
Qed.

Lemma removeAncestorLoops_references (anc : list string) (here : string)
    (m n' : @TemplateTreeNode FM) (log : list Diag) :
  removeAncestorLoops anc here m = (Returns n', log) ->
  references n' = List.filter (fun r => negb (Js.includes anc r)) (references m).
Proof.
  unfold removeAncestorLoops.
  assert (forall r, r ∈ references m ->
            Js.includes (List.filter (fun ref => Js.includes anc ref) (references m)) r
            = Js.includes anc r) as Hsame.
  { intros r Hr. destruct (Js.includes anc r) eqn:E.
    - apply includes_true, list_elem_of_In, filter_In. by rewrite <- list_elem_of_In.
    - apply includes_false. intros [_ H]%list_elem_of_In%filter_In. congruence. }
  destruct (List.filter _ (references m)) as [|x looped] eqn:E.
  - intros [<- _]%ret_Returns. symmetry. apply filter_all.
    intros r Hr. by rewrite <- (Hsame r Hr).
  - intros (l & [<- _]%ret_Returns & _)%warn_bind_Returns. cbn.
    apply filter_ext_in. intros r Hr%list_elem_of_In. by rewrite (Hsame r Hr).
Qed.

Lemma filterLoopedReferences_references (n n' : @TemplateTreeNode FM) (log : list Diag) :
  filterLoopedReferences n = (Returns n', log) ->
  references n'
  = List.filter (fun r => negb (String.eqb r (path n)) && negb (Js.includes (ancestors n) r))
                (references n).
Proof.
  unfold filterLoopedReferences.
  intros (m & l1 & l2 & Hself & Hloops & _)%bind_Returns.
  rewrite (removeAncestorLoops_references _ _ _ _ _ Hloops).
  rewrite (removeSelfReference_references _ _ _ Hself).
  apply filter_twice.
Qed.

Lemma filterLoopedReferences_noop (n : @TemplateTreeNode FM) :
  (path n ∉ references n) ->
  (forall r, r ∈ references n -> r ∉ ancestors n) ->
  filterLoopedReferences n = (Returns n, []).
Proof.
  intros Hself Hanc.
  assert (removeSelfReference n = (Returns n, [])) as Hs.
  { unfold removeSelfReference. apply includes_false in Hself. by rewrite Hself. }
  unfold filterLoopedReferences. rewrite Hs, bind_ret_l.
  unfold removeAncestorLoops.
  assert (List.filter (fun ref => Js.includes (ancestors n) ref) (references n) = []) as ->; [|done].
  destruct (List.filter _ _) as [|x looped] eqn:E; [done|].
  assert (In x (List.filter (fun ref => Js.includes (ancestors n) ref) (references n)))
    as [Hx Hin%includes_true]%filter_In by (rewrite E; by left).
  apply list_elem_of_In in Hx. by apply Hanc in Hx.
Qed.

(** X9. What loop filtering keeps: the references of the filtered node
    are those of the node that are neither its path nor one of its
    ancestors, in their order; the path, the ancestors, the front
    matter, the variables and the children are those of the node. *)
Theorem loop_filter_result (n n' : @TemplateTreeNode FM) (log : list Diag) :
  filterLoopedReferences n = (Returns n', log) ->
  references n'
  = List.filter (fun r => negb (String.eqb r (path n)) && negb (Js.includes (ancestors n) r))
                (references n)
  /\ path n' = path n /\ ancestors n' = ancestors n
  /\ frontmatter n' = frontmatter n /\ variables n' = variables n
  /\ children n' = children n.
Proof.
  intros H. split; [by eapply filterLoopedReferences_references|].
  pose proof (filterLoopedReferences_spec _ _ _ H) as (Hp & Ha & _).
  pose proof (filterLoopedReferences_children _ _ _ H) as (Hc & Hf & Hv).
  done.
Qed.

(** X10. Loop filtering returns the node as it is, and writes nothing,
    exactly when the node does not name itself and names none of its
    ancestors. *)
Theorem loop_filter_silent_iff (n : @TemplateTreeNode FM) :
  filterLoopedReferences n = (Returns n, [])
  <-> (path n ∉ references n) /\ (forall r, r ∈ references n -> r ∉ ancestors n).
Proof.
  split.
  - intros H. apply filterLoopedReferences_spec in H as (_ & _ & Hself & Hanc & _). done.
  - intros [Hself Hanc]. by apply filterLoopedReferences_noop.
Qed.

(** X11. Loop filtering is idempotent: filtering a filtered node returns
    it unchanged and writes no further warning. *)
Theorem loop_filter_idempotent (n n' : @TemplateTreeNode FM) (log : list Diag) :
  filterLoopedReferences n = (Returns n', log) ->
  filterLoopedReferences n' = (Returns n', []).
Proof.
  intros (Hp & Ha & Hself & Hanc & _)%filterLoopedReferences_spec.
  apply filterLoopedReferences_noop; by rewrite ?Hp, ?Ha.
Qed.

(** ** Distinct references *)

Lemma extractReferences_NoDup (text : string) (options : ExtractOptions)
    (refs : list string) (newContent : string) (log : list Diag) :
  extractReferencesFromContent W text options = (Returns (refs, newContent), log) ->
  NoDup refs.
Proof.
  unfold extractReferencesFromContent.
  intros (acc & l1 & l2 & _ & [[= <- _] _]%ret_Returns & _)%bind_Returns.
  apply dedupe_NoDup.
Qed.

Lemma parseMarkdown_NoDup (templateSelector : string) (p : ParsedMarkdownTemplate)
    (log : list Diag) :
  parseMarkdown W templateSelector = (Returns p, log) -> NoDup (references p).
Proof.
  unfold parseMarkdown.
  intros (raw & l1 & l2 & _ & H & _)%bind_Returns.
  destruct raw as [text|].
  - destruct (parseFrontmatter W text) as [fm body].
    apply bind_Returns in H as ([refs newContent] & l3 & l4 & Hrefs & [<- _]%ret_Returns & _).
    by apply extractReferences_NoDup in Hrefs.
  - apply ret_Returns in H as [<- _]. constructor.
Qed.

Lemma filter_NoDup (f : string -> bool) (l : list string) :
  NoDup l -> NoDup (List.filter f l).
Proof.
  induction 1 as [|x l Hx _ IH]; cbn; [constructor|].
  destruct (f x); [|done]. constructor; [|done].
  intros [Hin _]%list_elem_of_In%filter_In. by apply Hx, list_elem_of_In.
Qed.

Lemma getNodeFromSelector_NoDup (rootSelector : string) (anc : list string)
    (n : @TemplateTreeNode FM) (log : list Diag) :
  getNodeFromSelector W rootSelector anc = (Returns n, log) ->
  NoDup (references n) /\ children n = None.
Proof.
  unfold getNodeFromSelector.
  intros (p & l1 & l2 & Hp%parseMarkdown_NoDup & Hf & _)%bind_Returns.
  split.
  - rewrite (filterLoopedReferences_references _ _ _ Hf). by apply filter_NoDup.
  - by apply filterLoopedReferences_children in Hf as (-> & _).
Qed.

Lemma flatten_fields (n n' : @TemplateTreeNode FM) (log : list Diag) :
  flattenChildrenAndExpandContent W render n = (Returns n', log) ->
  path n' = path n /\ ancestors n' = ancestors n /\ frontmatter n' = frontmatter n
  /\ variables n' = variables n /\ (NoDup (references n) -> NoDup (references n')).
Proof.
  unfold flattenChildrenAndExpandContent.
  destruct (default [] (children n)) as [|kid kids].
  - by intros [<- _]%ret_Returns.
  - intros (expanded & l1 & l2 & _ & H & _)%bind_Returns.
    apply bind_Returns in H as ([refs final] & l3 & l4 & Hrefs & [<- _]%ret_Returns & _).
    cbn. repeat split. intros _. by apply extractReferences_NoDup in Hrefs.
Qed.

Lemma expandChild_fresh (parent child : @TemplateTreeNode FM) (ref : string)
    (log : list Diag) :
  expandChild W session render parent ref = (Returns child, log) ->
  NoDup (references child) /\ children child = None.
Proof.
  unfold expandChild.
  intros (c & l1 & l2 & Hc%getNodeFromSelector_NoDup & H & _)%bind_Returns.
  apply bind_Returns in H as (vars & l3 & l4 & _ & H & _).
  apply bind_Returns in H as (text & l5 & l6 & _ & [<- _]%ret_Returns & _).
  exact Hc.
Qed.

(** X12. The references of every node of a composition are pairwise
    distinct as strings: the list has passed through
    [[...new Set(references)]], so that a reference string is in it
    once, however often the body has it.  Nothing is said of two
    different strings that name one file. *)
Theorem produced_references_distinct (rootSelector : string) (n : @TemplateTreeNode FM) :
  Produced W session render rootSelector n -> NoDup (references n).
Proof.
  assert (forall m, RootLine W session render rootSelector m -> NoDup (references m)) as Hline.
  { induction 1 as [m log H|m m' log _ IH H|m m' log _ IH H].
    - by apply getNodeFromSelector_NoDup in H as [? _].
    - apply attachChildren_spec in H as [Hp _]. by rewrite Hp.
    - apply flatten_fields in H as (_ & _ & _ & _ & H). by apply H. }
  intros [Hroot|(parent & ref & log & _ & _ & Hchild)]; [by apply Hline|].
  by apply expandChild_fresh in Hchild as [? _].
Qed.

(** ** Children *)

(** X13. [attachChildren] builds one child for each reference of the
    node, in the order of the references: the path of a child is its
    reference, its ancestors are those of the node followed by the path
    of the node, it has no children of its own; the fields of the node
    itself are unchanged. *)
Theorem attachChildren_one_child_per_reference (n n' : @TemplateTreeNode FM)
    (log : list Diag) :
  attachChildren W session render n = (Returns n', log) ->
  parsed n' = parsed n /\ ancestors n' = ancestors n
  /\ exists kids,
       children n' = Some kids
       /\ map (fun kid : TemplateTreeNode => path kid) kids = references n
       /\ Forall (fun kid : TemplateTreeNode =>
                    ancestors kid = ancestors n ++ [path n] /\ children kid = None) kids.
Proof.
  intros H. pose proof (attachChildren_spec _ _ _ _ _ _ H) as [Hp Ha].
  split; [done|]. split; [done|].
  apply attachChildren_children in H as (kids & Hkids & Hall).
  exists kids. split; [done|]. clear Hkids Hp Ha.
  revert Hall. generalize (references n). intros refs Hall.
  induction Hall as [|ref kid refs kids' (lg & Hkid) _ [IHmap IHall]]; [done|].
  pose proof (expandChild_spec _ _ _ _ _ _ _ Hkid) as (Hpath & Hanc & _).
  apply expandChild_fresh in Hkid as [_ Hnone].
  split; [cbn; by rewrite Hpath, IHmap|]. by constructor.
Qed.

(** ** The loop *)

(** X14. When the loop of [expandAndFlattenRecursively] returns, the node
    has no reference left; its path, its ancestors, its front matter and
    the variables listed for it are those of the node the loop was
    given. *)
Theorem expansion_postcondition (fuel : nat) (n n' : @TemplateTreeNode FM)
    (log : list Diag) :
  expandAndFlattenRecursively W session render fuel n = (Returns n', log) ->
  references n' = [] /\ path n' = path n /\ ancestors n' = ancestors n
  /\ frontmatter n' = frontmatter n /\ variables n' = variables n.
Proof.
  revert n log. induction fuel as [|fuel IH]; intros n log.
  - destruct (references n) as [|r refs] eqn:E.
    + rewrite expandAndFlatten_done by done. by intros [= <- _].
    + cbn. by rewrite E.
  - destruct (references n) as [|r refs] eqn:E.
    + rewrite expandAndFlatten_done by done. by intros [= <- _].
    + rewrite expandAndFlatten_step by by rewrite E.
      intros (m & l1 & l2 & Hm & Hloop & _)%bind_Returns.
      apply bind_Returns in Hm as (a & l3 & l4 & Ha & Hflat & _).
      apply attachChildren_spec in Ha as [Hparsed Hanc].
      apply flatten_fields in Hflat as (Hp & Ha' & Hf & Hv & _).
      apply IH in Hloop as (-> & -> & -> & -> & ->).
      rewrite Hp, Ha', Hf, Hv, Hanc, Hparsed. done.
Qed.

(** ** Computations that return *)

Lemma mapM_returns {A B} (f : A -> Eff B) (l : list A) :
  (forall a, exists b lg, f a = (Returns b, lg)) ->
  exists bs lg, mapM f l = (Returns bs, lg).
Proof.
  intros Hf. induction l as [|a l IH]; cbn [mapM]; [by eexists _, _|].
  apply bind_returns; [apply Hf|]. intros b.
  apply bind_returns; [apply IH|]. intros bs. by eexists _, _.
Qed.

Lemma normalizeOverridesPaths_returns (overrides : list (string * TemplateVariables)) :
  exists normalized log, normalizeOverridesPaths W overrides = (Returns normalized, log).
Proof.
  unfold normalizeOverridesPaths. apply bind_returns; [|intros results; by eexists _, _].
  apply mapM_returns. intros [key value].
  apply bind_returns; [apply normalizeToRelativeSelector_returns|].
  intros normalizedKey. by eexists _, _.
Qed.

Lemma extractTemplateVariables_returns (here : string) :
  exists context log, extractTemplateVariables W session here = (Returns context, log).
Proof.
  unfold extractTemplateVariables.
  apply bind_returns; [apply normalizeOverridesPaths_returns|].
  intros normalized. by eexists _, _.
Qed.

(** ** Variables and overrides *)

Lemma fromEntries_snoc {V} (entries : list (string * V)) (k : string) (v : V) :
  fromEntries (entries ++ [(k, v)]) = <[k := v]> (fromEntries entries).
Proof. unfold fromEntries. by rewrite fold_left_app. Qed.

Lemma fromEntries_lookup_Some {V} (entries : list (string * V)) (k : string) (v : V) :
  fromEntries entries !! k = Some v -> (k, v) ∈ entries.
Proof.
  induction entries as [|[k' v'] entries IH] using rev_ind; [done|].
  rewrite fromEntries_snoc. destruct (decide (k' = k)) as [->|Hne].
  - rewrite lookup_insert_eq. intros [= ->]. apply elem_of_app. right. left.
  - rewrite lookup_insert_ne by done. intros H%IH. apply elem_of_app. by left.
Qed.

Lemma fromEntries_lookup_None {V} (entries : list (string * V)) (k : string) :
  k ∉ map fst entries -> fromEntries entries !! k = None.
Proof.
  induction entries as [|[k' v'] entries IH] using rev_ind; [done|].
  rewrite map_app, fromEntries_snoc. intros Hk.
  rewrite lookup_insert_ne.
  - apply IH. intros H. apply Hk, elem_of_app. by left.
  - intros ->. apply Hk, elem_of_app. right. left.
Qed.

(** What one entry of the overrides becomes. *)
Lemma override_entry (key : string) (value : TemplateVariables)
    (result : option (string * TemplateVariables)) (log : list Diag) :
  (normalizedKey ← normalizeToRelativeSelector W key;
   mret (match normalizedKey with
         | Some (String _ _ as k) => Some (k, value)
         | _ => None
         end)) = (Returns result, log) ->
  exists normalizedKey,
    fst (normalizeToRelativeSelector W key) = Returns normalizedKey
    /\ result = match normalizedKey with
                | Some (String _ _ as k) => Some (k, value)
                | _ => None
                end.
Proof.
  intros (normalizedKey & l1 & l2 & Hkey & [<- _]%ret_Returns & _)%bind_Returns.
  exists normalizedKey. by rewrite Hkey.
Qed.

(** X17. Every entry of the normalized overrides comes from an entry of
    the overrides whose selector normalizes to its path, with the
    variables of that entry: an entry whose selector is not valid, or is
    an id that no file carries, leaves no trace. *)
Theorem normalized_overrides_origin (overrides : list (string * TemplateVariables))
    (normalized : gmap string TemplateVariables) (log : list Diag)
    (here : string) (vars : TemplateVariables) :
  normalizeOverridesPaths W overrides = (Returns normalized, log) ->
  normalized !! here = Some vars ->
  exists key,
    (key, vars) ∈ overrides
    /\ fst (normalizeToRelativeSelector W key) = Returns (Some here)
    /\ here <> EmptyString.
Proof.
  unfold normalizeOverridesPaths.
  intros (results & l1 & l2 & Hresults%mapM_Returns & [<- _]%ret_Returns & _)%bind_Returns.
  intros (result & Hin & Hsome)%fromEntries_lookup_Some%list_elem_of_omap.
  subst result. apply list_elem_of_lookup in Hin as [i Hi].
  destruct (Forall2_lookup_r _ _ _ _ _ Hresults Hi) as ([key value] & Hentry & lg & Hf).
  apply override_entry in Hf as (normalizedKey & Hkey & Hresult).
  destruct normalizedKey as [[|c k]|]; try done.
  injection Hresult as -> ->.
  exists key. split; [by eapply list_elem_of_lookup_2|]. done.
Qed.



(** X19. The overrides of one fragment do not reach another: when the
    keys of the overrides are canonical paths and none of them is the
    path of the fragment, the context of the fragment is the global
    variables under their [$] names, and nothing is written. *)
Theorem variables_without_override (here : string) :
  Forall (fun entry => relativePath entry.1 = true) (templateOverrides session) ->
  here ∉ map fst (templateOverrides session) ->
  extractTemplateVariables W session here
  = (Returns (kmap (String "$") (templateVariables session)), []).
Proof.
  intros Hcanonical Hhere. unfold extractTemplateVariables.
  rewrite (normalizeOverridesPaths_canonical W _ Hcanonical), bind_ret_l.
  rewrite (fromEntries_lookup_None _ _ Hhere). cbn.
  by rewrite (left_id_L ∅ (∪)).
Qed.

(** ** The view of the parent *)

Lemma assign_other {V} (key k : string) (value : V) (obj : gmap string V) :
  k <> key -> assign key value obj !! k = obj !! k.
Proof.
  intros Hne. unfold assign. destruct (String.eqb key "__proto__"); [done|].
  by rewrite lookup_insert_ne.
Qed.

Lemma mustacheContext_from (kids : list (@TemplateTreeNode FM)) (ctx : TemplateVariables)
    (k : string) :
  k ∉ map (fun kid : TemplateTreeNode => path kid) kids ->
  fold_left (fun ctx (child : TemplateTreeNode) =>
               assign (path child) (Mustache.Str (content child)) ctx) kids ctx !! k
  = ctx !! k.
Proof.
  revert ctx. induction kids as [|kid kids IH]; intros ctx Hk; cbn; [done|].
  rewrite IH.
  - apply assign_other. intros ->. apply Hk. left.
  - intros H. apply Hk. by right.
Qed.

(** X20. The view with which the body of a parent is rendered holds, for
    every child, the rendered body of the child under the path of the
    child (children have distinct paths; a path spelled [__proto__]
    apart, which JavaScript does not store). *)
Theorem mustacheContext_lookup (kids : list (@TemplateTreeNode FM))
    (kid : @TemplateTreeNode FM) :
  NoDup (map (fun kid : TemplateTreeNode => path kid) kids) ->
  kid ∈ kids ->
  path kid <> "__proto__" ->
  mustacheContext kids !! path kid = Some (Mustache.Str (content kid)).
Proof.
  unfold mustacheContext. generalize (∅ : TemplateVariables).
  induction kids as [|first kids IH]; intros ctx Hnodup Hin Hproto; [by apply elem_of_nil in Hin|].
  cbn in Hnodup. apply NoDup_cons in Hnodup as [Hfirst Hnodup].
  apply elem_of_cons in Hin as [->|Hin]; cbn [fold_left].
  - rewrite mustacheContext_from by done. unfold assign.
    apply String.eqb_neq in Hproto. rewrite Hproto. by rewrite lookup_insert_eq.
  - by apply IH.
Qed.

End Construction.

(** ** The variables of a session *)

(** X21. [provideVariables] accumulates: after two calls a variable has
    the value of the second call if that call names it, else the value
    of the first call if that one names it, else the value it had; the
    overrides are not touched.  Two calls are one call with the second
    object spread over the first. *)
Theorem provideVariables_chain (first second : TemplateVariables) (m : MosaicVariables)
    (name : string) :
  templateVariables (provideVariables second (provideVariables first m)) !! name
  = match second !! name with
    | Some value => Some value
    | None =>
        match first !! name with
        | Some value => Some value
        | None => templateVariables m !! name
        end
    end
  /\ provideVariables second (provideVariables first m)
     = provideVariables (second ∪ first) m.
Proof.
  split.
  - cbn. rewrite !lookup_union.
    by destruct (second !! name), (first !! name), (templateVariables m !! name).
  - unfold provideVariables. cbn. f_equal. by rewrite (assoc_L (∪)).
Qed.

(** ** Instances of the further properties *)

(** X8 at the last fragment of the chain. *)
Lemma compose_plain_fragment_witness :
  parseMarkdown chainDir "b"
  = (Returns {| path := "b"; frontmatter := None; content := "B";
                variables := []; references := [] |}, [])
  /\ compose chainDir greetingSession Mustache.render 2 "b" = (Returns "B", []).
Proof.
  apply (compose_plain_fragment chainDir greetingSession Mustache.render
           "b" "B" "B" relative None 2); reflexivity.
Defined.

(** X9 and X11 at a node that names itself and its ancestor. *)
Lemma loop_filter_result_witness :
  references filteredNode
  = List.filter (fun r => negb (String.eqb r (path loopedNode))
                          && negb (Js.includes (ancestors loopedNode) r))
                (references loopedNode)
  /\ path filteredNode = path loopedNode /\ ancestors filteredNode = ancestors loopedNode
  /\ frontmatter filteredNode = frontmatter loopedNode
  /\ variables filteredNode = variables loopedNode
  /\ children filteredNode = children loopedNode.
Proof.
  apply (loop_filter_result loopedNode filteredNode
           [SelfReferenceInReferences "c"; LoopInReferences "c" ["r"]]).
  vm_compute. reflexivity.
Defined.

Lemma loop_filter_idempotent_witness :
  filterLoopedReferences filteredNode = (Returns filteredNode, []).
Proof.
  apply (loop_filter_idempotent loopedNode filteredNode
           [SelfReferenceInReferences "c"; LoopInReferences "c" ["r"]]).
  vm_compute. reflexivity.
Defined.

(** X12 at a root whose body has the reference [a] three times. *)
Lemma produced_references_distinct_witness : NoDup (references twiceRoot).
Proof.
  apply (produced_references_distinct twiceDir noVariables Mustache.render "r" twiceRoot).
  left. apply RootBuilt with []. vm_compute. reflexivity.
Defined.

(** X13 and X14 at the root of [overrideDir]. *)
Lemma attachChildren_one_child_per_reference_witness :
  parsed overrideAttached = parsed overrideRoot
  /\ ancestors overrideAttached = ancestors overrideRoot
  /\ exists kids,
       children overrideAttached = Some kids
       /\ map (fun kid : TemplateTreeNode => path kid) kids = references overrideRoot
       /\ Forall (fun kid : TemplateTreeNode =>
                    ancestors kid = ancestors overrideRoot ++ [path overrideRoot]
                    /\ children kid = None) kids.
Proof.
  apply (attachChildren_one_child_per_reference overrideDir overrideSession Mustache.render
           overrideRoot overrideAttached []).
  vm_compute. reflexivity.
Defined.

Lemma expansion_postcondition_witness :
  references overrideFlattened = [] /\ path overrideFlattened = path overrideRoot
  /\ ancestors overrideFlattened = ancestors overrideRoot
  /\ frontmatter overrideFlattened = frontmatter overrideRoot
  /\ variables overrideFlattened = variables overrideRoot.
Proof.
  apply (expansion_postcondition overrideDir overrideSession Mustache.render 2
           overrideRoot overrideFlattened []).
  vm_compute. reflexivity.
Defined.

(** X17 and X18 at overrides given by path, by a key that is no
    selector, and by id. *)
Lemma normalized_overrides_origin_witness :
  exists key,
    (key, {[ "x" := Mustache.Str "late" ]}) ∈ idOverrides
    /\ fst (normalizeToRelativeSelector singleDir key) = Returns (Some "p")
    /\ "p" <> EmptyString.
Proof.
  apply (normalized_overrides_origin singleDir idOverrides
           {[ "p" := {[ "x" := Mustache.Str "late" ]} ]} [] "p").
  - vm_compute. reflexivity.
  - vm_compute. reflexivity.
Defined.


(** X19 at the root of [overrideDir], whose child has an override. *)
Lemma variables_without_override_witness :
  extractTemplateVariables overrideDir overrideSession "r"
  = (Returns (kmap (String "$") (templateVariables overrideSession)), []).
Proof.
  apply (variables_without_override overrideDir overrideSession "r").
  - repeat constructor.
  - cbn. intros [H|H]%elem_of_cons; [discriminate H|by apply elem_of_nil in H].
Defined.

(** X20 at the child of [overrideDir]. *)
Lemma mustacheContext_lookup_witness :
  mustacheContext [overrideChild] !! path overrideChild
  = Some (Mustache.Str (content overrideChild)).
Proof.
  apply (mustacheContext_lookup [overrideChild] overrideChild).
  - cbn. apply NoDup_singleton.
  - left.
  - discriminate.
Defined.

(** ** Bodies with one reference token *)

Lemma splitChars_app (a b : string) : splitChars (a +:+ b) = splitChars a ++ splitChars b.
Proof. induction a as [|c a IH]; cbn; [done|by rewrite IH]. Qed.

Lemma splitChars_length (a : string) : length (splitChars a) = String.length a.
Proof. induction a as [|c a IH]; cbn; [done|by rewrite IH]. Qed.

Lemma join_splitChars (a : string) (rest : list string) :
  join (splitChars a ++ rest) = a +:+ join rest.
Proof. induction a as [|c a IH]; cbn; [done|]. unfold join in IH. by rewrite IH. Qed.

Lemma startsWith_append (p r : string) : Js.startsWith p (p +:+ r) = true.
Proof. induction p as [|c p IH]; cbn; [done|]. by rewrite Ascii.eqb_refl. Qed.

Lemma slice_append (p r : string) : Js.slice (String.length p) (p +:+ r) = r.
Proof. induction p as [|c p IH]; cbn; [by destruct r|done]. Qed.

Lemma lit_append {A} (p r : string) (k : string -> option A) :
  Re.lit p k (p +:+ r) = k r.
Proof. unfold Re.lit. by rewrite startsWith_append, slice_append. Qed.

(** A greedy class stops at the first character outside of the class. *)
Lemma star_stop {A} (C : ascii -> bool) (k : string -> option A) (c : ascii) (s : string) :
  C c = false -> Re.star C k (String c s) = k (String c s).
Proof. intros H. cbn. by rewrite H. Qed.

Lemma star_one {A} (C : ascii -> bool) (k : string -> option A) (c d : ascii) (s : string)
    (r : A) :
  C c = true -> C d = false -> k (String d s) = Some r ->
  Re.star C k (String c (String d s)) = Some r.
Proof. intros Hc Hd Hk. cbn. by rewrite Hc, Hd, Hk. Qed.

Lemma starCapture_greedy {A} (C : ascii -> bool) (k : string -> string -> option A)
    (g : string) (c : ascii) (rest : string) (r : A) :
  Js.forallb C g = true -> C c = false ->
  k g (String c rest) = Some r ->
  Re.starCapture C k (g +:+ String c rest) = Some r.
Proof.
  revert k. induction g as [|x g IH]; intros k; cbn.
  - intros _ Hc Hk. by rewrite Hc.
  - intros [Hx Hg]%andb_true_iff Hc Hk. rewrite Hx.
    by rewrite (IH (fun g0 r0 => k (String x g0) r0) Hg Hc Hk).
Qed.

Lemma trimEnd_token (tok : string) :
  tok <> EmptyString -> Js.forallb nameChar tok = true ->
  Js.trimEnd (tok +:+ " ") = tok.
Proof.
  induction tok as [|c tok IH]; [done|]. intros _ [Hc Htok]%andb_true_iff.
  apply nameChar_inv in Hc as (Hws & _). cbn.
  destruct tok as [|d tok].
  - cbn. by rewrite Hws.
  - rewrite IH by done. done.
Qed.

Lemma trim_token (tok : string) :
  tok <> EmptyString -> Js.forallb nameChar tok = true ->
  Js.trim (tok +:+ " ") = tok.
Proof.
  intros Hne Htok. unfold Js.trim.
  destruct tok as [|c tok]; [done|]. pose proof Htok as [Hc _]%andb_true_iff.
  apply nameChar_inv in Hc as (Hws & _). cbn [String.append Js.trimStart].
  rewrite Hws. by apply (trimEnd_token (String c tok)).
Qed.

Lemma nameChars_notClosing (tok : string) :
  Js.forallb nameChar tok = true -> Js.forallb notClosingBrace tok = true.
Proof.
  apply forallb_impl. intros c (_ & Hc & _)%nameChar_inv.
  unfold notClosingBrace. by rewrite Hc.
Qed.

Lemma nameChars_notOpening (tok : string) :
  Js.forallb nameChar tok = true -> Js.forallb notOpeningBrace tok = true.
Proof.
  apply forallb_impl. intros c (_ & _ & Hc & _)%nameChar_inv.
  unfold notOpeningBrace. by rewrite Hc.
Qed.

Lemma forallb_append (P : ascii -> bool) (a b : string) :
  Js.forallb P (a +:+ b) = Js.forallb P a && Js.forallb P b.
Proof. induction a as [|c a IH]; cbn; [done|]. by rewrite IH, andb_assoc. Qed.

(** The reference pattern on a token: the group is the name and the
    space that follows it. *)
Lemma referenceRegex_token (tok post : string) :
  tok <> EmptyString -> Js.forallb nameChar tok = true ->
  referenceRegex ("{{ " +:+ tok +:+ " }}" +:+ post) = Some (tok +:+ " ", post).
Proof.
  intros Hne Htok. destruct tok as [|c tok]; [done|].
  pose proof Htok as [Hc Hrest]%andb_true_iff.
  apply nameChar_inv in Hc as (Hws & Hclose & _).
  unfold referenceRegex.
  change ("{{ " +:+ String c tok +:+ " }}" +:+ post)
    with ("{{" +:+ String " " (String c (tok +:+ " }}" +:+ post))).
  rewrite lit_append. apply star_one; [done..|].
  unfold Re.plusCapture, notClosingBrace at 1. rewrite Hclose. cbn [negb].
  change (tok +:+ " }}" +:+ post) with (tok +:+ String " " (String "}" ("}" +:+ post))).
  replace (tok +:+ String " " (String "}" ("}" +:+ post)))
    with ((tok +:+ " ") +:+ String "}" ("}" +:+ post))
    by (by rewrite append_assoc).
  apply starCapture_greedy; [|done|].
  - rewrite forallb_append. by rewrite (nameChars_notClosing _ Hrest).
  - rewrite star_stop by done. by rewrite (lit_append "}}" post).
Qed.

Lemma execAll_plain_prefix {A} (m : string -> option (A * string)) (pre s : string)
    (pos : nat) :
  (forall c s, notOpeningBrace c = true -> m (String c s) = None) ->
  Js.forallb notOpeningBrace pre = true ->
  Re.execAll m pos 0 (pre +:+ s) = Re.execAll m (pos + String.length pre) 0 s.
Proof.
  intros Hm. revert pos. induction pre as [|c pre IH]; intros pos; cbn.
  - intros _. by rewrite Nat.add_0_r.
  - intros [Hc Hpre]%andb_true_iff. rewrite (Hm _ _ Hc), IH by done.
    f_equal. lia.
Qed.

Lemma execAll_skip {A} (m : string -> option (A * string)) (a b : string) (pos : nat) :
  Re.execAll m pos (String.length a) (a +:+ b)
  = Re.execAll m (pos + String.length a) 0 b.
Proof.
  revert pos. induction a as [|c a IH]; intros pos; cbn.
  - by rewrite Nat.add_0_r.
  - rewrite IH. f_equal. lia.
Qed.

(** A pattern that opens with a brace, on a text whose only brace opens
    a match: one match, at the brace. *)
Lemma execAll_one_match {A} (m : string -> option (A * string)) (pre matched post : string)
    (c : ascii) (a : A) :
  (forall c s, notOpeningBrace c = true -> m (String c s) = None) ->
  Js.forallb notOpeningBrace pre = true ->
  Js.forallb notOpeningBrace post = true ->
  m (String c matched +:+ post) = Some (a, post) ->
  Re.execAll m 0 0 (pre +:+ String c matched +:+ post)
  = [(String.length pre, String.length pre + S (String.length matched), a)].
Proof.
  intros Hm Hpre Hpost Hmatch.
  rewrite execAll_plain_prefix by done. cbn [Nat.add].
  change (String c matched +:+ post) with (String c (matched +:+ post)) in *.
  cbn [Re.execAll]. rewrite Hmatch.
  assert (String.length (String c (matched +:+ post)) - String.length post
          = S (String.length matched)) as ->.
  { cbn. rewrite length_append. lia. }
  f_equal. cbn [Nat.sub]. rewrite Nat.sub_0_r, execAll_skip.
  by apply execAll_no_match.
Qed.

Lemma valid_selector_token (tok : string) (t : TemplateSelectorType) :
  isValidTemplateSelector tok = Some t ->
  tok <> EmptyString /\ Js.forallb nameChar tok = true /\ isVariableReference tok = false
  /\ Js.startsWith "$" tok = false.
Proof.
  intros Hvalid. pose proof (valid_selector_nonempty _ _ Hvalid) as Hne.
  apply valid_selector_form in Hvalid.
  destruct tok as [|c tok]; [done|]. split; [done|].
  assert (Js.forallb nameChar (String c tok) = true /\ Ascii.eqb "$" c = false) as [Hname Hc].
  { destruct t.
    - split; [by eapply segments_nameChars|].
      apply relativePath_head in Hvalid as (c' & s' & [= <- <-] & Hc).
      destruct c as [[] [] [] [] [] [] [] []]; done.
    - unfold rootPath in Hvalid.
      assert (c = "@"%char) as -> by (destruct c as [[] [] [] [] [] [] [] []]; done).
      split; [|done]. cbn. by eapply segments_nameChars.
    - unfold idSelector in Hvalid.
      assert (c = "#"%char) as -> by (destruct c as [[] [] [] [] [] [] [] []]; done).
      split; [|done]. destruct tok as [|d tok]; [done|].
      change (Js.forallb Js.isWordDash (String d tok) = true) in Hvalid.
      change (Js.forallb nameChar (String d tok) = true).
      eapply forallb_impl; [|exact Hvalid]. intros x Hx. by apply wordDash_nameChar in Hx as [? _]. }
  split; [done|]. split; [|cbn; by rewrite Hc].
  unfold isVariableReference, Re.lit. cbn. rewrite Hc.
  apply bool_decide_eq_false. by intros [? ?].
Qed.

Section Tokens.

Context {FM : Type}.
Variable W : World FM.
Variable session : MosaicVariables.

Lemma token_text (tok post : string) :
  "{{ " +:+ tok +:+ " }}" +:+ post = String "{" ("{ " +:+ tok +:+ " }}") +:+ post.
Proof. cbn. by rewrite append_assoc. Qed.

(** The references and the rewritten body of a text with one token. *)
Lemma extractAndNormalize_one_token (pre tok post : string) (t : TemplateSelectorType)
    (normalized : option string) (log : list Diag) :
  Js.forallb notOpeningBrace pre = true ->
  Js.forallb notOpeningBrace post = true ->
  isValidTemplateSelector tok = Some t ->
  normalizeToRelativeSelector W tok = (Returns normalized, log) ->
  extractAndNormalizeReferences W (pre +:+ "{{ " +:+ tok +:+ " }}" +:+ post)
  = (Returns ([default tok normalized],
              pre +:+ "{{ " +:+ default tok normalized +:+ " }}" +:+ post), log).
Proof.
  intros Hpre Hpost (Hne & Hname & Hvar & _)%valid_selector_token Hnorm.
  unfold extractAndNormalizeReferences, extractReferencesFromContent.
  rewrite token_text.
  rewrite (execAll_one_match referenceRegex pre _ post "{" (tok +:+ " ")
             referenceRegex_needs_brace Hpre Hpost)
    by (rewrite <- token_text; by apply referenceRegex_token).
  cbn [collectReferences]. rewrite (trim_token _ Hne Hname), Hvar, Hnorm.
  set (nref := default tok normalized). set (text := pre +:+ String "{" _ +:+ post).
  cbn -[String.append splitChars join take drop Nat.sub Nat.add].
  rewrite !app_nil_r. f_equal. fold nref. f_equal.
  replace (String.length pre + S (String.length ("{ " +:+ tok +:+ " }}")) - String.length pre)
    with (S (String.length ("{ " +:+ tok +:+ " }}"))) by lia.
  unfold text. rewrite !splitChars_app.
  rewrite <- (splitChars_length pre) at 1. rewrite take_app_length.
  rewrite app_assoc.
  replace (String.length pre + S (String.length ("{ " +:+ tok +:+ " }}")))
    with (length (splitChars pre ++ splitChars (String "{" ("{ " +:+ tok +:+ " }}"))))
    by (rewrite length_app, !splitChars_length; done).
  rewrite drop_app_length, join_splitChars.
  change (join (("{{ " +:+ nref +:+ " }}") :: splitChars post))
    with (("{{ " +:+ nref +:+ " }}") +:+ join (splitChars post)).
  rewrite <- (app_nil_r (splitChars post)), join_splitChars.
  change (join []) with EmptyString. rewrite append_empty_r.
  cbn. by rewrite append_assoc.
Qed.

Lemma variableRegex_token (tok rest : string) :
  tok <> EmptyString -> Js.forallb nameChar tok = true -> Js.startsWith "$" tok = false ->
  variableRegex ("{{ " +:+ tok +:+ rest) = None.
Proof.
  intros Hne Hname Hvar. unfold variableRegex.
  change ("{{ " +:+ tok +:+ rest) with ("{{" +:+ String " " (tok +:+ rest)).
  rewrite lit_append. destruct tok as [|c tok]; [done|].
  apply andb_true_iff in Hname as [(Hws & _)%nameChar_inv _].
  cbn in Hvar. apply andb_false_iff in Hvar as [Hc|]; [|done].
  cbn. rewrite Hws. unfold Re.lit. cbn. by rewrite Hc.
Qed.

Lemma extractVariables_one_token (pre tok post : string) (t : TemplateSelectorType) :
  Js.forallb notOpeningBrace pre = true ->
  Js.forallb notOpeningBrace post = true ->
  isValidTemplateSelector tok = Some t ->
  extractVariables (pre +:+ "{{ " +:+ tok +:+ " }}" +:+ post) = [].
Proof.
  intros Hpre Hpost (Hne & Hname & _ & Hvar)%valid_selector_token.
  unfold extractVariables.
  rewrite (execAll_plain_prefix _ _ _ _ variableRegex_needs_brace Hpre).
  assert (Re.execAll variableRegex (0 + String.length pre) 0
            ("{{ " +:+ tok +:+ " }}" +:+ post) = []) as ->; [|done].
  generalize (0 + String.length pre). intros pos.
  change ("{{ " +:+ tok +:+ " }}" +:+ post)
    with (String "{" (String "{" (String " " (tok +:+ " }}" +:+ post)))).
  cbn [Re.execAll].
  change (String "{" (String "{" (String " " (tok +:+ " }}" +:+ post))))
    with ("{{ " +:+ tok +:+ " }}" +:+ post).
  rewrite (variableRegex_token _ _ Hne Hname Hvar).
  assert (variableRegex (String "{" (String " " (tok +:+ " }}" +:+ post))) = None) as ->.
  { done. }
  apply (execAll_no_match _ variableRegex_needs_brace (String " " (tok +:+ " }}" +:+ post))).
  change (Js.forallb notOpeningBrace (String " " (tok +:+ " }}" +:+ post)))
    with (Js.forallb notOpeningBrace (tok +:+ " }}" +:+ post)).
  rewrite forallb_append. rewrite (nameChars_notOpening _ Hname). exact Hpost.
Qed.

Lemma parseMarkdown_one_token (templateSelector raw pre tok post : string)
    (fm : option FM) (t : TemplateSelectorType) (normalized : option string)
    (log : list Diag) :
  readTemplate W templateSelector = Some raw ->
  parseFrontmatter W raw = (fm, pre +:+ "{{ " +:+ tok +:+ " }}" +:+ post) ->
  Js.forallb notOpeningBrace pre = true ->
  Js.forallb notOpeningBrace post = true ->
  isValidTemplateSelector tok = Some t ->
  normalizeToRelativeSelector W tok = (Returns normalized, log) ->
  parseMarkdown W templateSelector
  = (Returns {| path := templateSelector; frontmatter := fm;
                content := pre +:+ "{{ " +:+ default tok normalized +:+ " }}" +:+ post;
                variables := []; references := [default tok normalized] |}, log).
Proof.
  intros Hread Hmatter Hpre Hpost Hvalid Hnorm.
  unfold parseMarkdown, getContentRelative, getTemplateContent. rewrite Hread.
  change (mret (Some raw) : Eff (option string)) with (Returns (Some raw), @nil Diag).
  rewrite bind_ret_l, Hmatter.
  rewrite (extractVariables_one_token _ _ _ _ Hpre Hpost Hvalid).
  rewrite (extractAndNormalize_one_token _ _ _ _ _ _ Hpre Hpost Hvalid Hnorm).
  cbn. by rewrite app_nil_r.
Qed.

(** X22. [parseMarkdown] rewrites a reference token to its canonical
    form: a fragment whose body is a text, one token [{{ selector }}]
    and a text (the texts without opening brace, the selector of any of
    the three forms) is parsed to the body with the token of the
    normalized path, [{{ path }}], and that path as the one reference; a
    selector that normalizes to null is kept as it is written. *)
Theorem parse_normalizes_token (templateSelector raw pre tok post : string)
    (fm : option FM) (t : TemplateSelectorType) (normalized : option string)
    (log : list Diag) :
  readTemplate W templateSelector = Some raw ->
  parseFrontmatter W raw = (fm, pre +:+ "{{ " +:+ tok +:+ " }}" +:+ post) ->
  Js.forallb notOpeningBrace pre = true ->
  Js.forallb notOpeningBrace post = true ->
  isValidTemplateSelector tok = Some t ->
  normalizeToRelativeSelector W tok = (Returns normalized, log) ->
  exists p : ParsedMarkdownTemplate,
    parseMarkdown W templateSelector = (Returns p, log)
    /\ path p = templateSelector /\ frontmatter p = fm
    /\ content p = pre +:+ "{{ " +:+ default tok normalized +:+ " }}" +:+ post
    /\ variables p = [] /\ references p = [default tok normalized].
Proof.
  intros Hread Hmatter Hpre Hpost Hvalid Hnorm.
  eexists. split; [by eapply parseMarkdown_one_token|]. done.
Qed.

Lemma tokenRegex_needs_brace (ref : string) (c : ascii) (s : string) :
  notOpeningBrace c = true -> tokenRegex ref (String c s) = None.
Proof.
  unfold notOpeningBrace, tokenRegex, Re.lit. cbn.
  rewrite Ascii.eqb_sym. by intros ->%negb_true_iff.
Qed.

Lemma tokenRegex_token (ref post : string) :
  ref <> EmptyString -> Js.forallb nameChar ref = true ->
  tokenRegex ref ("{{ " +:+ ref +:+ " }}" +:+ post) = Some post.
Proof.
  intros Hne Hname. destruct ref as [|c ref]; [done|].
  pose proof Hname as [(Hws & _)%nameChar_inv _]%andb_true_iff.
  unfold tokenRegex.
  change ("{{ " +:+ String c ref +:+ " }}" +:+ post)
    with ("{{" +:+ String " " (String c (ref +:+ " }}" +:+ post))).
  rewrite lit_append. apply star_one; [done..|].
  change (String c (ref +:+ " }}" +:+ post)) with (String c ref +:+ " }}" +:+ post).
  rewrite lit_append.
  change (" }}" +:+ post) with (String " " (String "}" ("}" +:+ post))).
  apply star_one; [done..|].
  by rewrite (lit_append "}}" post).
Qed.

Lemma removeAll_skip (m : string -> option string) (a b : string) :
  Re.removeAll m (String.length a) (a +:+ b) = Re.removeAll m 0 b.
Proof. induction a as [|c a IH]; cbn; [done|exact IH]. Qed.

Lemma removeAll_plain (m : string -> option string) (post : string) :
  (forall c s, notOpeningBrace c = true -> m (String c s) = None) ->
  Js.forallb notOpeningBrace post = true ->
  Re.removeAll m 0 post = post.
Proof.
  intros Hm. induction post as [|c post IH]; cbn; [done|].
  intros [Hc Hpost]%andb_true_iff. by rewrite (Hm _ _ Hc), IH.
Qed.

Lemma removeAll_one_match (m : string -> option string) (pre matched post : string)
    (c : ascii) :
  (forall c s, notOpeningBrace c = true -> m (String c s) = None) ->
  Js.forallb notOpeningBrace pre = true ->
  Js.forallb notOpeningBrace post = true ->
  m (String c matched +:+ post) = Some post ->
  Re.removeAll m 0 (pre +:+ String c matched +:+ post) = pre +:+ post.
Proof.
  intros Hm Hpre Hpost Hmatch.
  induction pre as [|x pre IH].
  - change (String c matched +:+ post) with (String c (matched +:+ post)) in *.
    cbn [String.append Re.removeAll]. rewrite Hmatch.
    assert (String.length (String c (matched +:+ post)) - String.length post - 1
            = String.length matched) as ->.
    { cbn. rewrite length_append. lia. }
    rewrite removeAll_skip. by apply removeAll_plain.
  - cbn in Hpre. apply andb_true_iff in Hpre as [Hx Hpre].
    cbn [String.append Re.removeAll]. rewrite (Hm _ _ Hx). f_equal. by apply IH.
Qed.

Variable render : string -> TemplateVariables -> Mustache.result string.

(** X23. A fragment that names itself composes to its body without the
    token: when the one token of the body normalizes to the path of the
    fragment itself (written as a path, as a root selector or as the id
    of the fragment), the reference is removed with one warning, the
    loop does not run and [compose] returns the two texts around the
    token. *)
Theorem self_reference_is_removed (templateSelector raw pre tok post : string)
    (fm : option FM) (tsel t : TemplateSelectorType) (log : list Diag) (fuel : nat) :
  isValidTemplateSelector templateSelector = Some tsel ->
  readTemplate W templateSelector = Some raw ->
  parseFrontmatter W raw = (fm, pre +:+ "{{ " +:+ tok +:+ " }}" +:+ post) ->
  Js.forallb notOpeningBrace pre = true ->
  Js.forallb notOpeningBrace post = true ->
  isValidTemplateSelector tok = Some t ->
  normalizeToRelativeSelector W tok = (Returns (Some templateSelector), log) ->
  compose W session render fuel templateSelector
  = (Returns (pre +:+ post), log ++ [SelfReferenceInReferences templateSelector]).
Proof.
  intros Hsel Hread Hmatter Hpre Hpost Hvalid Hnorm.
  pose proof (parseMarkdown_one_token _ _ _ _ _ _ _ _ _ Hread Hmatter Hpre Hpost Hvalid Hnorm)
    as Hparse. cbn [default from_option Datatypes.id] in Hparse.
  apply valid_selector_token in Hsel as Hshape. destruct Hshape as (Hne & Hname & _).
  unfold compose, buildTemplateTree, getNodeFromSelector. rewrite Hsel, Hparse.
  set (p := {| path := templateSelector; frontmatter := fm;
               content := pre +:+ "{{ " +:+ templateSelector +:+ " }}" +:+ post;
               variables := []; references := [templateSelector] |}).
  assert (filterLoopedReferences (TreeNode p [] None)
          = (Returns (TreeNode {| path := templateSelector; frontmatter := fm;
                                  content := pre +:+ post; variables := [];
                                  references := [] |} [] None),
             [SelfReferenceInReferences templateSelector])) as Hfilter.
  { unfold filterLoopedReferences, removeSelfReference. cbn [parsed path references p].
    rewrite (proj2 (includes_true [templateSelector] templateSelector)) by left.
    unfold removeReferenceFromNode, removeTokens.
    cbn [parsed path references content frontmatter variables ancestors children p
         fold_left List.filter].
    rewrite (proj2 (includes_true [templateSelector] templateSelector)) by left.
    cbn [negb]. rewrite token_text.
    rewrite (removeAll_one_match (tokenRegex templateSelector) pre _ post "{"
               (tokenRegex_needs_brace _) Hpre Hpost)
      by (rewrite <- token_text; by apply tokenRegex_token).
    reflexivity. }
  rewrite bind_assoc. cbn [mbind Eff_bind]. rewrite Hfilter.
  cbn [mbind Eff_bind]. rewrite expandAndFlatten_done by done.
  cbn. by rewrite !app_nil_r.
Qed.

End Tokens.

(** ** One level of composition *)

Lemma render_plain (text : string) (v : TemplateVariables) :
  Js.forallb notOpeningBrace text = true -> Mustache.render text v = Mustache.Ok text.
Proof.
  intros Hplain. unfold Mustache.render, Mustache.parseTemplate.
  set (st := Mustache.Lexer [] [] false false [] "{{" "}}").
  assert (Mustache.parseLoop (String.length text) st text = Mustache.Ok (textTokens text)) as ->.
  { destruct text as [|c text].
    - cbn [String.length Mustache.parseLoop]. rewrite finish_keeps; [done|by left|done].
    - cbn [String.length]. rewrite parseLoop_text; [done|by left|done..]. }
  cbn [Mustache.bind].
  rewrite <- (app_nil_r (textTokens text)), nestTokens_text. cbn [Mustache.nestTokens fold_left].
  rewrite app_nil_r, List.rev_involutive.
  rewrite <- (app_nil_r (textNodes text)).
  rewrite (renderTokens_text [Mustache.Obj v] text [] EmptyString eq_refl).
  by rewrite append_empty_r.
Qed.

Lemma render_one_token (pre key post value : string) (v : TemplateVariables) :
  Js.forallb notOpeningBrace pre = true ->
  Js.forallb notOpeningBrace post = true ->
  relativePath key = true ->
  key ∉ Mustache.protoNames ->
  v !! key = Some (Mustache.Str value) ->
  Mustache.render (pre +:+ "{{ " +:+ key +:+ " }}" +:+ post) v
  = Mustache.Ok (pre +:+ Mustache.escapeHtml value +:+ post).
Proof.
  intros Hpre Hpost Hkey Hproto Hown.
  destruct (token_name_shape key (or_introl Hkey)) as (c & key' & Heq & Htag & Hname).
  unfold Mustache.render.
  rewrite (parseTemplate_one_name pre key post c key') by done.
  cbn [Mustache.bind]. rewrite nestTokens_one_name.
  apply renderTokens_text. cbn.
  unfold Mustache.escapedValue. rewrite (lookup_own _ _ _ Hname Hproto Hown).
  pose proof (renderTokens_text [Mustache.Obj v] post [] EmptyString eq_refl) as Hpost'.
  rewrite app_nil_r, append_empty_r in Hpost'. by rewrite Hpost'.
Qed.

Lemma escapeHtml_plain (text : string) :
  Js.forallb notOpeningBrace text = true ->
  Js.forallb notOpeningBrace (Mustache.escapeHtml text) = true.
Proof.
  induction text as [|c text IH]; [done|]. cbn [Js.forallb Mustache.escapeHtml].
  intros [Hc Htext]%andb_true_iff. rewrite forallb_append, (IH Htext), andb_true_r.
  unfold Mustache.entityMap.
  repeat match goal with |- context [Ascii.eqb c ?x] => destruct (Ascii.eqb c x); [done|] end.
  cbn. by rewrite Hc.
Qed.

Section Composition.

Context {FM : Type}.
Variable W : World FM.
Variable session : MosaicVariables.

Lemma parseMarkdown_child (p childBody : string) :
  childBody = match readTemplate W p with
              | Some raw => (parseFrontmatter W raw).2
              | None => EmptyString
              end ->
  Js.forallb notOpeningBrace childBody = true ->
  exists fm,
    parseMarkdown W p
    = (Returns {| path := p; frontmatter := fm; content := childBody;
                  variables := []; references := [] |},
       match readTemplate W p with
       | Some _ => []
       | None => [DoesNotExist p]
       end).
Proof.
  intros Hbody Hplain. destruct (readTemplate W p) as [raw|] eqn:Hread.
  - exists (parseFrontmatter W raw).1.
    unfold parseMarkdown, getContentRelative, getTemplateContent. rewrite Hread.
    change (mret (Some raw) : Eff (option string)) with (Returns (Some raw), @nil Diag).
    rewrite bind_ret_l. destruct (parseFrontmatter W raw) as [fm body]. cbn in Hbody. subst body.
    unfold extractAndNormalizeReferences, extractVariables.
    rewrite (extractReferences_plain W _ _ Hplain).
    by rewrite (execAll_no_match _ variableRegex_needs_brace _ _ Hplain).
  - exists None. subst childBody. by apply parseMarkdown_absent.
Qed.

(** X24. One level of composition: a fragment whose body is a text, one
    token and a text, where the token names another fragment whose body
    has no token (or no file), composes to the first text, the escaped
    body of the named fragment (the empty string when it has no file)
    and the second text.  The diagnostics are those of the
    normalization of the token, of the absent file and of the lookup of
    the variables of the named fragment. *)
Theorem single_reference_composition (templateSelector raw pre tok post p childBody : string)
    (fm : option FM) (tsel t : TemplateSelectorType) (log : list Diag) (fuel : nat) :
  isValidTemplateSelector templateSelector = Some tsel ->
  readTemplate W templateSelector = Some raw ->
  parseFrontmatter W raw = (fm, pre +:+ "{{ " +:+ tok +:+ " }}" +:+ post) ->
  Js.forallb notOpeningBrace pre = true ->
  Js.forallb notOpeningBrace post = true ->
  isValidTemplateSelector tok = Some t ->
  normalizeToRelativeSelector W tok = (Returns (Some p), log) ->
  relativePath p = true ->
  p <> templateSelector ->
  p ∉ Mustache.protoNames ->
  childBody = match readTemplate W p with
              | Some rawChild => (parseFrontmatter W rawChild).2
              | None => EmptyString
              end ->
  Js.forallb notOpeningBrace childBody = true ->
  mosaicCompose W session (S fuel) templateSelector
  = (Returns (pre +:+ Mustache.escapeHtml childBody +:+ post),
     log ++ match readTemplate W p with
            | Some _ => []
            | None => [DoesNotExist p]
            end
         ++ snd (extractTemplateVariables W session p)).
Proof.
  intros Hsel Hread Hmatter Hpre Hpost Hvalid Hnorm Hp Hneq Hproto Hbody Hplain.
  pose proof (parseMarkdown_one_token W _ _ _ _ _ _ _ _ _ Hread Hmatter Hpre Hpost Hvalid Hnorm)
    as Hparse. cbn [default from_option Datatypes.id] in Hparse.
  destruct (parseMarkdown_child p childBody Hbody Hplain) as (fmChild & Hchild).
  set (childLog := match readTemplate W p with Some _ => [] | None => [DoesNotExist p] end) in *.
  set (rootP := {| path := templateSelector; frontmatter := fm;
                   content := pre +:+ "{{ " +:+ p +:+ " }}" +:+ post;
                   variables := []; references := [p] |}) in *.
  set (childP := {| path := p; frontmatter := fmChild; content := childBody;
                    variables := []; references := [] |}) in *.
  assert (getNodeFromSelector W templateSelector [] = (Returns (TreeNode rootP [] None), log))
    as Hroot.
  { unfold getNodeFromSelector. rewrite Hparse.
    rewrite <- (app_nil_r log). apply bind_intro with rootP; [by rewrite app_nil_r|].
    apply filterLoopedReferences_noop; cbn.
    - by intros ->%list_elem_of_singleton.
    - intros r _. apply not_elem_of_nil. }
  assert (getNodeFromSelector W p [templateSelector]
          = (Returns (TreeNode childP [templateSelector] None), childLog)) as Hnode.
  { unfold getNodeFromSelector. rewrite Hchild.
    rewrite <- (app_nil_r childLog). apply bind_intro with childP; [by rewrite app_nil_r|].
    apply filterLoopedReferences_noop; cbn.
    - apply not_elem_of_nil.
    - by intros r ?%elem_of_nil. }
  destruct (extractTemplateVariables_returns W session p) as (context & logV & Hvars).
  rewrite Hvars. cbn [snd].
  assert (attachChildren W session Mustache.render (TreeNode rootP [] None)
          = (Returns (TreeNode rootP [] (Some [TreeNode childP [templateSelector] None])),
             childLog ++ logV)) as Hattach.
  { unfold attachChildren. cbn [parsed references rootP mapM].
    unfold expandChild at 1. cbn [ancestors parsed path rootP app]. rewrite Hnode.
    cbn [mbind Eff_bind parsed path childP]. rewrite Hvars.
    cbn [mbind Eff_bind parsed content childP]. rewrite (render_plain _ _ Hplain).
    cbn. by rewrite !app_nil_r. }
  set (expanded := pre +:+ Mustache.escapeHtml childBody +:+ post).
  assert (Js.forallb notOpeningBrace expanded = true) as Hexpanded.
  { unfold expanded. by rewrite !forallb_append, Hpre, Hpost, escapeHtml_plain. }
  assert (flattenChildrenAndExpandContent W Mustache.render
            (TreeNode rootP [] (Some [TreeNode childP [templateSelector] None]))
          = (Returns (TreeNode {| path := templateSelector; frontmatter := fm;
                                  content := expanded; variables := [];
                                  references := [] |} [] (Some [])), [])) as Hflatten.
  { unfold flattenChildrenAndExpandContent.
    cbn [children default from_option Datatypes.id parsed content path ancestors rootP].
    assert (Mustache.render (pre +:+ "{{ " +:+ p +:+ " }}" +:+ post)
              (mustacheContext [TreeNode childP [templateSelector] None])
            = Mustache.Ok expanded) as ->.
    { apply render_one_token; try done.
      unfold mustacheContext, assign. cbn [fold_left parsed path content childP].
      assert (String.eqb p "__proto__" = false) as ->.
      { apply String.eqb_neq. intros ->. apply Hproto. unfold Mustache.protoNames.
        repeat first [apply list_elem_of_here | apply list_elem_of_further]. }
      by rewrite lookup_insert_eq. }
    cbn [sync mbind Eff_bind]. rewrite (extractReferences_plain W _ _ Hexpanded).
    reflexivity. }
  unfold mosaicCompose, compose, buildTemplateTree. rewrite Hsel, Hroot.
  cbn [mbind Eff_bind].
  rewrite expandAndFlatten_step by done. rewrite Hattach.
  cbn [mbind Eff_bind]. rewrite Hflatten.
  cbn [mbind Eff_bind]. rewrite expandAndFlatten_done by done.
  cbn. by rewrite !app_nil_r.
Qed.

End Composition.

(** X22 at the fragment of the tests that names itself by a root
    selector. *)
Lemma parse_normalizes_token_witness :
  exists p : ParsedMarkdownTemplate,
    parseMarkdown testDir "3-3-self-reference-by-root" = (Returns p, [])
    /\ path p = "3-3-self-reference-by-root" /\ frontmatter p = None
    /\ content p
       = ("This item self-references itself." +:+ nl)
         +:+ "{{ " +:+ "3-3-self-reference-by-root" +:+ " }}" +:+ ""
    /\ variables p = [] /\ references p = ["3-3-self-reference-by-root"].
Proof.
  apply (parse_normalizes_token testDir "3-3-self-reference-by-root"
           (selfText "{{ @3-3-self-reference-by-root }}")
           ("This item self-references itself." +:+ nl) "@3-3-self-reference-by-root" ""
           None root (Some "3-3-self-reference-by-root") []);
    vm_compute; reflexivity.
Defined.

(** X23 at the fragment of the tests that names itself by its id. *)
Lemma self_reference_is_removed_witness :
  compose testDir noVariables Mustache.render 5 "3-2-self-reference-by-id"
  = (Returns (("This item self-references itself." +:+ nl) +:+ ""),
     [] ++ [SelfReferenceInReferences "3-2-self-reference-by-id"]).
Proof.
  apply (self_reference_is_removed testDir noVariables Mustache.render
           "3-2-self-reference-by-id" selfById
           ("This item self-references itself." +:+ nl) "#myself" ""
           (Some [("id", Mustache.Str "myself")]) relative id [] 5);
    vm_compute; reflexivity.
Defined.

(** X24 at a fragment that names a footer by a root selector. *)
Lemma single_reference_composition_witness :
  mosaicCompose footerDir noVariables 1 "main"
  = (Returns "Terms: a&#x2F;b &amp; c.", []).
Proof.
  apply (single_reference_composition footerDir noVariables
           "main" "Terms: {{ @shared/footer }}." "Terms: " "@shared/footer" "."
           "shared/footer" "a/b & c" None relative root [] 0);
    try (vm_compute; reflexivity).
  - discriminate.
  - apply (bool_decide_eq_false_1 ("shared/footer" ∈ Mustache.protoNames)).
    vm_compute. reflexivity.
Defined.

(** ** Tokens in a flattened body *)

Section Flattened.

Context {FM : Type}.
Variable W : World FM.

(** X25. What [flattenChildrenAndExpandContent] asks of
    [extractReferencesFromContent], on a text with one token: a token
    whose normalized reference is the path of the node, or one of its
    ancestors, is cut out of the text and is no reference, with the
    warning of its kind; any other token stays in the text as it is
    written and its normalized reference is the one reference. *)
Theorem flattened_token (pre tok post here : string) (anc : list string)
    (t : TemplateSelectorType) (normalized : option string) (log : list Diag) :
  Js.forallb notOpeningBrace pre = true ->
  Js.forallb notOpeningBrace post = true ->
  isValidTemplateSelector tok = Some t ->
  normalizeToRelativeSelector W tok = (Returns normalized, log) ->
  here <> EmptyString ->
  extractReferencesFromContent W (pre +:+ "{{ " +:+ tok +:+ " }}" +:+ post)
    {| currentPath := Some here; optAncestors := anc; removeLoopedReferences := true;
       normalizeInContent := false |}
  = if String.eqb (default tok normalized) here then
      (Returns ([], pre +:+ post), log ++ [SelfReferenceInContent here tok])
    else if Js.includes anc (default tok normalized) then
      (Returns ([], pre +:+ post),
       log ++ [AncestorLoopInContent here (default tok normalized) tok])
    else
      (Returns ([default tok normalized], pre +:+ "{{ " +:+ tok +:+ " }}" +:+ post), log).
Proof.
  intros Hpre Hpost (Hne & Hname & Hvar & _)%valid_selector_token Hnorm Hhere.
  rewrite !token_text.
  assert (Re.removeAll (tokenRegex tok) 0
            (pre +:+ String "{" ("{ " +:+ tok +:+ " }}") +:+ post)
          = pre +:+ post) as Hremoved.
  { apply (removeAll_one_match (tokenRegex tok) pre _ post "{" (tokenRegex_needs_brace _) Hpre Hpost).
    rewrite <- token_text. by apply tokenRegex_token. }
  unfold extractReferencesFromContent.
  rewrite (execAll_one_match referenceRegex pre _ post "{" (tok +:+ " ")
             referenceRegex_needs_brace Hpre Hpost)
    by (rewrite <- token_text; by apply referenceRegex_token).
  cbn [collectReferences]. rewrite (trim_token _ Hne Hname), Hvar, Hnorm.
  assert (loopCheck {| currentPath := Some here; optAncestors := anc;
                       removeLoopedReferences := true; normalizeInContent := false |}
          = Some here) as ->.
  { unfold loopCheck. cbn. by destruct here. }
  cbn [mbind Eff_bind optAncestors].
  destruct (String.eqb (default tok normalized) here).
  { cbn -[String.append Re.removeAll]. by rewrite Hremoved, !app_nil_r. }
  destruct (Js.includes anc (default tok normalized)).
  { cbn -[String.append Re.removeAll]. by rewrite Hremoved, !app_nil_r. }
  cbn -[String.append]. by rewrite !app_nil_r.
Qed.

(** X26. A variable token is a variable and no reference: on a text
    with the one token [{{ $name }}], [extractVariables] lists the name,
    and [extractReferencesFromContent] finds no reference and leaves the
    text as it is, whatever its options. *)
Theorem variable_token_is_no_reference (pre name post : string) (options : ExtractOptions) :
  Js.forallb notOpeningBrace pre = true ->
  Js.forallb notOpeningBrace post = true ->
  name <> EmptyString ->
  Js.forallb Js.isWordDash name = true ->
  extractVariables (pre +:+ "{{ $" +:+ name +:+ " }}" +:+ post) = [name]
  /\ extractReferencesFromContent W (pre +:+ "{{ $" +:+ name +:+ " }}" +:+ post) options
     = (Returns ([], pre +:+ "{{ $" +:+ name +:+ " }}" +:+ post), []).
Proof.
  intros Hpre Hpost Hne Hname.
  change ("{{ $" +:+ name +:+ " }}" +:+ post)
    with ("{{ " +:+ String "$" name +:+ " }}" +:+ post).
  assert (Js.forallb nameChar (String "$" name) = true) as Hchars.
  { change (Js.forallb nameChar name = true).
    eapply forallb_impl; [|exact Hname]. intros x Hx. by apply wordDash_nameChar in Hx as [? _]. }
  assert (isVariableReference (String "$" name) = true) as Hvar.
  { unfold isVariableReference. apply bool_decide_eq_true.
    change (String "$" name) with ("$" +:+ name). rewrite lit_append.
    destruct name as [|c name]; [done|]. apply andb_true_iff in Hname as [Hc Hname].
    cbn [Re.plus]. rewrite Hc. exists tt. clear Hne Hchars Hc.
    induction name as [|d name IH]; [done|]. apply andb_true_iff in Hname as [Hd Hname].
    cbn [Re.star]. by rewrite Hd, (IH Hname). }
  rewrite !token_text. split.
  - unfold extractVariables.
    rewrite (execAll_one_match variableRegex pre _ post "{" name
               variableRegex_needs_brace Hpre Hpost); [done|].
    rewrite <- token_text. unfold variableRegex.
    change ("{{ " +:+ String "$" name +:+ " }}" +:+ post)
      with ("{{" +:+ String " " (String "$" (name +:+ " }}" +:+ post))).
    rewrite lit_append. apply star_one; [done..|].
    change (String "$" (name +:+ " }}" +:+ post)) with ("$" +:+ name +:+ " }}" +:+ post).
    rewrite lit_append. destruct name as [|c name]; [done|].
    apply andb_true_iff in Hname as [Hc Hname].
    cbn [String.append Re.plusCapture]. rewrite Hc.
    change (" }}" +:+ post) with (String " " (String "}" ("}" +:+ post))).
    apply starCapture_greedy; [done..|].
    apply star_one; [done..|]. by rewrite (lit_append "}}" post).
  - unfold extractReferencesFromContent.
    rewrite (execAll_one_match referenceRegex pre _ post "{" (String "$" name +:+ " ")
               referenceRegex_needs_brace Hpre Hpost)
      by (rewrite <- token_text; by apply referenceRegex_token).
    cbn [collectReferences]. rewrite (trim_token (String "$" name)) by done.
    rewrite Hvar. cbn -[String.append].
    by destruct (removeLoopedReferences options), (normalizeInContent options).
Qed.

End Flattened.

(** X25 at a token that names, by a root selector, the ancestor of the
    node. *)
Lemma flattened_token_witness :
  extractReferencesFromContent cycleDir "a {{ @r }} b"
    {| currentPath := Some "c"; optAncestors := ["r"]; removeLoopedReferences := true;
       normalizeInContent := false |}
  = (Returns ([], "a  b"), [AncestorLoopInContent "c" "r" "@r"]).
Proof.
  apply (flattened_token cycleDir "a " "@r" " b" "c" ["r"] root (Some "r") []);
    first [reflexivity | discriminate].
Defined.

(** X26 at the greeting of the README. *)
Lemma variable_token_is_no_reference_witness :
  extractVariables "Hi {{ $user-name }}!" = ["user-name"]
  /\ extractReferencesFromContent greetingDir "Hi {{ $user-name }}!"
       {| currentPath := None; optAncestors := []; removeLoopedReferences := false;
          normalizeInContent := true |}
     = (Returns ([], "Hi {{ $user-name }}!"), []).
Proof.
  apply (variable_token_is_no_reference greetingDir "Hi " "user-name" "!");
    first [reflexivity | discriminate].
Defined.

(** ** The two versions of the lookup *)

Section LegacyFacts.

Context {FM : Type}.
Variable W : World FM.

(** X27. [getTemplateContentLEGACY] and [getTemplateContent] agree: for
    every selector and every type the Effect version returns the answer
    of the plain version and writes the same lines. *)
Theorem legacy_lookup_agrees (templateSelector : string) (type : TemplateSelectorType) :
  getTemplateContent W templateSelector type
  = (Returns (getTemplateContentLEGACY W templateSelector type).1,
     (getTemplateContentLEGACY W templateSelector type).2).
Proof.
  unfold getTemplateContent, getTemplateContentLEGACY. destruct type.
  - by destruct (readTemplate W templateSelector).
  - by destruct (readTemplate W (Js.slice 1 templateSelector)).
  - unfold findMarkdownFileById.
    destruct (matchesById W (Js.slice 1 templateSelector)) as [|first [|second others]];
      cbn; by rewrite ?app_nil_r.
Qed.

(** ** The references of a body *)

Lemma collectReferences_members (options : ExtractOptions)
    (found : list (nat * nat * string)) (acc acc' : Extracted) (log : list Diag) :
  loopCheck options = None ->
  collectReferences W options found acc = (Returns acc', log) ->
  forall r,
    r ∈ normalizedReferences acc'
    <-> (r ∈ normalizedReferences acc
         \/ exists start stop group normalized lg,
              (start, stop, group) ∈ found
              /\ isVariableReference (Js.trim group) = false
              /\ normalizeToRelativeSelector W (Js.trim group) = (Returns normalized, lg)
              /\ r = default (Js.trim group) normalized).
Proof.
  intros Hcheck. revert acc log.
  induction found as [|[[start stop] group] found IH]; intros acc log; cbn [collectReferences].
  - intros [<- _]%ret_Returns r. split; [by left|].
    intros [?|(? & ? & ? & ? & ? & []%elem_of_nil & _)]. done.
  - destruct (isVariableReference (Js.trim group)) eqn:Evar.
    + intros H r. rewrite (IH _ _ H r). split.
      * intros [?|(s & e & g & n & lg & Hin & ?)]; [by left|].
        right. exists s, e, g, n, lg. split; [by right|done].
      * intros [?|(s & e & g & n & lg & Hin & Hv & Hn & Hr)]; [by left|].
        apply elem_of_cons in Hin as [[= -> -> ->]|Hin]; [congruence|].
        right. by exists s, e, g, n, lg.
    + intros (normalized & l1 & l2 & Hnorm & H & _)%bind_Returns. rewrite Hcheck in H.
      intros r. rewrite (IH _ _ H r). cbn [keepReference normalizedReferences].
      rewrite elem_of_app, list_elem_of_singleton. split.
      * intros [[?| ->]|(s & e & g & n & lg & Hin & ?)].
        -- by left.
        -- right. exists start, stop, group, normalized, l1. split; [left|done].
        -- right. exists s, e, g, n, lg. split; [by right|done].
      * intros [?|(s & e & g & n & lg & Hin & Hv & Hn & Hr)]; [by left; left|].
        apply elem_of_cons in Hin as [[= -> -> ->]|Hin].
        -- left. right. rewrite Hnorm in Hn. by injection Hn as <- _.
        -- right. by exists s, e, g, n, lg.
Qed.

(** X28. The references of a parsed body are its tokens, no more and no
    less: a path is a reference exactly when some match of the
    reference pattern in the body, trimmed, is no variable token and
    normalizes to that path (or is that text itself, when it normalizes
    to null). *)
Theorem parsed_references_are_the_tokens (text : string) (refs : list string)
    (newContent : string) (log : list Diag) :
  extractAndNormalizeReferences W text = (Returns (refs, newContent), log) ->
  forall r,
    r ∈ refs
    <-> exists start stop group normalized lg,
          (start, stop, group) ∈ Re.execAll referenceRegex 0 0 text
          /\ isVariableReference (Js.trim group) = false
          /\ normalizeToRelativeSelector W (Js.trim group) = (Returns normalized, lg)
          /\ r = default (Js.trim group) normalized.
Proof.
  unfold extractAndNormalizeReferences, extractReferencesFromContent.
  intros (acc & l1 & l2 & Hacc & [[= <- _] _]%ret_Returns & _)%bind_Returns r.
  pose proof (collectReferences_members
                {| currentPath := None; optAncestors := []; removeLoopedReferences := false;
                   normalizeInContent := true |} _ _ _ _ eq_refl Hacc r) as Hmembers.
  cbn [normalizedReferences] in Hmembers. split.
  - intros Hr%dedupe_subset. apply Hmembers in Hr as [[]%elem_of_nil|Hr]. exact Hr.
  - intros Hr. apply dedupe_complete; [|apply not_elem_of_nil].
    apply Hmembers. by right.
Qed.

End LegacyFacts.

(** X28 at a body that names one fragment twice, next to a variable:
    the variable is no reference. *)
Lemma parsed_references_are_the_tokens_witness :
  "$x" ∈ ["a"]
  <-> exists start stop group normalized lg,
        (start, stop, group)
        ∈ Re.execAll referenceRegex 0 0 "{{ a }} {{ $x }} {{ @a }}"
        /\ isVariableReference (Js.trim group) = false
        /\ normalizeToRelativeSelector twiceDir (Js.trim group) = (Returns normalized, lg)
        /\ "$x" = default (Js.trim group) normalized.
Proof.
  refine (parsed_references_are_the_tokens twiceDir "{{ a }} {{ $x }} {{ @a }}" ["a"]
            "{{ a }} {{ $x }} {{ a }}" [] _ "$x").
  vm_compute. reflexivity.
Defined.

(** * Interpolation through double-brace tokens *)

(** ** Bodies with several tokens *)














(** ** The two renderings of a round *)

Section Interpolation.

Context {FM : Type}.
Variable W : World FM.
Variable session : MosaicVariables.




End Interpolation.

